(** * Obsidian-Plot: the [plot] code-block processor

    A shallow embedding of the render callback registered by
    [ObservablePlotPlugin.onload], in its two published forms:

    - [src/src/main.ts]: inline data or a JSON [dataUrl], synchronous
      user code with the capabilities [Plot], [d3], [data];
    - [src/unnamed/part_000] (first program): format dispatch on the
      fetched body (csv, tsv, json, geojson, topojson), asynchronous
      user code with the capabilities [Plot], [d3], [data], [topojson].

    Both share the configuration parser.  JavaScript strings are lists of
    UTF-16 code units; the engine and the libraries the callback talks to
    (fetch, [URL], d3, Plot, [new Function]) are a [Host] record. *)

From Stdlib Require Import List NArith ZArith Bool String Ascii Lia.
Import ListNotations.

Local Open Scope N_scope.

#[local] Set Warnings "-register-all".

(** ** Strings *)

(** A UTF-16 code unit. *)
Definition cu := N.

(** A JavaScript string. *)
Definition jstring := list cu.

(** An ASCII literal of the source, as code units. *)
Definition lit (s : string) : jstring :=
  List.map N_of_ascii (list_ascii_of_string s).

Definition TAB : cu := 9.
Definition LF : cu := 10.
Definition CR : cu := 13.
Definition SP : cu := 32.
Definition DQ : cu := 34.         (* the double quote *)
Definition DOLLAR : cu := 36.
Definition COMMA : cu := 44.
Definition DOT : cu := 46.
Definition COLON : cu := 58.
Definition LBRACKET : cu := 91.
Definition BACKSLASH : cu := 92.
Definition RBRACKET : cu := 93.
Definition BACKTICK : cu := 96.
Definition LBRACE : cu := 123.
Definition RBRACE : cu := 125.

(** A word between two double quotes, as a JSON key or string is written. *)
Definition quoted (s : string) : jstring := DQ :: lit s ++ [DQ].

Fixpoint jstring_eqb (a b : jstring) : bool :=
  match a, b with
  | [], [] => true
  | x :: a', y :: b' => (x =? y) && jstring_eqb a' b'
  | _, _ => false
  end.

(** [strip_prefix p s] is [Some r] when [s = p ++ r]. *)
Fixpoint strip_prefix (p s : jstring) : option jstring :=
  match p with
  | [] => Some s
  | x :: p' =>
      match s with
      | y :: s' => if x =? y then strip_prefix p' s' else None
      | [] => None
      end
  end.

Definition startsWith (s p : jstring) : bool :=
  match strip_prefix p s with Some _ => true | None => false end.

Definition includes (s : jstring) (c : cu) : bool :=
  existsb (N.eqb c) s.

(** JavaScript's WhiteSpace and LineTerminator code units: the class [\s]
    of a regular expression and what [String.prototype.trim] removes. *)
Definition is_space (c : cu) : bool :=
  (c =? 9) || (c =? 10) || (c =? 11) || (c =? 12) || (c =? 13) || (c =? 32)
  || (c =? 160) || (c =? 5760) || ((8192 <=? c) && (c <=? 8202))
  || (c =? 8232) || (c =? 8233) || (c =? 8239) || (c =? 8287)
  || (c =? 12288) || (c =? 65279).

Fixpoint skip_space (s : jstring) : jstring :=
  match s with
  | c :: r => if is_space c then skip_space r else s
  | [] => []
  end.

Definition trim (s : jstring) : jstring :=
  rev (skip_space (rev (skip_space s))).

(** Decimal digits of a natural number, most significant first; [fuel]
    bounds the number of digits. *)
Fixpoint decimal_digits (fuel : nat) (n : N) (acc : jstring) : jstring :=
  match fuel with
  | O => acc
  | S f =>
      let acc' := (48 + n mod 10) :: acc in
      if n / 10 =? 0 then acc' else decimal_digits f (n / 10) acc'
  end.

(** [String(n)] for a non-negative integer [n]. *)
Definition decimal (n : N) : jstring :=
  decimal_digits (S (N.to_nat (N.log2 n))) n [].

(** ** Values *)

(** A Number.  [Num neg m e] stands for the double nearest to
    [(-1)^neg * m * 10^e], the value a decimal literal denotes. *)
Inductive number :=
| Num (neg : bool) (mant : N) (exp10 : Z)
| Infinity (neg : bool)
| NaN.

Inductive library := LibPlot | LibD3 | LibTopojson.

Inductive value :=
| VUndefined
| VNull
| VBool (b : bool)
| VNumber (n : number)
| VString (s : jstring)
| VArray (xs : list value)
| VObject (ms : list (jstring * value))
| VDate (text : jstring)      (* new Date(text) *)
| VLib (l : library)          (* a library namespace passed to user code *)
| VHost (id : N).             (* any other object of the engine: a mark, an element, ... *)

(** A decimal [m * 10^e] that rounds to (plus or minus) zero as a double:
    it is at most [2^-1075], half the least subnormal. *)
Definition rounds_to_zero (m : N) (e : Z) : bool :=
  if (0 <=? e)%Z then m =? 0
  else (Z.of_N m * 2 ^ 1075 <=? 10 ^ (- e))%Z.

Definition number_is_zero (n : number) : bool :=
  match n with
  | Num _ m e => rounds_to_zero m e
  | Infinity _ => false
  | NaN => false
  end.

(** ToBoolean. *)
Definition truthy (v : value) : bool :=
  match v with
  | VUndefined | VNull => false
  | VBool b => b
  | VNumber NaN => false
  | VNumber n => negb (number_is_zero n)
  | VString s => match s with [] => false | _ => true end
  | VArray _ | VObject _ | VDate _ | VLib _ | VHost _ => true
  end.

(** [typeof v === 'object']. *)
Definition typeof_is_object (v : value) : bool :=
  match v with
  | VNull | VArray _ | VObject _ | VDate _ | VLib _ | VHost _ => true
  | _ => false
  end.

Definition num_of_N (n : N) : value := VNumber (Num false n 0).

(** Own data properties of an object: keys are unique, a later definition
    of a key overwrites the value in place. *)
Fixpoint lookup (k : jstring) (ms : list (jstring * value)) : option value :=
  match ms with
  | [] => None
  | (k', v) :: r => if jstring_eqb k k' then Some v else lookup k r
  end.

Fixpoint define (k : jstring) (v : value) (ms : list (jstring * value))
  : list (jstring * value) :=
  match ms with
  | [] => [(k, v)]
  | (k', v') :: r =>
      if jstring_eqb k k' then (k', v) :: r else (k', v') :: define k v r
  end.

(** ** JSON.parse

    The grammar of ECMA-404 as [JSON.parse] reads it: insignificant
    whitespace is space, tab, line feed and carriage return; a string may
    not hold a raw control character, so a raw line feed inside a string
    is a syntax error. *)
Module JSON.

Inductive res (A : Type) :=
| Parsed (a : A) (rest : jstring)
| Syntax
| Fuel.
Arguments Parsed {A} a rest.
Arguments Syntax {A}.
Arguments Fuel {A}.

Definition is_ws (c : cu) : bool :=
  (c =? 32) || (c =? 9) || (c =? 10) || (c =? 13).

Fixpoint skip_ws (s : jstring) : jstring :=
  match s with
  | c :: r => if is_ws c then skip_ws r else s
  | [] => []
  end.

Definition is_digit (c : cu) : bool := (48 <=? c) && (c <=? 57).

Definition hex_val (c : cu) : option N :=
  if (48 <=? c) && (c <=? 57) then Some (c - 48)
  else if (65 <=? c) && (c <=? 70) then Some (c - 55)
  else if (97 <=? c) && (c <=? 102) then Some (c - 87)
  else None.

Definition hex4 (a b c d : cu) : option cu :=
  match hex_val a, hex_val b, hex_val c, hex_val d with
  | Some x, Some y, Some z, Some w => Some (((x * 16 + y) * 16 + z) * 16 + w)
  | _, _, _, _ => None
  end.

(** The character an escape letter stands for. *)
Definition simple_escape (e : cu) : option cu :=
  if e =? 34 then Some 34            (* quote *)
  else if e =? 92 then Some 92       (* backslash *)
  else if e =? 47 then Some 47       (* slash *)
  else if e =? 98 then Some 8        (* b: backspace *)
  else if e =? 102 then Some 12      (* f: form feed *)
  else if e =? 110 then Some 10      (* n: line feed *)
  else if e =? 114 then Some 13      (* r: carriage return *)
  else if e =? 116 then Some 9       (* t: tab *)
  else None.

(** The characters of a string, after its opening quote, up to and
    including the closing quote. *)
Fixpoint parse_chars (s : jstring) : option (jstring * jstring) :=
  match s with
  | [] => None
  | c :: r =>
      if c =? 34 then Some ([], r)
      else if c =? 92 then
        match r with
        | [] => None
        | e :: r1 =>
            if e =? 117 then                      (* u and four hex digits *)
              match r1 with
              | a :: b :: c' :: d :: r2 =>
                  match hex4 a b c' d with
                  | Some u =>
                      match parse_chars r2 with
                      | Some (t, rest) => Some (u :: t, rest)
                      | None => None
                      end
                  | None => None
                  end
              | _ => None
              end
            else
              match simple_escape e with
              | Some u =>
                  match parse_chars r1 with
                  | Some (t, rest) => Some (u :: t, rest)
                  | None => None
                  end
              | None => None
              end
        end
      else if c <? 32 then None
      else
        match parse_chars r with
        | Some (t, rest) => Some (c :: t, rest)
        | None => None
        end
  end.

(** A maximal run of digits. *)
Fixpoint take_digits (s : jstring) : jstring * jstring :=
  match s with
  | c :: r =>
      if is_digit c then let (ds, rest) := take_digits r in (c :: ds, rest)
      else ([], s)
  | [] => ([], [])
  end.

Definition digits_value (ds : jstring) : N :=
  fold_left (fun a d => 10 * a + (d - 48)) ds 0.

(** int: [0] or a non-zero digit followed by digits. *)
Definition parse_int (s : jstring) : option (jstring * jstring) :=
  match s with
  | c :: r =>
      if c =? 48 then Some ([c], r)
      else if is_digit c then let (ds, rest) := take_digits r in Some (c :: ds, rest)
      else None
  | [] => None
  end.

(** frac: nothing, or a dot followed by one digit at least. *)
Definition parse_frac (s : jstring) : option (jstring * jstring) :=
  match s with
  | c :: r =>
      if c =? 46 then
        match take_digits r with
        | ([], _) => None
        | (ds, rest) => Some (ds, rest)
        end
      else Some ([], s)
  | [] => Some ([], [])
  end.

(** exp: nothing, or [e]/[E], an optional sign and one digit at least. *)
Definition parse_exp (s : jstring) : option (Z * jstring) :=
  match s with
  | c :: r =>
      if (c =? 101) || (c =? 69) then
        let '(neg, r1) :=
          match r with
          | sg :: r' =>
              if sg =? 45 then (true, r')
              else if sg =? 43 then (false, r')
              else (false, r)
          | [] => (false, r)
          end in
        match take_digits r1 with
        | ([], _) => None
        | (ds, rest) =>
            let e := Z.of_N (digits_value ds) in
            Some (if neg then (- e)%Z else e, rest)
        end
      else Some (0%Z, s)
  | [] => Some (0%Z, [])
  end.

Definition parse_number (s : jstring) : option (number * jstring) :=
  let '(neg, s1) :=
    match s with
    | c :: r => if c =? 45 then (true, r) else (false, s)
    | [] => (false, s)
    end in
  match parse_int s1 with
  | None => None
  | Some (ip, s2) =>
      match parse_frac s2 with
      | None => None
      | Some (fp, s3) =>
          match parse_exp s3 with
          | None => None
          | Some (e, s4) =>
              Some (Num neg (digits_value (ip ++ fp))
                        (e - Z.of_nat (List.length fp))%Z, s4)
          end
      end
  end.

Definition parse_literal (word : string) (v : value) (s : jstring) : res value :=
  match strip_prefix (lit word) s with
  | Some rest => Parsed v rest
  | None => Syntax
  end.

(** A value, after optional whitespace; [parse_elements] reads the
    elements of an array after the first, [parse_members] the members of
    an object, up to and including the closing bracket. *)
Fixpoint parse_value (fuel : nat) (s : jstring) : res value :=
  match fuel with
  | O => Fuel
  | S f =>
      match skip_ws s with
      | [] => Syntax
      | c :: r =>
          if c =? 123 then                          (* { *)
            match skip_ws r with
            | d :: r1 =>
                if d =? 125 then Parsed (VObject []) r1
                else
                  match parse_members f (skip_ws r) [] with
                  | Parsed ms rest => Parsed (VObject ms) rest
                  | Syntax => Syntax
                  | Fuel => Fuel
                  end
            | [] => Syntax
            end
          else if c =? 91 then                      (* [ *)
            match skip_ws r with
            | d :: r1 =>
                if d =? 93 then Parsed (VArray []) r1
                else
                  match parse_elements f (skip_ws r) with
                  | Parsed xs rest => Parsed (VArray xs) rest
                  | Syntax => Syntax
                  | Fuel => Fuel
                  end
            | [] => Syntax
            end
          else if c =? 34 then
            match parse_chars r with
            | Some (t, rest) => Parsed (VString t) rest
            | None => Syntax
            end
          else if c =? 116 then parse_literal "true" (VBool true) (c :: r)
          else if c =? 102 then parse_literal "false" (VBool false) (c :: r)
          else if c =? 110 then parse_literal "null" VNull (c :: r)
          else
            match parse_number (c :: r) with
            | Some (n, rest) => Parsed (VNumber n) rest
            | None => Syntax
            end
      end
  end

with parse_elements (fuel : nat) (s : jstring) : res (list value) :=
  match fuel with
  | O => Fuel
  | S f =>
      match parse_value f s with
      | Parsed v rest =>
          match skip_ws rest with
          | c :: r =>
              if c =? 93 then Parsed [v] r
              else if c =? 44 then
                match parse_elements f r with
                | Parsed vs rest' => Parsed (v :: vs) rest'
                | Syntax => Syntax
                | Fuel => Fuel
                end
              else Syntax
          | [] => Syntax
          end
      | Syntax => Syntax
      | Fuel => Fuel
      end
  end

with parse_members (fuel : nat) (s : jstring) (acc : list (jstring * value))
  : res (list (jstring * value)) :=
  match fuel with
  | O => Fuel
  | S f =>
      match skip_ws s with
      | c :: r =>
          if c =? 34 then
            match parse_chars r with
            | Some (k, r1) =>
                match skip_ws r1 with
                | d :: r2 =>
                    if d =? 58 then
                      match parse_value f r2 with
                      | Parsed v r3 =>
                          let acc' := define k v acc in
                          match skip_ws r3 with
                          | e :: r4 =>
                              if e =? 125 then Parsed acc' r4
                              else if e =? 44 then parse_members f r4 acc'
                              else Syntax
                          | [] => Syntax
                          end
                      | Syntax => Syntax
                      | Fuel => Fuel
                      end
                    else Syntax
                | [] => Syntax
                end
            | None => Syntax
            end
          else Syntax
      | [] => Syntax
      end
  end.

Definition fuel_for (s : jstring) : nat := 2 * List.length s + 2.

(** [JSON.parse text]: the value, or [None] where the engine throws a
    SyntaxError. *)
Definition parse (text : jstring) : option value :=
  match parse_value (fuel_for text) text with
  | Parsed v rest =>
      match skip_ws rest with
      | [] => Some v
      | _ :: _ => None
      end
  | Syntax => None
  | Fuel => None
  end.

End JSON.


(** ** The regular expression of the tolerant path

    [/("code"\s*:\s*")(.*?)("(?=\s*[}\],]))/s]: the key between quotes,
    a colon between optional whitespace, the opening quote; then, lazily,
    any code units (the [s] flag lets the dot match line terminators) up
    to the first quote that is followed, after optional whitespace, by a
    closing brace, a closing bracket or a comma. *)

(** A maximal run of whitespace at the head of [s], and what follows. *)
Fixpoint span_space (s : jstring) : jstring * jstring :=
  match s with
  | c :: r =>
      if is_space c then let (ws, rest) := span_space r in (c :: ws, rest)
      else ([], s)
  | [] => ([], [])
  end.

(** The text of a [code] key up to the opening quote of its value, with
    the whitespace before and after the colon. *)
Definition code_key (ws1 ws2 : jstring) : jstring :=
  quoted "code" ++ ws1 ++ [COLON] ++ ws2 ++ [DQ].

(** Group 1 at the head of [s]: the matched text and what follows it.
    The greedy [\s*] never gives back, as neither the colon nor the quote
    is whitespace. *)
Definition key_at (s : jstring) : option (jstring * jstring) :=
  match strip_prefix (quoted "code") s with
  | None => None
  | Some r1 =>
      let (ws1, r2) := span_space r1 in
      match r2 with
      | c :: r3 =>
          if c =? COLON then
            let (ws2, r4) := span_space r3 in
            match r4 with
            | d :: r5 =>
                if d =? DQ then
                  Some (code_key ws1 ws2, r5)
                else None
            | [] => None
            end
          else None
      | [] => None
      end
  end.

(** The lookahead [(?=\s*[}\],])] at the head of [s]. *)
Definition lookahead (s : jstring) : bool :=
  match skip_space s with
  | c :: _ => (c =? RBRACE) || (c =? RBRACKET) || (c =? COMMA)
  | [] => false
  end.

(** Group 3 at the head of [s]: a quote that passes the lookahead. *)
Definition closes (s : jstring) : bool :=
  match s with
  | c :: r => (c =? DQ) && lookahead r
  | [] => false
  end.

(** Group 2, lazily: the shortest prefix of [s] that a closing quote
    follows, with the text after that quote. *)
Fixpoint lazy_group (s : jstring) : option (jstring * jstring) :=
  match s with
  | [] => None
  | c :: r =>
      if closes s then Some ([], r)
      else
        match lazy_group r with
        | Some (g, rest) => Some (c :: g, rest)
        | None => None
        end
  end.

(** The result of [source.match(re)]: the text before the match, the
    three groups, the text after the match. *)
Record RegExpMatch := {
  before : jstring;
  group1 : jstring;
  group2 : jstring;
  group3 : jstring;
  after : jstring
}.

(** [codeMatch[0]] *)
Definition whole (m : RegExpMatch) : jstring :=
  group1 m ++ group2 m ++ group3 m.

Definition match_here (s : jstring) : option RegExpMatch :=
  match key_at s with
  | Some (g1, r) =>
      match lazy_group r with
      | Some (g2, rest) =>
          Some {| before := []; group1 := g1; group2 := g2;
                  group3 := [DQ]; after := rest |}
      | None => None
      end
  | None => None
  end.

(** The leftmost match. *)
Fixpoint codeMatch (s : jstring) : option RegExpMatch :=
  match match_here s with
  | Some m => Some m
  | None =>
      match s with
      | [] => None
      | c :: r =>
          match codeMatch r with
          | Some m =>
              Some {| before := c :: before m; group1 := group1 m;
                      group2 := group2 m; group3 := group3 m;
                      after := after m |}
          | None => None
          end
      end
  end.

(** [hay.replace(needle, repl)] with a string pattern and a replacement
    that holds no dollar sign: the first occurrence is replaced. *)
Fixpoint replace_first (needle repl hay : jstring) : jstring :=
  match strip_prefix needle hay with
  | Some rest => repl ++ rest
  | None =>
      match hay with
      | [] => []
      | c :: r => c :: replace_first needle repl r
      end
  end.

(** [s.replace(/ab/g, r)] for a pattern of two code units [a], [b]. *)
Fixpoint replace_pairs (a b : cu) (r : jstring) (s : jstring) : jstring :=
  match s with
  | x :: rest =>
      match rest with
      | y :: t =>
          if (x =? a) && (y =? b) then r ++ replace_pairs a b r t
          else x :: replace_pairs a b r rest
      | [] => [x]
      end
  | [] => []
  end.

(** [s.replace(/\\/g, '')] *)
Definition strip_backslashes (s : jstring) : jstring :=
  filter (fun c => negb (c =? BACKSLASH)) s.

(** The escape reversal of the tolerant path, in the order of the source. *)
Definition unescape_code (g2 : jstring) : jstring :=
  strip_backslashes
    (replace_pairs BACKSLASH DQ [DQ]
       (replace_pairs BACKSLASH 110 [LF] g2)).

Definition placeholder : jstring := lit "__CODE_PLACEHOLDER__".

(** The replacement text: the key, a colon, the placeholder between quotes. *)
Definition code_placeholder : jstring :=
  quoted "code" ++ [COLON] ++ [DQ] ++ placeholder ++ [DQ].

(** ** Errors, host, effects *)

(** What is thrown. The programs read nothing of it but [error.message]
    in a string concatenation, so a thrown value is its message. *)
Record error := Error { message : jstring }.

Inductive result (A : Type) :=
| Ok (a : A)
| Err (e : error).
Arguments Ok {A} a.
Arguments Err {A} e.

(** What a call of the user function comes to. *)
Inductive call_outcome :=
| Returned (v : value)          (* the value returned, awaited where the caller awaits *)
| Threw (e : error)             (* thrown, or rejected *)
| NeverSettles.                 (* loops, or returns a promise that stays pending *)

(** What [fetch] comes to: a rejection, or a response with its status and
    its body read as text. *)
Inductive fetch_outcome :=
| FetchRejected (e : error)
| FetchResponded (status : N) (body : result jstring).

(** [response.ok] *)
Definition response_ok (status : N) : bool :=
  (200 <=? status) && (status <=? 299).

(** The properties the callback reads. No prototype defines one of the
    first five. *)
Inductive prop := P_dataUrl | P_data | P_code | P_objects | P_type | P_length.

Definition prop_name (p : prop) : jstring :=
  match p with
  | P_dataUrl => lit "dataUrl"
  | P_data => lit "data"
  | P_code => lit "code"
  | P_objects => lit "objects"
  | P_type => lit "type"
  | P_length => lit "length"
  end.

(** The engine and the libraries. *)
Record Host := {
  (** message of the SyntaxError [JSON.parse] throws on a text *)
  SyntaxError_message : jstring -> jstring;
  (** message of the TypeError thrown on reading a property of null or
      undefined *)
  TypeError_read : value -> prop -> jstring;
  (** message of the TypeError thrown on creating a property on a
      primitive *)
  TypeError_assign : value -> prop -> jstring;
  (** ToString of a value that is not a string *)
  ToString : value -> result jstring;
  fetch : jstring -> fetch_outcome;
  (** [new URL(u).pathname] *)
  URL_pathname : jstring -> result jstring;
  (** [d3.csvParse(text, d3.autoType)], [d3.tsvParse(text, d3.autoType)] *)
  d3_csvParse : jstring -> list value;
  d3_tsvParse : jstring -> list value;
  Plot_dot : value -> result value;
  (** [Plot.plot(spec)]: an element, or nothing *)
  Plot_plot : value -> result (option N);
  (** [new Function(p1, ..., pn, body)] *)
  Function_new : list jstring -> jstring -> result (list value -> call_outcome)
}.

Inductive event :=
| Console (is_error : bool) (args : list jstring)
| Fetch (url : jstring)
| NewFunction (params : list jstring) (body : jstring)
| Call (args : list value)
| PlotDot (data : value)
| PlotPlot (spec : value).

Inductive node :=
| NText (t : jstring)
| NGraphic (g : N)
| NDiv (cls : jstring) (kids : list node).

(** The state a render acts on: the calls made to the host so far, the
    children of the block element [el] other than the plot container, and
    the children of the plot container once it is created, for as long as
    it is the last child of [el]. *)
Record world := {
  trace : list event;
  el_nodes : list node;
  container : option (list node)
}.

(** The URLs fetched, the functions built and the calls of the user
    function, in order. *)
Definition fetched (t : list event) : list jstring :=
  flat_map (fun e => match e with Fetch u => [u] | _ => [] end) t.

Definition functions_built (t : list event) : list (list jstring * jstring) :=
  flat_map (fun e => match e with NewFunction p b => [(p, b)] | _ => [] end) t.

Definition calls_made (t : list event) : list (list value) :=
  flat_map (fun e => match e with Call args => [args] | _ => [] end) t.

Definition specs_plotted (t : list event) : list value :=
  flat_map (fun e => match e with PlotPlot s => [s] | _ => [] end) t.

Definition container_class : jstring := lit "observable-plot-container".

Definition el_children (w : world) : list node :=
  el_nodes w ++
  match container w with
  | Some kids => [NDiv container_class kids]
  | None => []
  end.

(** A block element as the host hands it over. *)
Definition fresh_world : world :=
  {| trace := []; el_nodes := []; container := None |}.

Inductive outcome (A : Type) :=
| Ret (a : A)
| Throw (e : error)
| Never           (* the user code never completes *)
| Escapes.        (* the payload closes or escapes the template literal it
                     is spliced into: the assembled text is another program *)
Arguments Ret {A} a.
Arguments Throw {A} e.
Arguments Never {A}.
Arguments Escapes {A}.

Definition M (A : Type) : Type := world -> outcome A * world.

Definition ret {A} (a : A) : M A := fun w => (Ret a, w).

Definition bind {A B} (m : M A) (k : A -> M B) : M B :=
  fun w =>
    match m w with
    | (Ret a, w') => k a w'
    | (Throw e, w') => (Throw e, w')
    | (Never, w') => (Never, w')
    | (Escapes, w') => (Escapes, w')
    end.

Definition throw {A} (e : error) : M A := fun w => (Throw e, w).

(** [try { m } catch (error) { handler error }] *)
Definition try_catch {A} (m : M A) (handler : error -> M A) : M A :=
  fun w =>
    match m w with
    | (Throw e, w') => handler e w'
    | r => r
    end.

Definition lift {A} (r : result A) : M A :=
  match r with
  | Ok a => ret a
  | Err e => throw e
  end.

Definition emit (e : event) : M unit :=
  fun w => (Ret tt, {| trace := trace w ++ [e]; el_nodes := el_nodes w;
                       container := container w |}).

Declare Scope js_scope.
Delimit Scope js_scope with js.
Notation "x <- m ;; k" := (bind m (fun x => k))
  (at level 61, m at next level, right associativity) : js_scope.
Notation "m ;; k" := (bind m (fun _ => k))
  (at level 61, right associativity) : js_scope.
Local Open Scope js_scope.

(** [this.logMessage(message, isError)] *)
Definition logMessage (msg : jstring) (isError : bool) : M unit :=
  emit (Console isError [lit "[Observable Plot]"; msg]).

(** [el.createDiv({ cls: 'observable-plot-container' })] *)
Definition createDiv : M unit :=
  fun w => (Ret tt, {| trace := trace w; el_nodes := el_nodes w;
                       container := Some [] |}).

(** [el.setText(t)]: the text replaces every child of [el]. *)
Definition el_setText (t : jstring) : M unit :=
  fun w => (Ret tt, {| trace := trace w; el_nodes := [NText t];
                       container := None |}).

Definition on_container (f : list node -> list node) : M unit :=
  fun w => (Ret tt, {| trace := trace w; el_nodes := el_nodes w;
                       container := option_map f (container w) |}).

Definition container_empty : M unit := on_container (fun _ => []).

Definition container_appendChild (g : N) : M unit :=
  on_container (fun kids => kids ++ [NGraphic g]).

Definition container_setText (t : jstring) : M unit :=
  on_container (fun _ => [NText t]).

(** ToString, as a template literal or a string concatenation applies it. *)
Definition to_js_string (h : Host) (v : value) : result jstring :=
  match v with
  | VString s => Ok s
  | VNumber (Num false m 0%Z) =>
      if m <? 2 ^ 53 then Ok (decimal m) else ToString h v
  | _ => ToString h v
  end.

(** [v.p] for the properties of [prop]. Every receiver in the two
    programs is a value that [JSON.parse] returned. *)
Definition get_prop (h : Host) (v : value) (p : prop) : result value :=
  match v with
  | VUndefined | VNull => Err (Error (TypeError_read h v p))
  | VObject ms =>
      Ok (match lookup (prop_name p) ms with Some x => x | None => VUndefined end)
  | VArray xs =>
      Ok (match p with
          | P_length => num_of_N (N.of_nat (List.length xs))
          | _ => VUndefined
          end)
  | VString s =>
      Ok (match p with
          | P_length => num_of_N (N.of_nat (List.length s))
          | _ => VUndefined
          end)
  | VBool _ | VNumber _ | VDate _ | VLib _ | VHost _ => Ok VUndefined
  end.

(** ** The configuration parser (both programs) *)

(** The variable [config]. The interface [PlotConfig] is erased at run
    time: [config] is whatever [JSON.parse] returned, and its fields are
    read as properties of that value. The record keeps the parsed value
    and, apart, the string that the tolerant path assigned to its [code]
    property, which is what a later [config.code] reads. *)
Record PlotConfig := {
  parsed : value;
  assigned_code : option jstring
}.

(** Values a property can be created on: objects, arrays included. The
    assignment [config.code = actualCode] throws a TypeError on null and,
    the file being a module and so strict code, on the other primitives. *)
Definition is_object (v : value) : bool :=
  match v with
  | VArray _ | VObject _ | VDate _ | VLib _ | VHost _ => true
  | _ => false
  end.

(** Lines 29-56 of [src/src/main.ts], 30-57 of [part_000]: the direct
    parse, then the tolerant path. *)
Definition parseConfig (h : Host) (source : jstring) : result PlotConfig :=
  match JSON.parse source with
  | Some v => Ok {| parsed := v; assigned_code := None |}
  | None =>
      match codeMatch source with
      | Some m =>
          let withoutCode := replace_first (whole m) code_placeholder source in
          match JSON.parse withoutCode with
          | Some v =>
              let actualCode := unescape_code (group2 m) in
              if is_object v then
                Ok {| parsed := v; assigned_code := Some actualCode |}
              else
                Err (Error (lit "Failed to parse JSON: "
                              ++ TypeError_assign h v P_code))
          | None =>
              Err (Error (lit "Failed to parse JSON: "
                            ++ SyntaxError_message h withoutCode))
          end
      | None =>
          Err (Error (lit "Failed to parse JSON and couldn't find code section"))
      end
  end.

(** [config.p] *)
Definition config_get (h : Host) (c : PlotConfig) (p : prop) : result value :=
  match p, assigned_code c with
  | P_code, Some s => Ok (VString s)
  | _, _ => get_prop h (parsed c) p
  end.

(** ** Shared pieces of the two programs *)

(** Lines of program text, joined by line feeds. *)
Definition line (indent : nat) (s : string) : jstring :=
  repeat SP indent ++ lit s.

Fixpoint unlines (ls : list jstring) : jstring :=
  match ls with
  | [] => []
  | [l] => l
  | l :: rest => l ++ LF :: unlines rest
  end.

(** The payload is spliced between the backticks of a template literal of
    the outer function's body. It stays the text it is when it holds no
    backtick (which would close the literal), no backslash (an escape) and
    no dollar sign followed by an opening brace (a substitution). *)
Fixpoint template_safe (s : jstring) : bool :=
  match s with
  | [] => true
  | c :: r =>
      negb (c =? BACKTICK) && negb (c =? BACKSLASH)
      && negb ((c =? DOLLAR) && match r with d :: _ => d =? LBRACE | [] => false end)
      && template_safe r
  end.

(** The value of a template literal without escapes and substitutions: its
    text, each CR LF and each lone CR read as LF. *)
Fixpoint template_value (s : jstring) : jstring :=
  match s with
  | [] => []
  | c :: r =>
      if c =? CR then
        match r with
        | d :: r' => if d =? LF then LF :: template_value r' else LF :: template_value r
        | [] => [LF]
        end
      else c :: template_value r
  end.

(** [throw new Error('Either data or dataUrl must be provided')] *)
Definition missing_source : error :=
  Error (lit "Either data or dataUrl must be provided").

Definition no_specification : error :=
  Error (lit "No plot specification returned").

Definition plot_returned_null : error :=
  Error (lit "Plot.plot() returned null").

(** The rethrow of the fetch block. *)
Definition fetch_failure (e : error) : error :=
  Error (lit "Failed to fetch data from URL: " ++ message e).

Definition http_error (status : N) : error :=
  Error (lit "HTTP error! status: " ++ decimal status).

(** The catch boundary of the render callback. *)
Definition report (e : error) : M unit :=
  logMessage (message e) true ;;
  el_setText (lit "Error rendering plot: " ++ message e).

(** [const plot = Plot.plot(spec); if (!plot) throw ...;
     container.empty(); container.appendChild(plot);] *)
Definition plot_into_container (h : Host) (spec : value) : M unit :=
  emit (PlotPlot spec) ;;
  plot <- lift (Plot_plot h spec) ;;
  match plot with
  | None => throw plot_returned_null
  | Some g => container_empty ;; container_appendChild g
  end.

(** The default plot of the [else] branch. *)
Definition default_spec (mark : value) : value :=
  VObject [ (lit "width", num_of_N 640);
            (lit "height", num_of_N 400);
            (lit "margin", num_of_N 40);
            (lit "marks", VArray [mark]) ].

Definition default_plot (h : Host) (plotData : value) : M unit :=
  emit (PlotDot plotData) ;;
  mark <- lift (Plot_dot h plotData) ;;
  plot_into_container h (default_spec mark).

(** The user function is called; its result is the plot specification. *)
Definition call_user (f : list value -> call_outcome) (args : list value) : M value :=
  emit (Call args) ;;
  match f args with
  | Returned v => ret v
  | Threw e => throw e
  | NeverSettles => fun w => (Never, w)
  end.

(** ** src/src/main.ts *)
Module Main.

(** Lines 64-68: what the awaited [fetch] came to is checked and read
    as JSON. *)
Definition receive (h : Host) (o : fetch_outcome) : M value :=
  match o with
  | FetchRejected e => throw e
  | FetchResponded status body =>
      if negb (response_ok status) then throw (http_error status)
      else
        text <- lift body ;;
        match JSON.parse text with
        | None => throw (Error (SyntaxError_message h text))
        | Some plotData =>
            len <- lift (get_prop h plotData P_length) ;;
            n <- lift (to_js_string h len) ;;
            logMessage (lit "Successfully fetched data: " ++ n ++ lit " items") false ;;
            ret plotData
        end
  end.

(** Lines 61-71: the [try] block of the fetch and its [catch]. *)
Definition fetchData (h : Host) (dataUrl : value) : M value :=
  try_catch
    (url <- lift (to_js_string h dataUrl) ;;
     logMessage (lit "Fetching data from " ++ url) false ;;
     emit (Fetch url) ;;
     receive h (fetch h url))
    (fun e => throw (fetch_failure e)).

(** Lines 60-76. *)
Definition resolveData (h : Host) (config : PlotConfig) : M value :=
  dataUrl <- lift (config_get h config P_dataUrl) ;;
  if truthy dataUrl then fetchData h dataUrl
  else
    data <- lift (config_get h config P_data) ;;
    if truthy data then ret data
    else throw missing_source.

Definition user_params : list jstring := [lit "Plot"; lit "d3"; lit "data"].

Definition plot_params : list jstring :=
  [lit "Plot"; lit "d3"; lit "data"; lit "container"].

(** The text between the backticks of the inner template literal. *)
Definition user_template (code : jstring) : jstring :=
  unlines
    [ [];
      line 32 "try {";
      repeat SP 36 ++ code;
      line 32 "} catch (e) {";
      line 36 "throw e;";
      line 32 "}";
      line 28 "" ].

(** What stands before and after the payload in that text. *)
Definition user_prefix : jstring :=
  unlines [ []; line 32 "try {"; repeat SP 36 ].

Definition user_suffix : jstring :=
  LF :: unlines [ line 32 "} catch (e) {"; line 36 "throw e;"; line 32 "}";
                  line 28 "" ].

(** The body of the user function. *)
Definition user_body (code : jstring) : jstring :=
  template_value (user_template code).

(** The body of [plotFunction]. *)
Definition plot_body (code : jstring) : jstring :=
  unlines
    [ [];
      line 24 "try {";
      line 28 "// Execute the user's code and get the plot specification";
      line 28 "const userFunction = new Function('Plot', 'd3', 'data', `"
    ] ++ user_template code ++
  unlines
    [ lit "`);";
      line 28 "";
      line 28 "const spec = userFunction(Plot, d3, data);";
      line 28 "if (!spec) {";
      line 32 "throw new Error('No plot specification returned');";
      line 28 "}";
      line 28 "";
      line 28 "const plot = Plot.plot(spec);";
      line 28 "";
      line 28 "if (!plot) {";
      line 32 "throw new Error('Plot.plot() returned null');";
      line 28 "}";
      [];
      [];
      line 28 "";
      line 28 "// Clear the container and append the plot";
      line 28 "container.empty();";
      line 28 "container.appendChild(plot);";
      line 28 "";
      line 24 "} catch (error) {";
      line 28 "throw error;";
      line 24 "}";
      line 20 "" ].

(** Lines 84-118: [plotFunction] is built and called. *)
Definition plotFunction (h : Host) (code : value) (plotData : value) : M unit :=
  text <- lift (to_js_string h code) ;;
  if negb (template_safe text) then (fun w => (Escapes, w))
  else
    emit (NewFunction plot_params (plot_body text)) ;;
    emit (NewFunction user_params (user_body text)) ;;
    userFunction <- lift (Function_new h user_params (user_body text)) ;;
    spec <- call_user userFunction [VLib LibPlot; VLib LibD3; plotData] ;;
    if negb (truthy spec) then throw no_specification
    else plot_into_container h spec.

(** Lines 78-134. *)
Definition render (h : Host) (config : PlotConfig) (plotData : value) : M unit :=
  createDiv ;;
  code <- lift (config_get h config P_code) ;;
  if truthy code then plotFunction h code plotData
  else default_plot h plotData.

(** The callback registered for [plot] blocks, on a block's source. *)
Definition processor (h : Host) (source : jstring) : M unit :=
  try_catch
    (config <- lift (parseConfig h source) ;;
     plotData <- resolveData h config ;;
     render h config plotData)
    report.

End Main.

(** ** src/unnamed/part_000 (first program) *)
Module Part000.

(** [s.split(sep)] for a separator of one code unit. *)
Fixpoint split (sep : cu) (s : jstring) : list jstring :=
  match s with
  | [] => [[]]
  | c :: r =>
      if c =? sep then [] :: split sep r
      else
        match split sep r with
        | seg :: segs => (c :: seg) :: segs
        | [] => [[c]]
        end
  end.

(** [xs.pop()] of a list that [split] returned. *)
Definition pop (xs : list jstring) : jstring := last xs [].

(** [s.toLowerCase()]. The ASCII capitals, the Kelvin sign and the dotted
    capital I are the only code units whose lower case holds an ASCII
    letter; the lower case of the others is left as it is, which the
    comparison with the five extension words cannot tell. *)
Definition lower (c : cu) : jstring :=
  if (65 <=? c) && (c <=? 90) then [c + 32]
  else if c =? 8490 then [107]
  else if c =? 304 then [105; 775]
  else [c].

Definition toLowerCase (s : jstring) : jstring := flat_map lower s.

Inductive format := CSV | TSV | JSON_family | Unknown.

(** The [switch (ext)] of lines 74-121. *)
Definition format_of (ext : jstring) : format :=
  if jstring_eqb ext (lit "csv") then CSV
  else if jstring_eqb ext (lit "tsv") then TSV
  else if jstring_eqb ext (lit "json") || jstring_eqb ext (lit "geojson")
          || jstring_eqb ext (lit "topojson") then JSON_family
  else Unknown.

(** [url.pathname.split('.').pop()?.toLowerCase()] *)
Definition extension (pathname : jstring) : jstring :=
  toLowerCase (pop (split DOT pathname)).

Definition is_array (v : value) : bool :=
  match v with VArray _ => true | _ => false end.

(** [v === s] for a string [s]. *)
Definition is_string (v : value) (s : jstring) : bool :=
  match v with VString t => jstring_eqb t s | _ => false end.

(** Lines 84-101 and 106-115: the body parsed as JSON and classified. *)
Definition parse_json_family (h : Host) (text : jstring) : M value :=
  match JSON.parse text with
  | None => throw (Error (SyntaxError_message h text))
  | Some data =>
      objects <- lift (get_prop h data P_objects) ;;
      if truthy objects then ret data
      else
        type <- lift (get_prop h data P_type) ;;
        if is_string type (lit "FeatureCollection") || is_string type (lit "Feature")
        then ret data
        else if is_array data then ret data
        else ret (VArray [data])
  end.

(** Lines 74-121. *)
Definition parse_body (h : Host) (ext text : jstring) : M value :=
  match format_of ext with
  | CSV => ret (VArray (d3_csvParse h text))
  | TSV => ret (VArray (d3_tsvParse h text))
  | JSON_family => parse_json_family h text
  | Unknown =>
      if startsWith (trim text) [LBRACE] || startsWith (trim text) [LBRACKET]
      then parse_json_family h text
      else if includes text TAB then ret (VArray (d3_tsvParse h text))
      else ret (VArray (d3_csvParse h text))
  end.

(** Line 123. *)
Definition fetched_message (h : Host) (plotData : value) : result jstring :=
  if typeof_is_object plotData then
    Ok (lit "Successfully fetched data: " ++ lit "GeoJSON/TopoJSON")
  else
    match get_prop h plotData P_length with
    | Err e => Err e
    | Ok len =>
        match to_js_string h len with
        | Err e => Err e
        | Ok n => Ok (lit "Successfully fetched data: " ++ n ++ lit " items")
        end
    end.

(** Lines 65-123: what the awaited [fetch] came to is checked, read as
    text and parsed by its format. *)
Definition receive (h : Host) (url : jstring) (o : fetch_outcome) : M value :=
  match o with
  | FetchRejected e => throw e
  | FetchResponded status body =>
      if negb (response_ok status) then throw (http_error status)
      else
        pathname <- lift (URL_pathname h url) ;;
        text <- lift body ;;
        plotData <- parse_body h (extension pathname) text ;;
        msg <- lift (fetched_message h plotData) ;;
        logMessage msg false ;;
        ret plotData
  end.

(** Lines 62-126: the [try] block of the fetch and its [catch]. *)
Definition fetchData (h : Host) (dataUrl : value) : M value :=
  try_catch
    (url <- lift (to_js_string h dataUrl) ;;
     logMessage (lit "Fetching data from " ++ url) false ;;
     emit (Fetch url) ;;
     receive h url (fetch h url))
    (fun e => throw (fetch_failure e)).

(** Lines 61-131. *)
Definition resolveData (h : Host) (config : PlotConfig) : M value :=
  dataUrl <- lift (config_get h config P_dataUrl) ;;
  if truthy dataUrl then fetchData h dataUrl
  else
    data <- lift (config_get h config P_data) ;;
    if truthy data then ret data
    else throw missing_source.

Definition user_params : list jstring :=
  [lit "Plot"; lit "d3"; lit "data"; lit "topojson"].

Definition plot_params : list jstring :=
  [lit "Plot"; lit "d3"; lit "data"; lit "topojson"; lit "container"].

(** The text between the backticks of the inner template literal. *)
Definition user_template (code : jstring) : jstring :=
  unlines
    [ [];
      line 36 "return (async () => {";
      line 40 "try {";
      repeat SP 44 ++ code;
      line 40 "} catch (e) {";
      line 44 "throw e;";
      line 40 "}";
      line 36 "})();";
      line 32 "" ].

(** What stands before and after the payload in that text. *)
Definition user_prefix : jstring :=
  unlines [ []; line 36 "return (async () => {"; line 40 "try {";
            repeat SP 44 ].

Definition user_suffix : jstring :=
  LF :: unlines [ line 40 "} catch (e) {"; line 44 "throw e;"; line 40 "}";
                  line 36 "})();"; line 32 "" ].

(** The body of the user function. *)
Definition user_body (code : jstring) : jstring :=
  template_value (user_template code).

(** The body of [plotFunction]. *)
Definition plot_body (code : jstring) : jstring :=
  unlines
    [ [];
      line 24 "return (async () => {";
      line 28 "try {";
      line 32 "// Execute the user's code and get the plot specification";
      line 32 "const userFunction = new Function('Plot', 'd3', 'data', 'topojson', `"
    ] ++ user_template code ++
  unlines
    [ lit "`);";
      line 32 "";
      line 32 "const spec = await userFunction(Plot, d3, data, topojson);";
      line 32 "if (!spec) {";
      line 36 "throw new Error('No plot specification returned');";
      line 32 "}";
      line 32 "";
      line 32 "const plot = Plot.plot(spec);";
      line 32 "";
      line 32 "if (!plot) {";
      line 36 "throw new Error('Plot.plot() returned null');";
      line 32 "}";
      line 32 "";
      line 32 "// Clear the container and append the plot";
      line 32 "container.empty();";
      line 32 "container.appendChild(plot);";
      line 28 "} catch (error) {";
      line 32 "throw error;";
      line 28 "}";
      line 24 "})();";
      line 20 "" ].

(** The handler of [plotFunction(...).catch(...)], lines 174-177. *)
Definition generation_failed (e : error) : M unit :=
  emit (Console true [lit "Error in plot generation:"; message e]) ;;
  container_setText (lit "Error generating plot: " ++ message e).

(** Lines 139-177: [plotFunction] is built and called; what its promise
    is rejected with goes to the handler. *)
Definition plotFunction (h : Host) (code : value) (plotData : value) : M unit :=
  text <- lift (to_js_string h code) ;;
  if negb (template_safe text) then (fun w => (Escapes, w))
  else
    emit (NewFunction plot_params (plot_body text)) ;;
    try_catch
      (emit (NewFunction user_params (user_body text)) ;;
       userFunction <- lift (Function_new h user_params (user_body text)) ;;
       spec <- call_user userFunction
                 [VLib LibPlot; VLib LibD3; plotData; VLib LibTopojson] ;;
       if negb (truthy spec) then throw no_specification
       else plot_into_container h spec)
      generation_failed.

(** Lines 133-193. *)
Definition render (h : Host) (config : PlotConfig) (plotData : value) : M unit :=
  createDiv ;;
  code <- lift (config_get h config P_code) ;;
  if truthy code then plotFunction h code plotData
  else default_plot h plotData.

(** The callback registered for [plot] blocks, on a block's source. *)
Definition processor (h : Host) (source : jstring) : M unit :=
  try_catch
    (config <- lift (parseConfig h source) ;;
     plotData <- resolveData h config ;;
     render h config plotData)
    report.

End Part000.

(** ** A reference host *)

(** Modelled from the spec: [d3.csvParse] and [d3.tsvParse] with
    [d3.autoType], which belong to the data-manipulation library and are
    not part of the repository. The spec asks for delimited text read with
    automatic type inference per field: numeric-looking strings become
    numbers, recognizable date strings become dates, everything else stays
    a string, as the library does it. The first row names the columns,
    every other row is a record. *)
Module D3.

Inductive terminator := Delim | Eol | Eof.

(** A quoted field after its opening quote: a doubled quote stands for a
    quote, a single one closes the field. [None]: no closing quote. *)
Fixpoint quoted_field (s : jstring) : option (jstring * jstring) :=
  match s with
  | [] => None
  | c :: r =>
      if c =? DQ then
        match r with
        | d :: r' =>
            if d =? DQ then
              match quoted_field r' with
              | Some (f, rest) => Some (DQ :: f, rest)
              | None => None
              end
            else Some ([], r)
        | [] => Some ([], [])
        end
      else
        match quoted_field r with
        | Some (f, rest) => Some (c :: f, rest)
        | None => None
        end
  end.

(** What follows a field: the end, an end of line (LF, CR or CR LF), or
    one code unit taken as the delimiter. *)
Definition after_field (s : jstring) : terminator * jstring :=
  match s with
  | [] => (Eof, [])
  | c :: r =>
      if c =? LF then (Eol, r)
      else if c =? CR then
        match r with
        | d :: r' => if d =? LF then (Eol, r') else (Eol, r)
        | [] => (Eol, [])
        end
      else (Delim, r)
  end.

(** An unquoted field: up to the next delimiter or end of line. *)
Fixpoint plain_field (delimiter : cu) (s : jstring) : jstring * jstring :=
  match s with
  | [] => ([], [])
  | c :: r =>
      if (c =? LF) || (c =? CR) || (c =? delimiter) then ([], s)
      else let (f, rest) := plain_field delimiter r in (c :: f, rest)
  end.

(** The doubled quotes of an unclosed field. *)
Fixpoint undouble (s : jstring) : jstring :=
  match s with
  | c :: r =>
      match r with
      | d :: r' =>
          if (c =? DQ) && (d =? DQ) then DQ :: undouble r'
          else c :: undouble r
      | [] => [c]
      end
  | [] => []
  end.

(** The next field of the text [s]; [extra] is the first code unit of the
    trailing line end that was set aside, which an unclosed quoted field
    runs into. *)
Definition next_field (delimiter : cu) (extra s : jstring)
  : jstring * terminator * jstring :=
  match s with
  | c :: r =>
      if c =? DQ then
        match quoted_field r with
        | Some (f, rest) => let (t, rest') := after_field rest in (f, t, rest')
        | None => (undouble (r ++ extra), Eof, [])
        end
      else
        let (f, rest) := plain_field delimiter s in
        let (t, rest') := after_field rest in (f, t, rest')
  | [] => ([], Eof, [])
  end.

Fixpoint read_row (fuel : nat) (delimiter : cu) (extra s : jstring)
  : list jstring * terminator * jstring :=
  match fuel with
  | O => ([], Eof, [])
  | S f =>
      match next_field delimiter extra s with
      | (fld, Delim, rest) =>
          match read_row f delimiter extra rest with
          | (flds, t, rest') => (fld :: flds, t, rest')
          end
      | (fld, t, rest) => ([fld], t, rest)
      end
  end.

Fixpoint read_rows (fuel : nat) (delimiter : cu) (extra s : jstring)
  : list (list jstring) :=
  match fuel with
  | O => []
  | S f =>
      match read_row (S (List.length s)) delimiter extra s with
      | (row, Eol, rest) => row :: read_rows f delimiter extra rest
      | (row, _, _) => [row]
      end
  end.

(** The text without one trailing LF and then one trailing CR, and the
    first code unit set aside. *)
Definition strip_line_end (text : jstring) : jstring * jstring :=
  match rev text with
  | c :: r =>
      if c =? LF then
        match r with
        | d :: r' => if d =? CR then (rev r', [CR]) else (rev r, [LF])
        | [] => ([], [LF])
        end
      else if c =? CR then (rev r, [CR])
      else (text, [])
  | [] => ([], [])
  end.

(** [parseRows(text)] *)
Definition parseRows (delimiter : cu) (text : jstring) : list (list jstring) :=
  match text with
  | [] => []
  | _ :: _ =>
      let (body, extra) := strip_line_end text in
      read_rows (S (List.length body)) delimiter extra body
  end.

Definition is_digit (c : cu) : bool := (48 <=? c) && (c <=? 57).

Fixpoint take_digits (s : jstring) : jstring * jstring :=
  match s with
  | c :: r =>
      if is_digit c then let (ds, rest) := take_digits r in (c :: ds, rest)
      else ([], s)
  | [] => ([], [])
  end.

Definition digits_value (ds : jstring) : N :=
  fold_left (fun a d => 10 * a + (d - 48)) ds 0.

(** An optional exponent part that ends the text. *)
Definition exponent (s : jstring) : option Z :=
  match s with
  | [] => Some 0%Z
  | c :: r =>
      if (c =? 101) || (c =? 69) then
        let '(neg, r1) :=
          match r with
          | sg :: r' =>
              if sg =? 45 then (true, r')
              else if sg =? 43 then (false, r')
              else (false, r)
          | [] => (false, r)
          end in
        match take_digits r1 with
        | ((_ :: _) as ds, []) =>
            let e := Z.of_N (digits_value ds) in
            Some (if neg then (- e)%Z else e)
        | _ => None
        end
      else None
  end.

(** An unsigned decimal literal: digits with an optional fraction, or a
    dot followed by digits, and an optional exponent. *)
Definition unsigned_decimal (neg : bool) (s : jstring) : option number :=
  if jstring_eqb s (lit "Infinity") then Some (Infinity neg)
  else
    let (ip, r1) := take_digits s in
    let '(fp, r2, dotted) :=
      match r1 with
      | c :: r => if c =? DOT then let (fp, r2) := take_digits r in (fp, r2, true)
                  else ([], r1, false)
      | [] => ([], r1, false)
      end in
    match ip, fp with
    | [], [] => None
    | _, _ =>
        match exponent r2 with
        | Some e =>
            Some (Num neg (digits_value (ip ++ fp))
                      (e - Z.of_nat (List.length fp))%Z)
        | None => None
        end
    end.

Definition digit_in (radix : N) (c : cu) : option N :=
  let d :=
    if (48 <=? c) && (c <=? 57) then Some (c - 48)
    else if (65 <=? c) && (c <=? 90) then Some (c - 55)
    else if (97 <=? c) && (c <=? 122) then Some (c - 87)
    else None in
  match d with
  | Some x => if x <? radix then Some x else None
  | None => None
  end.

Fixpoint radix_value (radix : N) (s : jstring) (acc : N) : option N :=
  match s with
  | [] => Some acc
  | c :: r =>
      match digit_in radix c with
      | Some d => radix_value radix r (acc * radix + d)
      | None => None
      end
  end.

(** [+value] for a trimmed, non-empty string: [None] stands for NaN. *)
Definition to_number (s : jstring) : option number :=
  match s with
  | c :: d :: ((_ :: _) as r) =>
      if (c =? 48) && ((d =? 120) || (d =? 88)) then
        option_map (fun n => Num false n 0%Z) (radix_value 16 r 0)
      else if (c =? 48) && ((d =? 111) || (d =? 79)) then
        option_map (fun n => Num false n 0%Z) (radix_value 8 r 0)
      else if (c =? 48) && ((d =? 98) || (d =? 66)) then
        option_map (fun n => Num false n 0%Z) (radix_value 2 r 0)
      else if c =? 45 then unsigned_decimal true (d :: r)
      else if c =? 43 then unsigned_decimal false (d :: r)
      else unsigned_decimal false s
  | c :: r =>
      if c =? 45 then unsigned_decimal true r
      else if c =? 43 then unsigned_decimal false r
      else unsigned_decimal false s
  | [] => None
  end.

(** [n] digits at the head of [s]. *)
Fixpoint digits (n : nat) (s : jstring) : option jstring :=
  match n with
  | O => Some s
  | S k =>
      match s with
      | c :: r => if is_digit c then digits k r else None
      | [] => None
      end
  end.

(** A zone: [Z], or a sign, two digits, a colon and two digits; then the
    end. *)
Definition zone_end (s : jstring) : bool :=
  match s with
  | [] => true
  | [c] => c =? 90
  | c :: r =>
      ((c =? 45) || (c =? 43)) &&
      match digits 2 r with
      | Some (d :: r') =>
          (d =? COLON) && match digits 2 r' with Some [] => true | _ => false end
      | _ => false
      end
  end.

(** The time part after [T]: hours and minutes, optional seconds with
    optional milliseconds, an optional zone. *)
Definition time_end (s : jstring) : bool :=
  match digits 2 s with
  | Some (c :: r) =>
      (c =? COLON) &&
      match digits 2 r with
      | Some ((d :: r1) as r0) =>
          if d =? COLON then
            match digits 2 r1 with
            | Some ((e :: r2) as r3) =>
                if e =? DOT then
                  match digits 3 r2 with
                  | Some r4 => zone_end r4
                  | None => false
                  end
                else zone_end r3
            | Some [] => true
            | None => false
            end
          else zone_end r0
      | Some [] => true
      | None => false
      end
  | _ => false
  end.

(** After the year: an optional month with an optional day, an optional
    time. *)
Definition date_end (s : jstring) : bool :=
  let time_opt (r : jstring) :=
    match r with
    | [] => true
    | c :: r' => (c =? 84) && time_end r'
    end in
  match s with
  | c :: r =>
      if c =? 45 then
        match digits 2 r with
        | Some ((d :: r1) as r0) =>
            if d =? 45 then
              match digits 2 r1 with
              | Some r2 => time_opt r2
              | None => false
              end
            else time_opt r0
        | Some [] => true
        | None => false
        end
      else time_opt s
  | [] => true
  end.

(** The date pattern of [autoType]. *)
Definition looks_like_date (s : jstring) : bool :=
  let year (r : jstring) :=
    match digits 4 r with
    | Some r' => date_end r'
    | None => false
    end in
  match s with
  | c :: r =>
      if (c =? 45) || (c =? 43) then
        match digits 2 r with
        | Some r' => year r'
        | None => false
        end
      else year s
  | [] => false
  end.

(** The inference of [autoType] on one field. *)
Definition infer (field : jstring) : value :=
  let v := trim field in
  match v with
  | [] => VNull
  | _ :: _ =>
      if jstring_eqb v (lit "true") then VBool true
      else if jstring_eqb v (lit "false") then VBool false
      else if jstring_eqb v (lit "NaN") then VNumber NaN
      else
        match to_number v with
        | Some n => VNumber n
        | None => if looks_like_date v then VDate v else VString field
        end
  end.

(** The record of a row: column [i] holds the inferred field [i], or what
    is inferred from the empty string where the row is short. *)
Fixpoint record (columns : list jstring) (row : list jstring)
  (acc : list (jstring * value)) : list (jstring * value) :=
  match columns with
  | [] => acc
  | k :: ks =>
      let fld := match row with f :: _ => f | [] => [] end in
      let acc' :=
        if jstring_eqb k (lit "__proto__") then acc
        else define k (infer fld) acc in
      record ks (List.tl row) acc'
  end.

(** [d3.dsvFormat(delimiter).parse(text, d3.autoType)] *)
Definition parse (delimiter : cu) (text : jstring) : list value :=
  match parseRows delimiter text with
  | [] => []
  | columns :: rows => List.map (fun row => VObject (record columns row [])) rows
  end.

End D3.

(** A host for running the programs: the engine's messages are fixed
    texts, the plotting library accepts everything; the network, the URL
    parser and what the user code comes to are given. *)
Definition reference_host
  (net : jstring -> fetch_outcome)
  (pathname : jstring -> result jstring)
  (user : list value -> call_outcome) : Host :=
  {| SyntaxError_message := fun _ => lit "Unexpected token";
     TypeError_read := fun _ _ => lit "Cannot read properties of null";
     TypeError_assign := fun _ _ => lit "Cannot create property";
     ToString := fun _ => Ok (lit "[object Object]");
     fetch := net;
     URL_pathname := pathname;
     d3_csvParse := D3.parse COMMA;
     d3_tsvParse := D3.parse TAB;
     Plot_dot := fun _ => Ok (VHost 1);
     Plot_plot := fun _ => Ok (Some 2);
     Function_new := fun _ _ => Ok user |}.

Definition offline (u : jstring) : fetch_outcome :=
  FetchRejected (Error (lit "Failed to fetch")).

Definition no_url (u : jstring) : result jstring :=
  Err (Error (lit "Invalid URL")).

(** The path of a URL without query and fragment whose authority holds no
    slash: what follows the scheme and the authority. *)
Fixpoint from_slash (s : jstring) : jstring :=
  match s with
  | [] => lit "/"
  | c :: r => if c =? 47 then s else from_slash r
  end.

Definition simple_pathname (u : jstring) : result jstring :=
  match strip_prefix (lit "https://") u with
  | Some r => Ok (from_slash r)
  | None => Err (Error (lit "Invalid URL"))
  end.

(** ** Shapes of source texts *)

(** No match of group 1 starts inside [pre], when [tail] follows it. *)
Fixpoint key_free (pre tail : jstring) : bool :=
  match pre with
  | [] => true
  | _ :: p =>
      match key_at (pre ++ tail) with
      | None => key_free p tail
      | Some _ => false
      end
  end.

(** No closing quote (a quote that passes the lookahead) starts inside
    [payload], when [tail] follows it. *)
Fixpoint close_free (payload tail : jstring) : bool :=
  match payload with
  | [] => true
  | _ :: p => negb (closes (payload ++ tail)) && close_free p tail
  end.

#[local] Arguments N.eqb : simpl never.
#[local] Arguments N.leb : simpl never.
#[local] Arguments N.ltb : simpl never.
Arguments lit : simpl never.
Arguments decimal : simpl never.
Arguments rounds_to_zero : simpl never.
Arguments JSON.parse : simpl never.

(** A source text with one raw code payload: [pre], the code key, the
    payload, the closing quote, [post]. *)
Definition tolerant_source (pre ws1 ws2 payload post : jstring) : jstring :=
  pre ++ code_key ws1 ws2 ++ payload ++ DQ :: post.


(** A computation that fetches nothing. *)
Definition quiet {A} (m : M A) : Prop :=
  forall w, fetched (trace (snd (m w))) = fetched (trace w).

(** The world after the first two steps of the fetch block: the log line
    and the request. *)
Definition requested (u : jstring) (w : world) : world :=
  {| trace := (trace w ++ [Console false [lit "[Observable Plot]";
                                          lit "Fetching data from " ++ u]])
              ++ [Fetch u];
     el_nodes := el_nodes w;
     container := container w |}.

(** The world after a line of the log. *)
Definition logged (isError : bool) (msg : jstring) (w : world) : world :=
  {| trace := trace w ++ [Console isError [lit "[Observable Plot]"; msg]];
     el_nodes := el_nodes w;
     container := container w |}.

(** The world after an error reached the catch boundary of the callback. *)
Definition reported (e : error) (w : world) : world :=
  {| trace := trace w ++ [Console true [lit "[Observable Plot]"; message e]];
     el_nodes := [NText (lit "Error rendering plot: " ++ message e)];
     container := None |}.

(** A configuration as [JSON.parse] gives it: an object, no code assigned. *)
Definition plain_config (ms : list (jstring * value)) : PlotConfig :=
  {| parsed := VObject ms; assigned_code := None |}.

(** ** Sample inputs *)
Module Sample.

(** A host without network whose user code returns nothing. *)
Definition host : Host :=
  reference_host offline no_url (fun _ => Returned VNull).

(** An opening brace, the key [data] with the array of one number, a comma. *)
Definition data_prefix : jstring :=
  lit "{" ++ quoted "data" ++ lit ":[1],".

(** A payload of two lines with two raw quotes, none before a comma, a
    bracket or a brace. *)
Definition payload : jstring :=
  lit "const t = " ++ quoted "a" ++ lit " + data.length;" ++ [LF]
  ++ lit "return {title: t};" ++ [LF].

Definition source : jstring :=
  tolerant_source data_prefix [] [SP] payload (lit "}").

(** What the tolerant path makes of [source]. *)
Definition config : PlotConfig :=
  {| parsed := VObject [(lit "data", VArray [num_of_N 1]);
                        (lit "code", VString placeholder)];
     assigned_code := Some payload |}.

(** A payload of two lines with two raw quotes, the second before a comma. *)
Definition payload_with_comma : jstring :=
  lit "return f(" ++ quoted "a" ++ lit ", 1);" ++ [LF].

Definition source_with_comma : jstring :=
  tolerant_source data_prefix [] [SP] payload_with_comma (lit "}").

(** A payload of two lines with two raw quotes, none before a comma, a
    bracket or a brace, and a regular-expression escape. *)
Definition payload_with_quotes_and_escape : jstring :=
  lit "const t = " ++ quoted "a" ++ lit ".replace(/\d/g, 'x');" ++ [LF]
  ++ lit "return {title: t};" ++ [LF].

Definition source_with_quotes_and_escape : jstring :=
  tolerant_source data_prefix [] [SP] payload_with_quotes_and_escape (lit "}").

(** A payload with a regular-expression escape. *)
Definition payload_with_escape : jstring := lit "return /\d+/;".

Definition source_with_escape : jstring :=
  tolerant_source data_prefix [] [] payload_with_escape (lit "}").

(** Inline data of three records and no code. *)
Definition three_source : jstring :=
  lit "{" ++ quoted "data" ++ lit ":[{" ++ quoted "x" ++ lit ":1},{"
  ++ quoted "x" ++ lit ":2},{" ++ quoted "x" ++ lit ":3}]}".

Definition three_records : value :=
  VArray [ VObject [(lit "x", num_of_N 1)];
           VObject [(lit "x", num_of_N 2)];
           VObject [(lit "x", num_of_N 3)] ].

(** The custom plot of the README: three records and a raw payload of
    several lines. *)
Definition readme_payload : jstring :=
  unlines
    [ [];
      line 4 "return {";
      line 6 "marks: [";
      line 8 "Plot.line(data, {x: 'x', y: 'y', stroke: 'blue', strokeWidth: 2}),";
      line 8 "Plot.dot(data, {x: 'x', y: 'y', fill: 'red', r: 5})";
      line 6 "],";
      line 6 "grid: true,";
      line 6 "x: {label: 'X Axis'},";
      line 6 "y: {label: 'Y Axis'}";
      line 4 "};";
      line 2 "" ].

Definition readme_source : jstring :=
  unlines
    [ lit "{";
      line 2 "" ++ quoted "data" ++ lit ": [";
      line 4 "{" ++ quoted "x" ++ lit ": 1, " ++ quoted "y" ++ lit ": 2},";
      line 4 "{" ++ quoted "x" ++ lit ": 2, " ++ quoted "y" ++ lit ": 4},";
      line 4 "{" ++ quoted "x" ++ lit ": 3, " ++ quoted "y" ++ lit ": 6}";
      line 2 "],";
      line 2 "" ++ quoted "code" ++ lit ": " ++ [DQ] ++ readme_payload ++ [DQ];
      lit "}" ].

Definition readme_records : value :=
  VArray [ VObject [(lit "x", num_of_N 1); (lit "y", num_of_N 2)];
           VObject [(lit "x", num_of_N 2); (lit "y", num_of_N 4)];
           VObject [(lit "x", num_of_N 3); (lit "y", num_of_N 6)] ].


Definition null_config : PlotConfig :=
  plain_config [(lit "data", VArray [num_of_N 1]);
                (lit "code", VString (lit "return null"))].

(** Configurations with a remote source. *)
Definition url : jstring := lit "https://example.com/data.csv".

Definition url_member : jstring :=
  quoted "dataUrl" ++ lit ":" ++ [DQ] ++ url ++ [DQ].

Definition url_source : jstring := lit "{" ++ url_member ++ lit "}".

Definition both_source : jstring :=
  lit "{" ++ url_member ++ lit "," ++ quoted "data" ++ lit ":[7]}".

Definition empty_url_source : jstring :=
  lit "{" ++ quoted "dataUrl" ++ lit ":" ++ [DQ; DQ] ++ lit ","
  ++ quoted "data" ++ lit ":[7]}".

(** A host whose server answers 404. *)
Definition not_found_host : Host :=
  reference_host (fun _ => FetchResponded 404 (Ok (lit "Not Found")))
    simple_pathname (fun _ => Returned VNull).

(** The body of the CSV example: a header and two rows. *)
Definition csv_body : jstring :=
  lit "a,b" ++ [LF] ++ lit "1,2" ++ [LF] ++ lit "3,4".

Definition csv_records : list value :=
  [ VObject [(lit "a", VNumber (Num false 1 0)); (lit "b", VNumber (Num false 2 0))];
    VObject [(lit "a", VNumber (Num false 3 0)); (lit "b", VNumber (Num false 4 0))] ].

(** A host whose server answers with that body. *)
Definition csv_host : Host :=
  reference_host (fun _ => FetchResponded 200 (Ok csv_body))
    simple_pathname (fun _ => Returned VNull).

(** A host whose user code returns a specification. *)
Definition plotting_host : Host :=
  reference_host offline no_url
    (fun _ => Returned (VObject [(lit "marks", VArray [])])).

End Sample.


(** ** src/unnamed/part_000 (third program)

    The earliest of the three programs: inline data only, an [svg] element
    of its own inside the plot container, and a [log] function handed to
    the function that wraps the user code. *)
Module Legacy.

(** What [Plot.plot] returns, as far as the program reads it: whether it
    is an [SVGElement], its attributes in order, its [innerHTML] and its
    [outerHTML]. *)
Record element := {
  is_svg : bool;
  attributes : list (jstring * jstring);
  innerHTML : jstring;
  outerHTML : jstring
}.

(** The engine and the libraries of the other two programs, and what this
    program calls besides. *)
Record Runtime := {
  engine : Host;
  (** [JSON.stringify(v)] and [JSON.stringify(v, null, 2)]: a text, or
      [undefined] *)
  JSON_stringify : value -> result (option jstring);
  JSON_stringify_indented : value -> result (option jstring);
  (** [Plot.plot(spec)]: an element, or nothing *)
  Plot_plot : value -> result (option element);
  (** message of the TypeError thrown on reading [outerHTML] of nothing *)
  TypeError_outerHTML : jstring
}.

(** The [svg] element the program creates: its attributes in order and
    its [innerHTML]. *)
Record svg_state := {
  svg_attributes : list (jstring * jstring);
  svg_innerHTML : jstring
}.

(** [document.createElementNS("http://www.w3.org/2000/svg", "svg")] *)
Definition createElementNS_svg : svg_state :=
  {| svg_attributes := []; svg_innerHTML := [] |}.

Inductive child :=
| Text (t : jstring)
| Container (cls : jstring) (svg : svg_state).

(** The state a render acts on: the calls made to the host so far, the
    children of the block element [el] other than the plot container, and
    the [svg] element of the plot container once it is created. *)
Record world := {
  trace : list event;
  el_nodes : list child;
  svg : option svg_state
}.

Definition el_children (w : world) : list child :=
  el_nodes w ++
  match svg w with
  | Some s => [Container container_class s]
  | None => []
  end.

Definition fresh_world : world :=
  {| trace := []; el_nodes := []; svg := None |}.

Definition M (A : Type) : Type := world -> outcome A * world.

Definition ret {A} (a : A) : M A := fun w => (Ret a, w).

Definition bind {A B} (m : M A) (k : A -> M B) : M B :=
  fun w =>
    match m w with
    | (Ret a, w') => k a w'
    | (Throw e, w') => (Throw e, w')
    | (Never, w') => (Never, w')
    | (Escapes, w') => (Escapes, w')
    end.

Definition throw {A} (e : error) : M A := fun w => (Throw e, w).

Definition try_catch {A} (m : M A) (handler : error -> M A) : M A :=
  fun w =>
    match m w with
    | (Throw e, w') => handler e w'
    | r => r
    end.

Definition lift {A} (r : result A) : M A :=
  match r with
  | Ok a => ret a
  | Err e => throw e
  end.

Definition emit (e : event) : M unit :=
  fun w => (Ret tt, {| trace := trace w ++ [e]; el_nodes := el_nodes w;
                       svg := svg w |}).

Declare Scope legacy_scope.
Delimit Scope legacy_scope with legacy.
Notation "x <- m ;; k" := (bind m (fun x => k))
  (at level 61, m at next level, right associativity) : legacy_scope.
Notation "m ;; k" := (bind m (fun _ => k))
  (at level 61, right associativity) : legacy_scope.
Local Open Scope legacy_scope.

(** [this.logMessage(message, isError)] *)
Definition logMessage (msg : jstring) (isError : bool) : M unit :=
  emit (Console isError [lit "[Observable Plot]"; msg]).

(** The fifth argument of [plotFunction]: [(msg) => this.logMessage(msg)] *)
Definition log (msg : jstring) : M unit := logMessage msg false.

(** Lines 930-934: the plot container with a new [svg] element in it. *)
Definition createDiv_with_svg : M unit :=
  fun w => (Ret tt, {| trace := trace w; el_nodes := el_nodes w;
                       svg := Some createElementNS_svg |}).

(** [el.setText(t)] *)
Definition el_setText (t : jstring) : M unit :=
  fun w => (Ret tt, {| trace := trace w; el_nodes := [Text t]; svg := None |}).

(** [svg.setAttribute(name, value)]: the value of an attribute of that
    name is replaced, a new attribute comes last. *)
Fixpoint setAttribute (name value : jstring) (attrs : list (jstring * jstring))
  : list (jstring * jstring) :=
  match attrs with
  | [] => [(name, value)]
  | (n, v) :: r =>
      if jstring_eqb n name then (n, value) :: r
      else (n, v) :: setAttribute name value r
  end.

(** Lines 969-972 and 990-993: the attributes of the plot are set on the
    [svg] element one by one, then its content is replaced. *)
Definition copy_plot (plot : element) (s : svg_state) : svg_state :=
  {| svg_attributes :=
       fold_left (fun attrs attr => setAttribute (fst attr) (snd attr) attrs)
         (attributes plot) (svg_attributes s);
     svg_innerHTML := innerHTML plot |}.

Definition not_an_svg : error :=
  Error (lit "Plot.plot() did not return an SVG element").

(** Lines 967-975 and 988-996. *)
Definition adopt (plot : option element) : M unit :=
  match plot with
  | Some p =>
      if is_svg p then
        fun w => (Ret tt, {| trace := trace w; el_nodes := el_nodes w;
                             svg := option_map (copy_plot p) (svg w) |})
      else throw not_an_svg
  | None => throw not_an_svg
  end.

Definition no_specification : error :=
  Error (lit "No plot specification returned. Make sure your code returns a plot specification object.").

(** The text of what [JSON.stringify] returned, in a concatenation. *)
Definition text_of (shown : option jstring) : jstring :=
  match shown with
  | Some t => t
  | None => lit "undefined"
  end.

Definition user_params : list jstring := [lit "Plot"; lit "d3"; lit "data"].

Definition plot_params : list jstring :=
  [lit "Plot"; lit "d3"; lit "data"; lit "svg"; lit "log"].

(** The text between the backticks of the inner template literal. *)
Definition user_template (code : jstring) : jstring :=
  unlines
    [ [];
      line 32 "try {";
      repeat SP 36 ++ code;
      line 32 "} catch (e) {";
      line 36 "log(" ++ quoted "Error in user code: " ++ lit " + e.message);";
      line 36 "throw e;";
      line 32 "}";
      line 28 "" ].

(** The body of the user function. *)
Definition user_body (code : jstring) : jstring :=
  template_value (user_template code).

(** The body of [plotFunction]: the code stands in it twice, each time
    between backticks. *)
Definition plot_body (code : jstring) : jstring :=
  unlines
    [ [];
      line 24 "try {";
      line 28 "log(" ++ quoted "Creating user function with code:\n"
        ++ lit " + `" ++ code ++ lit "`);";
      line 28 "";
      line 28 "// Execute the user's code and get the plot specification";
      line 28 "const userFunction = new Function('Plot', 'd3', 'data', `"
    ] ++ user_template code ++
  unlines
    [ lit "`);";
      line 28 "";
      line 28 "log(" ++ quoted "Executing user function..." ++ lit ");";
      line 28 "const spec = userFunction(Plot, d3, data);";
      line 28 "log(" ++ quoted "User function result: "
        ++ lit " + JSON.stringify(spec));";
      line 28 "";
      line 28 "if (!spec) {";
      line 32 "throw new Error('No plot specification returned. Make sure your code returns a plot specification object.');";
      line 28 "}";
      line 28 "";
      line 28 "log(" ++ quoted "Plot spec: "
        ++ lit " + JSON.stringify(spec, null, 2));";
      [];
      line 28 "// Create and render the plot";
      line 28 "const plot = Plot.plot(spec);";
      line 28 "log(" ++ quoted "Created plot: "
        ++ lit " + plot.outerHTML.substring(0, 100) + " ++ quoted "..."
        ++ lit ");";
      line 28 "";
      line 28 "if (plot && plot instanceof SVGElement) {";
      line 32 "// Copy attributes and content from the created plot to our SVG";
      line 32 "Array.from(plot.attributes).forEach(attr => {";
      line 36 "svg.setAttribute(attr.name, attr.value);";
      line 32 "});";
      line 32 "svg.innerHTML = plot.innerHTML;";
      line 28 "} else {";
      line 32 "throw new Error('Plot.plot() did not return an SVG element');";
      line 28 "}";
      line 24 "} catch (error) {";
      line 28 "throw error;";
      line 24 "}";
      line 20 "" ].

(** The user function is called; its result is the plot specification. *)
Definition call_user (f : list value -> call_outcome) (args : list value) : M value :=
  emit (Call args) ;;
  match f args with
  | Returned v => ret v
  | Threw e => throw e
  | NeverSettles => fun w => (Never, w)
  end.

(** Lines 939-982: [plotFunction] is built and called. *)
Definition plotFunction (h : Runtime) (config : PlotConfig) (code : value) : M unit :=
  text <- lift (to_js_string (engine h) code) ;;
  if negb (template_safe text) then (fun w => (Escapes, w))
  else
    emit (NewFunction plot_params (plot_body text)) ;;
    data <- lift (config_get (engine h) config P_data) ;;
    log (lit "Creating user function with code:" ++ [LF] ++ template_value text) ;;
    emit (NewFunction user_params (user_body text)) ;;
    userFunction <- lift (Function_new (engine h) user_params (user_body text)) ;;
    log (lit "Executing user function...") ;;
    spec <- call_user userFunction [VLib LibPlot; VLib LibD3; data] ;;
    shown <- lift (JSON_stringify h spec) ;;
    log (lit "User function result: " ++ text_of shown) ;;
    if negb (truthy spec) then throw no_specification
    else
      indented <- lift (JSON_stringify_indented h spec) ;;
      log (lit "Plot spec: " ++ text_of indented) ;;
      emit (PlotPlot spec) ;;
      plot <- lift (Plot_plot h spec) ;;
      match plot with
      | None => throw (Error (TypeError_outerHTML h))
      | Some p =>
          log (lit "Created plot: " ++ firstn 100 (outerHTML p) ++ lit "...") ;;
          adopt plot
      end.

(** The specification of the [else] branch. *)
Definition default_spec (mark : value) : value :=
  VObject [ (lit "marks", VArray [mark]) ].

(** Lines 984-996. *)
Definition default_plot (h : Runtime) (config : PlotConfig) : M unit :=
  data <- lift (config_get (engine h) config P_data) ;;
  emit (PlotDot data) ;;
  mark <- lift (Plot_dot (engine h) data) ;;
  emit (PlotPlot (default_spec mark)) ;;
  plot <- lift (Plot_plot h (default_spec mark)) ;;
  adopt plot.

(** Lines 929-997. *)
Definition render (h : Runtime) (config : PlotConfig) : M unit :=
  createDiv_with_svg ;;
  code <- lift (config_get (engine h) config P_code) ;;
  if truthy code then plotFunction h config code
  else default_plot h config.

(** The catch boundary of the render callback. *)
Definition report (e : error) : M unit :=
  logMessage (message e) true ;;
  el_setText (lit "Error rendering plot: " ++ message e).

(** The callback registered for [plot] blocks, on a block's source. *)
Definition processor (h : Runtime) (source : jstring) : M unit :=
  try_catch
    (config <- lift (parseConfig (engine h) source) ;;
     render h config)
    report.

End Legacy.

(** ** Further shapes and sample inputs *)

(** [hay.includes(needle)] *)
Fixpoint occurs (needle hay : jstring) : bool :=
  match strip_prefix needle hay with
  | Some _ => true
  | None =>
      match hay with
      | [] => false
      | _ :: r => occurs needle r
      end
  end.

(** The text a writer types for [p] inside a JSON string when only line
    feeds and quotes are escaped: a line feed as backslash and [n], a
    quote as backslash and quote. *)
Definition json_escape (p : jstring) : jstring :=
  flat_map (fun c => if c =? LF then [BACKSLASH; 110]
                     else if c =? DQ then [BACKSLASH; DQ]
                     else [c]) p.

(** Whether the fetch block of [part_000] reads a body as JSON: under one
    of the three JSON extensions, and under an extension it does not know
    when the trimmed body starts with a brace or a bracket. *)
Definition read_as_json (pathname text : jstring) : bool :=
  match Part000.format_of (Part000.extension pathname) with
  | Part000.JSON_family => true
  | Part000.Unknown =>
      startsWith (trim text) [LBRACE] || startsWith (trim text) [LBRACKET]
  | _ => false
  end.

(** The last line of the log of a fetch in [part_000]. *)
Definition fetched_log : jstring :=
  lit "Successfully fetched data: GeoJSON/TopoJSON".

(** A computation every run of which relates the world it starts in to
    the world it ends in. *)
Definition keeps {A} (R : world -> world -> Prop) (m : M A) : Prop :=
  forall w, R w (snd (m w)).

(** Between two worlds the block element is left as it is, and no
    function was built, none called and nothing plotted. *)
Definition only_logs_and_requests (w w' : world) : Prop :=
  el_nodes w' = el_nodes w
  /\ container w' = container w
  /\ functions_built (trace w') = functions_built (trace w)
  /\ calls_made (trace w') = calls_made (trace w)
  /\ specs_plotted (trace w') = specs_plotted (trace w).



Module More.

(** A code key whose value is never closed. *)
Definition unclosed_source : jstring :=
  Sample.data_prefix ++ code_key [] [SP] ++ lit "return 1;".

(** A source without a code key that is not JSON. *)
Definition keyless_source : jstring := lit "{data: [1]}".

(** A raw payload next to a member that is not JSON. *)
Definition broken_source : jstring :=
  lit "{data:[1]," ++ code_key [] [SP] ++ Sample.payload ++ DQ :: lit "}".

(** Hosts whose server answers 200 with a given body. *)
Definition serving (body : jstring) : Host :=
  reference_host (fun _ => FetchResponded 200 (Ok body))
    simple_pathname (fun _ => Returned VNull).

(** The same server behind a URL parser that accepts nothing. *)
Definition serving_relative (body : jstring) : Host :=
  reference_host (fun _ => FetchResponded 200 (Ok body))
    no_url (fun _ => Returned VNull).

Definition record_body : jstring := lit "{" ++ quoted "a" ++ lit ":1}".

Definition record : value := VObject [(lit "a", num_of_N 1)].

Definition tsv_body : jstring :=
  lit "a" ++ [TAB] ++ lit "b" ++ [LF] ++ lit "1" ++ [TAB] ++ lit "2".

Definition tsv_records : list value :=
  [ VObject [(lit "a", VNumber (Num false 1 0)); (lit "b", VNumber (Num false 2 0))] ].

Definition upper_url : jstring := lit "https://example.com/v1.2/DATA.TSV".

Definition bare_url : jstring := lit "https://example.com/api/rows".

Definition json_url : jstring := lit "https://example.com/data.json".




(** What the plotting library returns for a plot without title or
    legend, and for one with a title. *)
Definition svg_plot : Legacy.element :=
  {| Legacy.is_svg := true;
     Legacy.attributes := [(lit "class", lit "plot"); (lit "width", lit "640")];
     Legacy.innerHTML := lit "<g></g>";
     Legacy.outerHTML := lit "<svg class=" ++ quoted "plot" ++ lit " width="
                           ++ quoted "640" ++ lit "><g></g></svg>" |}.

Definition figure_plot : Legacy.element :=
  {| Legacy.is_svg := false;
     Legacy.attributes := [(lit "class", lit "plot-figure")];
     Legacy.innerHTML := lit "<h2>Title</h2><svg></svg>";
     Legacy.outerHTML := lit "<figure class=" ++ quoted "plot-figure"
                           ++ lit "><h2>Title</h2><svg></svg></figure>" |}.

(** A runtime of the third program: what the plotting library returns
    and what the user code comes to are given. *)
Definition runtime (plot : option Legacy.element)
  (user : list value -> call_outcome) : Legacy.Runtime :=
  {| Legacy.engine := reference_host offline no_url user;
     Legacy.JSON_stringify := fun _ => Ok (Some (lit "{}"));
     Legacy.JSON_stringify_indented := fun _ => Ok (Some (lit "{}"));
     Legacy.Plot_plot := fun _ => Ok plot;
     Legacy.TypeError_outerHTML := lit "Cannot read properties of null" |}.

Definition returning (v : value) (args : list value) : call_outcome :=
  Returned v.

(** A runtime whose [JSON.stringify] throws, as on a value that holds
    itself. *)
Definition circular_runtime : Legacy.Runtime :=
  {| Legacy.engine := reference_host offline no_url
                        (fun _ => Returned (VObject [(lit "marks", VArray [])]));
     Legacy.JSON_stringify :=
       fun _ => Err (Error (lit "Converting circular structure to JSON"));
     Legacy.JSON_stringify_indented :=
       fun _ => Err (Error (lit "Converting circular structure to JSON"));
     Legacy.Plot_plot := fun _ => Ok (Some svg_plot);
     Legacy.TypeError_outerHTML := lit "Cannot read properties of null" |}.

Definition marks : value := VObject [(lit "marks", VArray [])].

End More.
(** * Proofs *)

(** ** Strings *)

Lemma strip_prefix_app (p r : jstring) : strip_prefix p (p ++ r) = Some r.
Proof.
  induction p as [|x p IH]; simpl; [reflexivity|].
  now rewrite N.eqb_refl.
Qed.

Lemma strip_prefix_Some (p s r : jstring) :
  strip_prefix p s = Some r -> s = p ++ r.
Proof.
  revert s; induction p as [|x p IH]; simpl; intros s H.
  - now injection H as ->.
  - destruct s as [|y s]; [discriminate|].
    destruct (N.eqb_spec x y) as [->|]; [|discriminate].
    now rewrite (IH _ H).
Qed.

Lemma span_space_stop (ws : jstring) (c : cu) (r : jstring) :
  forallb is_space ws = true -> is_space c = false ->
  span_space (ws ++ c :: r) = (ws, c :: r).
Proof.
  intros Hws Hc; induction ws as [|x ws IH]; simpl.
  - now rewrite Hc.
  - simpl in Hws; apply andb_true_iff in Hws as [Hx Hws].
    now rewrite Hx, (IH Hws).
Qed.

Lemma key_at_code_key (ws1 ws2 r : jstring) :
  forallb is_space ws1 = true -> forallb is_space ws2 = true ->
  key_at (code_key ws1 ws2 ++ r) = Some (code_key ws1 ws2, r).
Proof.
  intros H1 H2; unfold key_at, code_key.
  rewrite <- !app_assoc, strip_prefix_app.
  change ([COLON] ++ ws2 ++ [DQ] ++ r) with (COLON :: ws2 ++ DQ :: r).
  rewrite (span_space_stop ws1 COLON _ H1 eq_refl).
  rewrite N.eqb_refl.
  rewrite (span_space_stop ws2 DQ _ H2 eq_refl).
  now rewrite N.eqb_refl.
Qed.

Lemma lazy_group_payload (payload post : jstring) :
  close_free payload (DQ :: post) = true -> lookahead post = true ->
  lazy_group (payload ++ DQ :: post) = Some (payload, post).
Proof.
  intros Hfree Hla; induction payload as [|c p IH].
  - simpl. now rewrite ?N.eqb_refl, Hla.
  - cbn [close_free] in Hfree; apply andb_true_iff in Hfree as [Hc Hp].
    apply negb_true_iff in Hc.
    change ((c :: p) ++ DQ :: post) with (c :: (p ++ DQ :: post)) in *.
    cbn [lazy_group]. rewrite Hc, (IH Hp). reflexivity.
Qed.

Lemma codeMatch_unfold (s : jstring) :
  codeMatch s =
  match match_here s with
  | Some m => Some m
  | None =>
      match s with
      | [] => None
      | c :: r =>
          match codeMatch r with
          | Some m =>
              Some {| before := c :: before m; group1 := group1 m;
                      group2 := group2 m; group3 := group3 m;
                      after := after m |}
          | None => None
          end
      end
  end.
Proof. destruct s; reflexivity. Qed.

Lemma replace_first_unfold (needle repl hay : jstring) :
  replace_first needle repl hay =
  match strip_prefix needle hay with
  | Some rest => repl ++ rest
  | None =>
      match hay with
      | [] => []
      | c :: r => c :: replace_first needle repl r
      end
  end.
Proof. destruct hay; reflexivity. Qed.

(** The regular expression finds the code key that the shape names. *)
Lemma codeMatch_shape (pre ws1 ws2 payload post : jstring) :
  forallb is_space ws1 = true -> forallb is_space ws2 = true ->
  key_free pre (code_key ws1 ws2 ++ payload ++ DQ :: post) = true ->
  close_free payload (DQ :: post) = true ->
  lookahead post = true ->
  codeMatch (pre ++ code_key ws1 ws2 ++ payload ++ DQ :: post) =
  Some {| before := pre; group1 := code_key ws1 ws2; group2 := payload;
          group3 := [DQ]; after := post |}.
Proof.
  intros H1 H2 Hkey Hclose Hla.
  induction pre as [|c p IH]; rewrite codeMatch_unfold; unfold match_here.
  - rewrite !app_nil_l, (key_at_code_key _ _ _ H1 H2).
    now rewrite (lazy_group_payload _ _ Hclose Hla).
  - cbn [key_free] in Hkey.
    change ((c :: p) ++ code_key ws1 ws2 ++ payload ++ DQ :: post)
      with (c :: (p ++ code_key ws1 ws2 ++ payload ++ DQ :: post)) in *.
    destruct (key_at (c :: p ++ code_key ws1 ws2 ++ payload ++ DQ :: post));
      [discriminate|].
    now rewrite (IH Hkey).
Qed.

(** Replacing the whole match splices the replacement in its place. *)
Lemma replace_first_shape (pre ws1 ws2 payload post repl : jstring) :
  forallb is_space ws1 = true -> forallb is_space ws2 = true ->
  key_free pre (code_key ws1 ws2 ++ payload ++ DQ :: post) = true ->
  replace_first (code_key ws1 ws2 ++ payload ++ [DQ]) repl
    (pre ++ code_key ws1 ws2 ++ payload ++ DQ :: post)
  = pre ++ repl ++ post.
Proof.
  intros H1 H2 Hkey.
  induction pre as [|c p IH]; rewrite replace_first_unfold.
  - rewrite !app_nil_l.
    replace (code_key ws1 ws2 ++ payload ++ DQ :: post)
      with ((code_key ws1 ws2 ++ payload ++ [DQ]) ++ post)
      by now rewrite <- !app_assoc.
    now rewrite strip_prefix_app.
  - cbn [key_free] in Hkey.
    change ((c :: p) ++ code_key ws1 ws2 ++ payload ++ DQ :: post)
      with (c :: (p ++ code_key ws1 ws2 ++ payload ++ DQ :: post)) in *.
    destruct (strip_prefix (code_key ws1 ws2 ++ payload ++ [DQ])
                (c :: p ++ code_key ws1 ws2 ++ payload ++ DQ :: post))
      as [rest|] eqn:Hsp.
    + apply strip_prefix_Some in Hsp.
      rewrite Hsp, <- !app_assoc, (key_at_code_key _ _ _ H1 H2) in Hkey.
      discriminate.
    + destruct (key_at (c :: p ++ code_key ws1 ws2 ++ payload ++ DQ :: post));
        [discriminate|].
      now rewrite (IH Hkey).
Qed.

(** ** JSON.parse is total *)

Module JSONFacts.
Import JSON.

Lemma skip_ws_length (s : jstring) :
  (List.length (skip_ws s) <= List.length s)%nat.
Proof.
  induction s as [|c r IH]; simpl; [lia|].
  destruct (is_ws c); simpl; lia.
Qed.

Lemma skip_ws_cons (s : jstring) (c : cu) (r : jstring) :
  skip_ws s = c :: r -> (List.length r < List.length s)%nat.
Proof.
  intros H. pose proof (skip_ws_length s) as Hl. rewrite H in Hl.
  simpl in Hl. lia.
Qed.

Lemma parse_chars_length (s t rest : jstring) :
  parse_chars s = Some (t, rest) -> (List.length rest < List.length s)%nat.
Proof.
  remember (List.length s) as n eqn:Hn.
  revert s t rest Hn.
  induction n as [n IH] using lt_wf_ind; intros s t rest Hn H.
  destruct s as [|c r]; [discriminate|].
  cbn [parse_chars] in H. simpl in Hn.
  destruct (c =? 34).
  { injection H as _ <-. lia. }
  destruct (c =? 92).
  - destruct r as [|e r1]; [discriminate|].
    destruct (e =? 117).
    + destruct r1 as [|a [|b [|c' [|d r2]]]]; try discriminate.
      destruct (hex4 a b c' d); [|discriminate].
      destruct (parse_chars r2) as [[t' rest']|] eqn:E; [|discriminate].
      injection H as _ <-.
      assert ((List.length rest' < List.length r2)%nat)
        by (eapply (IH (List.length r2)); [simpl in *; lia|reflexivity|exact E]).
      simpl in *. lia.
    + destruct (simple_escape e); [|discriminate].
      destruct (parse_chars r1) as [[t' rest']|] eqn:E; [|discriminate].
      injection H as _ <-.
      assert ((List.length rest' < List.length r1)%nat)
        by (eapply (IH (List.length r1)); [simpl in *; lia|reflexivity|exact E]).
      simpl in *. lia.
  - destruct (c <? 32); [discriminate|].
    destruct (parse_chars r) as [[t' rest']|] eqn:E; [|discriminate].
    injection H as _ <-.
    assert ((List.length rest' < List.length r)%nat)
      by (eapply (IH (List.length r)); [lia|reflexivity|exact E]).
    lia.
Qed.

Lemma take_digits_length (s : jstring) :
  (List.length (snd (take_digits s)) <= List.length s)%nat.
Proof.
  induction s as [|c r IH]; simpl; [lia|].
  destruct (is_digit c); [|simpl; lia].
  destruct (take_digits r); simpl in *; lia.
Qed.

Lemma parse_int_length (s ip rest : jstring) :
  parse_int s = Some (ip, rest) -> (List.length rest < List.length s)%nat.
Proof.
  destruct s as [|c r]; [discriminate|]. unfold parse_int.
  destruct (c =? 48); [intros [= _ <-]; simpl; lia|].
  destruct (is_digit c); [|discriminate].
  pose proof (take_digits_length r) as Hl.
  destruct (take_digits r). intros [= _ <-]. simpl in *. lia.
Qed.

Lemma parse_frac_length (s fp rest : jstring) :
  parse_frac s = Some (fp, rest) -> (List.length rest <= List.length s)%nat.
Proof.
  destruct s as [|c r]; [intros [= _ <-]; simpl; lia|]. unfold parse_frac.
  destruct (c =? 46); [|intros [= _ <-]; simpl; lia].
  pose proof (take_digits_length r) as Hl.
  destruct (take_digits r) as [[|d ds] rest']; [discriminate|].
  intros [= _ <-]. simpl in *. lia.
Qed.

Lemma parse_exp_length (s : jstring) (e : Z) (rest : jstring) :
  parse_exp s = Some (e, rest) -> (List.length rest <= List.length s)%nat.
Proof.
  destruct s as [|c r]; [intros [= _ <-]; simpl; lia|]. unfold parse_exp.
  destruct ((c =? 101) || (c =? 69)); [|intros [= _ <-]; simpl; lia].
  destruct r as [|sg r'].
  - simpl. discriminate.
  - destruct (sg =? 45); [|destruct (sg =? 43)].
    + pose proof (take_digits_length r') as Hl.
      destruct (take_digits r') as [[|d ds] rest']; [discriminate|].
      intros [= _ <-]. simpl in *. lia.
    + pose proof (take_digits_length r') as Hl.
      destruct (take_digits r') as [[|d ds] rest']; [discriminate|].
      intros [= _ <-]. simpl in *. lia.
    + pose proof (take_digits_length (sg :: r')) as Hl.
      destruct (take_digits (sg :: r')) as [[|d ds] rest']; [discriminate|].
      intros [= _ <-]. simpl in *. lia.
Qed.

Lemma parse_number_length (s : jstring) (n : number) (rest : jstring) :
  parse_number s = Some (n, rest) -> (List.length rest < List.length s)%nat.
Proof.
  unfold parse_number.
  set (p := match s with
            | [] => (false, s)
            | c :: r => if c =? 45 then (true, r) else (false, s)
            end).
  assert (Hp : (List.length (snd p) <= List.length s)%nat).
  { subst p. destruct s as [|c r]; [simpl; lia|].
    destruct (c =? 45); simpl; lia. }
  destruct p as [neg s1]. cbn [snd] in Hp.
  destruct (parse_int s1) as [[ip s2]|] eqn:E1; [|discriminate].
  destruct (parse_frac s2) as [[fp s3]|] eqn:E2; [|discriminate].
  destruct (parse_exp s3) as [[e s4]|] eqn:E3; [|discriminate].
  intros [= _ <-].
  apply parse_int_length in E1. apply parse_frac_length in E2.
  apply parse_exp_length in E3. lia.
Qed.

Lemma parse_literal_length (word : string) (v v' : value) (s rest : jstring) :
  lit word <> [] ->
  parse_literal word v s = Parsed v' rest ->
  (List.length rest < List.length s)%nat.
Proof.
  intros Hne. unfold parse_literal.
  destruct (strip_prefix (lit word) s) as [r|] eqn:E; [|discriminate].
  intros [= _ <-]. apply strip_prefix_Some in E. subst s.
  rewrite length_app. destruct (lit word); [contradiction|simpl; lia].
Qed.

Lemma parse_literal_fuel (word : string) (v : value) (s : jstring) :
  parse_literal word v s <> Fuel.
Proof. unfold parse_literal. destruct (strip_prefix _ _); discriminate. Qed.

Ltac done_parsing :=
  split; [discriminate | intros ? ? [= _ <-]; simpl in *; lia].

Ltac syntax_error :=
  split; [discriminate | intros ? ?; discriminate].

(** With fuel above twice the length of the text, the parser never runs
    out of fuel, and what it leaves is shorter than what it was given. *)
Lemma parse_fuel (fuel : nat) :
  (forall s,
      (2 * List.length s + 1 <= fuel)%nat ->
      parse_value fuel s <> Fuel
      /\ forall v rest, parse_value fuel s = Parsed v rest ->
                        (List.length rest < List.length s)%nat)
  /\ (forall s,
         (2 * List.length s + 2 <= fuel)%nat ->
         parse_elements fuel s <> Fuel
         /\ forall vs rest, parse_elements fuel s = Parsed vs rest ->
                            (List.length rest < List.length s)%nat)
  /\ (forall s acc,
         (2 * List.length s + 2 <= fuel)%nat ->
         parse_members fuel s acc <> Fuel
         /\ forall ms rest, parse_members fuel s acc = Parsed ms rest ->
                            (List.length rest < List.length s)%nat).
Proof.
  induction fuel as [|f (IHv & IHe & IHm)].
  { repeat split; intros; lia. }
  split; [|split].
  - (* a value *)
    intros s Hf. cbn [parse_value].
    destruct (skip_ws s) as [|c r] eqn:Es; [syntax_error|].
    pose proof (skip_ws_cons _ _ _ Es) as Hr.
    destruct (c =? 123).
    { destruct (skip_ws r) as [|d r1] eqn:Er; [syntax_error|].
      pose proof (skip_ws_cons _ _ _ Er) as Hr1.
      destruct (d =? 125); [done_parsing|].
      destruct (IHm (d :: r1) []) as [Hfuel Hlen]; [simpl; lia|].
      destruct (parse_members f (d :: r1) []) as [ms rest| |] eqn:E;
        [|syntax_error|contradiction].
      specialize (Hlen ms rest eq_refl). done_parsing. }
    destruct (c =? 91).
    { destruct (skip_ws r) as [|d r1] eqn:Er; [syntax_error|].
      pose proof (skip_ws_cons _ _ _ Er) as Hr1.
      destruct (d =? 93); [done_parsing|].
      destruct (IHe (d :: r1)) as [Hfuel Hlen]; [simpl; lia|].
      destruct (parse_elements f (d :: r1)) as [xs rest| |] eqn:E;
        [|syntax_error|contradiction].
      specialize (Hlen xs rest eq_refl). done_parsing. }
    destruct (c =? 34).
    { destruct (parse_chars r) as [[t rest]|] eqn:E; [|syntax_error].
      apply parse_chars_length in E. done_parsing. }
    assert (Hlit : forall word v,
               lit word <> [] ->
               parse_literal word v (c :: r) <> Fuel
               /\ forall v' rest, parse_literal word v (c :: r) = Parsed v' rest ->
                                  (List.length rest < List.length s)%nat).
    { intros word v Hne. split; [apply parse_literal_fuel|].
      intros v' rest E. apply parse_literal_length in E; [|exact Hne].
      simpl in E. lia. }
    destruct (c =? 116); [apply Hlit; discriminate|].
    destruct (c =? 102); [apply Hlit; discriminate|].
    destruct (c =? 110); [apply Hlit; discriminate|].
    destruct (parse_number (c :: r)) as [[n rest]|] eqn:E; [|syntax_error].
    apply parse_number_length in E. done_parsing.
  - (* the elements of an array *)
    intros s Hf. cbn [parse_elements].
    destruct (IHv s) as [Hfuel Hlen]; [lia|].
    destruct (parse_value f s) as [v rest| |] eqn:E;
      [|syntax_error|contradiction].
    specialize (Hlen v rest eq_refl).
    destruct (skip_ws rest) as [|c r] eqn:Er; [syntax_error|].
    pose proof (skip_ws_cons _ _ _ Er) as Hr.
    destruct (c =? 93); [done_parsing|].
    destruct (c =? 44); [|syntax_error].
    destruct (IHe r) as [Hfuel' Hlen']; [lia|].
    destruct (parse_elements f r) as [vs rest'| |] eqn:E';
      [|syntax_error|contradiction].
    specialize (Hlen' vs rest' eq_refl). done_parsing.
  - (* the members of an object *)
    intros s acc Hf. cbn [parse_members].
    destruct (skip_ws s) as [|c r] eqn:Es; [syntax_error|].
    pose proof (skip_ws_cons _ _ _ Es) as Hr.
    destruct (c =? 34); [|syntax_error].
    destruct (parse_chars r) as [[k r1]|] eqn:Ek; [|syntax_error].
    apply parse_chars_length in Ek.
    destruct (skip_ws r1) as [|d r2] eqn:Er1; [syntax_error|].
    pose proof (skip_ws_cons _ _ _ Er1) as Hr2.
    destruct (d =? 58); [|syntax_error].
    destruct (IHv r2) as [Hfuel Hlen]; [lia|].
    destruct (parse_value f r2) as [v r3| |] eqn:E;
      [|syntax_error|contradiction].
    specialize (Hlen v r3 eq_refl).
    destruct (skip_ws r3) as [|e r4] eqn:Er3; [syntax_error|].
    pose proof (skip_ws_cons _ _ _ Er3) as Hr4.
    destruct (e =? 125); [done_parsing|].
    destruct (e =? 44); [|syntax_error].
    destruct (IHm r4 (define k v acc)) as [Hfuel' Hlen']; [lia|].
    split; [exact Hfuel'|].
    intros ms rest E'. specialize (Hlen' ms rest E'). lia.
Qed.

(** [JSON.parse] never stops for want of fuel: it returns a value or
    reports a syntax error. *)
Lemma parse_never_out_of_fuel (text : jstring) :
  parse_value (fuel_for text) text <> Fuel.
Proof.
  apply (proj1 (parse_fuel (fuel_for text))). unfold fuel_for. lia.
Qed.

End JSONFacts.

(** ** Decimal numerals *)

Lemma digits_value_from (ds : jstring) (a : N) :
  fold_left (fun a d => 10 * a + (d - 48)) ds a
  = a * 10 ^ N.of_nat (List.length ds) + JSON.digits_value ds.
Proof.
  unfold JSON.digits_value. revert a.
  induction ds as [|d ds IH]; intros a.
  - simpl. lia.
  - cbn [fold_left List.length]. rewrite IH, (IH (10 * 0 + (d - 48))).
    rewrite Nat2N.inj_succ, N.pow_succ_r'. ring.
Qed.

Lemma digits_value_cons (r : N) (acc : jstring) :
  JSON.digits_value ((48 + r) :: acc)
  = r * 10 ^ N.of_nat (List.length acc) + JSON.digits_value acc.
Proof.
  unfold JSON.digits_value at 1. cbn [fold_left].
  rewrite digits_value_from.
  now replace (10 * 0 + (48 + r - 48)) with r by lia.
Qed.

Lemma decimal_digits_value (fuel : nat) (n : N) (acc : jstring) :
  n < 2 ^ N.of_nat fuel ->
  JSON.digits_value (decimal_digits fuel n acc)
  = n * 10 ^ N.of_nat (List.length acc) + JSON.digits_value acc.
Proof.
  revert n acc. induction fuel as [|f IH]; intros n acc Hn.
  - simpl in Hn. assert (n = 0) by lia. subst n. simpl. lia.
  - cbn [decimal_digits].
    pose proof (N.div_mod n 10 ltac:(lia)) as Hdm.
    assert (Hq : n / 10 < 2 ^ N.of_nat f).
    { rewrite Nat2N.inj_succ, N.pow_succ_r' in Hn.
      apply N.Div0.div_lt_upper_bound.
      revert Hn. generalize (2 ^ N.of_nat f). intros; lia. }
    revert Hdm Hq. generalize (n / 10) (n mod 10). intros q r Hdm Hq.
    destruct (N.eqb_spec q 0) as [Hz|Hnz].
    + rewrite digits_value_cons. subst q n.
      now replace (10 * 0 + r) with r by lia.
    + rewrite (IH q _ Hq), digits_value_cons. cbn [List.length].
      rewrite Nat2N.inj_succ, N.pow_succ_r'. subst n. ring.
Qed.

(** [decimal n] is the decimal numeral of [n]. *)
Lemma decimal_value (n : N) : JSON.digits_value (decimal n) = n.
Proof.
  unfold decimal. rewrite decimal_digits_value.
  - change (n * 1 + 0 = n). lia.
  - rewrite Nat2N.inj_succ, N2Nat.id.
    destruct n as [|p]; [reflexivity|].
    apply N.log2_spec. reflexivity.
Qed.

(** ** What the regular expression matches *)

Lemma span_space_spec (s ws r : jstring) :
  span_space s = (ws, r) -> s = ws ++ r /\ forallb is_space ws = true.
Proof.
  revert ws r. induction s as [|c s IH]; intros ws r H.
  - injection H as <- <-. split; reflexivity.
  - cbn [span_space] in H. destruct (is_space c) eqn:Hc.
    + destruct (span_space s) as [ws' r'].
      injection H as <- <-. destruct (IH ws' r' eq_refl) as [-> Hws].
      split; [reflexivity|]. cbn [forallb]. now rewrite Hc, Hws.
    + injection H as <- <-. split; reflexivity.
Qed.

(** Group 1 is a code key, and stands at the head of the text. *)
Lemma key_at_spec (s g1 r : jstring) :
  key_at s = Some (g1, r) ->
  exists ws1 ws2,
    g1 = code_key ws1 ws2
    /\ forallb is_space ws1 = true /\ forallb is_space ws2 = true
    /\ s = g1 ++ r.
Proof.
  unfold key_at. intros H.
  destruct (strip_prefix (quoted "code") s) as [r1|] eqn:E1; [|discriminate].
  apply strip_prefix_Some in E1.
  destruct (span_space r1) as [ws1 r2] eqn:E2.
  apply span_space_spec in E2 as [-> Hws1].
  destruct r2 as [|c r3]; [discriminate|].
  destruct (N.eqb_spec c COLON) as [->|]; [|discriminate].
  destruct (span_space r3) as [ws2 r4] eqn:E3.
  apply span_space_spec in E3 as [-> Hws2].
  destruct r4 as [|d r5]; [discriminate|].
  destruct (N.eqb_spec d DQ) as [->|]; [|discriminate].
  injection H as <- <-.
  exists ws1, ws2. repeat split; try assumption.
  rewrite E1. unfold code_key. now rewrite <- !app_assoc.
Qed.

(** Group 2 ends at a closing quote, and at the first one. *)
Lemma lazy_group_spec (s g rest : jstring) :
  lazy_group s = Some (g, rest) ->
  s = g ++ DQ :: rest
  /\ lookahead rest = true
  /\ close_free g (DQ :: rest) = true.
Proof.
  revert g rest. induction s as [|c s IH]; intros g rest H; [discriminate|].
  cbn [lazy_group] in H. destruct (closes (c :: s)) eqn:Hc.
  - injection H as <- <-. unfold closes in Hc.
    apply andb_true_iff in Hc as [Hq Hla]. apply N.eqb_eq in Hq. subst c.
    repeat split. exact Hla.
  - destruct (lazy_group s) as [[g' rest']|]; [|discriminate].
    injection H as <- <-.
    destruct (IH g' rest' eq_refl) as (-> & Hla & Hfree).
    repeat split; [exact Hla|].
    cbn [close_free]. change ((c :: g') ++ DQ :: rest') with (c :: g' ++ DQ :: rest').
    now rewrite Hc, Hfree.
Qed.

Lemma lazy_group_none (s : jstring) :
  lazy_group s = None -> forall n, closes (skipn n s) = false.
Proof.
  induction s as [|c s IH]; intros H n.
  - now destruct n.
  - cbn [lazy_group] in H. destruct (closes (c :: s)) eqn:Hc; [discriminate|].
    destruct (lazy_group s) as [[g rest]|]; [discriminate|].
    destruct n as [|n]; [exact Hc|]. now apply IH.
Qed.

(** The match that [codeMatch] returns lies in the text where its parts
    say: a code key, the captured text, a quote that passes the
    lookahead. *)
Lemma codeMatch_spec (s : jstring) (m : RegExpMatch) :
  codeMatch s = Some m ->
  (exists ws1 ws2,
      group1 m = code_key ws1 ws2
      /\ forallb is_space ws1 = true /\ forallb is_space ws2 = true)
  /\ group3 m = [DQ]
  /\ s = before m ++ group1 m ++ group2 m ++ DQ :: after m
  /\ lookahead (after m) = true
  /\ close_free (group2 m) (DQ :: after m) = true.
Proof.
  revert m. induction s as [|c s IH]; intros m H;
    rewrite codeMatch_unfold in H; unfold match_here in H.
  - discriminate.
  - destruct (key_at (c :: s)) as [[g1 r]|] eqn:Ek.
    + destruct (lazy_group r) as [[g2 rest]|] eqn:El.
      * injection H as <-. cbn [before group1 group2 group3 after].
        apply key_at_spec in Ek as (ws1 & ws2 & Hg1 & H1 & H2 & Hs).
        apply lazy_group_spec in El as (-> & Hla & Hfree).
        split; [now exists ws1, ws2|]. repeat split; assumption.
      * destruct (codeMatch s) as [m'|]; [|discriminate].
        injection H as <-. cbn [before group1 group2 group3 after].
        destruct (IH m' eq_refl) as (Hk & H3 & Hs & Hla & Hfree).
        split; [exact Hk|]. repeat split; try assumption.
        now rewrite Hs at 1.
    + destruct (codeMatch s) as [m'|]; [|discriminate].
      injection H as <-. cbn [before group1 group2 group3 after].
      destruct (IH m' eq_refl) as (Hk & H3 & Hs & Hla & Hfree).
      split; [exact Hk|]. repeat split; try assumption.
      now rewrite Hs at 1.
Qed.

Lemma skipn_past {A} (l r : list A) (n : nat) :
  skipn (List.length l + n) (l ++ r) = skipn n r.
Proof. induction l as [|x l IH]; [reflexivity|exact IH]. Qed.

(** [source.replace(codeMatch[0], repl)] puts the replacement where the
    match is: the matched text does not occur earlier in the source. *)
Lemma replace_first_codeMatch (s repl : jstring) (m : RegExpMatch) :
  codeMatch s = Some m ->
  replace_first (whole m) repl s = before m ++ repl ++ after m.
Proof.
  revert m. induction s as [|c s IH]; intros m H.
  { rewrite codeMatch_unfold in H. discriminate. }
  pose proof (codeMatch_spec _ _ H) as ((ws1 & ws2 & Hg1 & H1 & H2) & H3 & Hs & Hla & _).
  rewrite codeMatch_unfold in H.
  destruct (match_here (c :: s)) as [m0|] eqn:Ehere.
  - injection H as ->.
    unfold match_here in Ehere.
    destruct (key_at (c :: s)) as [[g1 r]|]; [|discriminate].
    destruct (lazy_group r) as [[g2 rest]|]; [|discriminate].
    injection Ehere as <-. unfold whole.
    cbn [before group1 group2 group3 after app] in *.
    rewrite replace_first_unfold, Hs.
    replace (g1 ++ g2 ++ DQ :: rest) with ((g1 ++ g2 ++ [DQ]) ++ rest)
      by now rewrite <- !app_assoc.
    now rewrite strip_prefix_app.
  - destruct (codeMatch s) as [m'|] eqn:Em; [|discriminate].
    injection H as <-. unfold whole.
    cbn [before group1 group2 group3 after] in *.
    rewrite replace_first_unfold.
    destruct (strip_prefix (group1 m' ++ group2 m' ++ group3 m') (c :: s))
      as [rest|] eqn:Esp.
    + exfalso. apply strip_prefix_Some in Esp.
      rewrite H3, <- !app_assoc in Esp. cbn [app] in Esp.
      unfold match_here in Ehere.
      rewrite Esp, Hg1, (key_at_code_key _ _ _ H1 H2) in Ehere.
      destruct (lazy_group (group2 m' ++ DQ :: rest)) as [[g2 r2]|] eqn:El;
        [discriminate|].
      pose proof (lazy_group_none _ El
                    (S (List.length (before m')) + List.length (group2 m'))) as Hno.
      assert (Hskip : skipn (S (List.length (before m')) + List.length (group2 m'))
                        (group2 m' ++ DQ :: rest) = DQ :: after m').
      { assert (E : group1 m' ++ group2 m' ++ DQ :: rest
                    = ((c :: before m') ++ group1 m' ++ group2 m')
                        ++ DQ :: after m')
          by (rewrite <- Esp, Hs, <- !app_assoc; reflexivity).
        apply (f_equal (skipn (List.length (group1 m')
                               + (S (List.length (before m'))
                                  + List.length (group2 m'))))) in E.
        rewrite skipn_past in E. rewrite E.
        replace (List.length (group1 m')
                 + (S (List.length (before m')) + List.length (group2 m')))%nat
          with (List.length ((c :: before m') ++ group1 m' ++ group2 m') + 0)%nat
          by (rewrite !length_app; simpl; lia).
        now rewrite skipn_past. }
      rewrite Hskip in Hno. cbn [closes] in Hno.
      rewrite N.eqb_refl, Hla in Hno. discriminate.
    + specialize (IH m' eq_refl). unfold whole in IH. now rewrite IH.
Qed.

(** ** The escape reversal *)

Lemma replace_pairs_step (a b : cu) (r : jstring) (x y : cu) (t : jstring) :
  replace_pairs a b r (x :: y :: t) =
  if (x =? a) && (y =? b) then r ++ replace_pairs a b r t
  else x :: replace_pairs a b r (y :: t).
Proof. reflexivity. Qed.

Lemma replace_pairs_absent (a b : cu) (r s : jstring) :
  includes s a = false -> replace_pairs a b r s = s.
Proof.
  unfold includes.
  induction s as [|x s IH]; [reflexivity|]; intros H.
  simpl in H; apply orb_false_iff in H as [Hx Hs].
  destruct s as [|y t]; [reflexivity|].
  rewrite replace_pairs_step, N.eqb_sym, Hx. cbn [andb].
  now rewrite (IH Hs).
Qed.

Lemma strip_backslashes_absent (s : jstring) :
  includes s BACKSLASH = false -> strip_backslashes s = s.
Proof.
  unfold includes, strip_backslashes.
  induction s as [|x s IH]; [reflexivity|]; intros H.
  simpl in H; apply orb_false_iff in H as [Hx Hs].
  simpl. rewrite N.eqb_sym, Hx. simpl. now rewrite (IH Hs).
Qed.

Lemma unescape_code_plain (g : jstring) :
  includes g BACKSLASH = false -> unescape_code g = g.
Proof.
  intros H; unfold unescape_code.
  rewrite (replace_pairs_absent _ _ _ _ H), (replace_pairs_absent _ _ _ _ H).
  now apply strip_backslashes_absent.
Qed.

Lemma strip_backslashes_clean (s : jstring) :
  includes (strip_backslashes s) BACKSLASH = false.
Proof.
  unfold includes, strip_backslashes.
  induction s as [|x s IH]; [reflexivity|]; simpl.
  destruct (N.eqb_spec x BACKSLASH) as [->|Hne]; simpl; [exact IH|].
  rewrite IH, orb_false_r. now apply N.eqb_neq, not_eq_sym.
Qed.

Lemma unescape_code_clean (g : jstring) :
  includes (unescape_code g) BACKSLASH = false.
Proof. apply strip_backslashes_clean. Qed.

(** ** The tolerant path *)

(** C1, as the code has it. A source text that is not valid JSON and holds
    one [code] key with a raw payload is recovered by the tolerant path
    when no quote of the payload is followed, after optional whitespace,
    by a comma, a closing bracket or a closing brace, and the text with
    the placeholder in place of the code region is a JSON object or
    array: the [code] field is the payload with the three substitutions
    reversed in order, which is the payload itself when it holds no
    backslash. *)
Theorem tolerant_parse_recovers_payload
  (h : Host) (pre ws1 ws2 payload post : jstring) (cfg : value) :
  JSON.parse (tolerant_source pre ws1 ws2 payload post) = None ->
  forallb is_space ws1 = true ->
  forallb is_space ws2 = true ->
  key_free pre (code_key ws1 ws2 ++ payload ++ DQ :: post) = true ->
  close_free payload (DQ :: post) = true ->
  lookahead post = true ->
  JSON.parse (pre ++ code_placeholder ++ post) = Some cfg ->
  is_object cfg = true ->
  exists config,
    parseConfig h (tolerant_source pre ws1 ws2 payload post) = Ok config
    /\ parsed config = cfg
    /\ config_get h config P_code
       = Ok (VString (strip_backslashes
                        (replace_pairs BACKSLASH DQ [DQ]
                           (replace_pairs BACKSLASH 110 [LF] payload))))
    /\ (includes payload BACKSLASH = false ->
        config_get h config P_code = Ok (VString payload)).
Proof.
  intros Hbad H1 H2 Hkey Hclose Hla Hgood Hobj.
  exists {| parsed := cfg; assigned_code := Some (unescape_code payload) |}.
  split; [|split; [reflexivity|split; [reflexivity|]]].
  - unfold parseConfig. rewrite Hbad. unfold tolerant_source.
    rewrite (codeMatch_shape _ _ _ _ _ H1 H2 Hkey Hclose Hla).
    unfold whole; cbn [group1 group2 group3].
    rewrite (replace_first_shape _ _ _ _ _ _ H1 H2 Hkey).
    now rewrite Hgood, Hobj.
  - intros Hplain. cbn [config_get assigned_code].
    now rewrite (unescape_code_plain _ Hplain).
Qed.

(** The sample source, two lines with two raw quotes, is recovered as it
    is written. *)
Lemma tolerant_parse_recovers_payload_witness :
  JSON.parse Sample.source = None
  /\ includes Sample.payload LF = true
  /\ includes Sample.payload DQ = true
  /\ exists config,
       parseConfig Sample.host Sample.source = Ok config
       /\ parsed config = VObject [(lit "data", VArray [num_of_N 1]);
                                   (lit "code", VString placeholder)]
       /\ config_get Sample.host config P_code
          = Ok (VString (strip_backslashes
                           (replace_pairs BACKSLASH DQ [DQ]
                              (replace_pairs BACKSLASH 110 [LF] Sample.payload))))
       /\ (includes Sample.payload BACKSLASH = false ->
           config_get Sample.host config P_code = Ok (VString Sample.payload)).
Proof.
  split; [vm_compute; reflexivity|].
  split; [vm_compute; reflexivity|].
  split; [vm_compute; reflexivity|].
  apply (tolerant_parse_recovers_payload Sample.host Sample.data_prefix
           [] [SP] Sample.payload (lit "}"));
    vm_compute; reflexivity.
Defined.

(** C1, as the claim states it, fails twice. The first source text is
    not valid JSON and holds one [code] key whose payload has a raw line
    feed and raw quotes, yet the second quote stands before a comma, the
    match ends there, and no configuration is recovered. The second is
    recovered, but its payload holds a backslash, and the [code] field is
    the payload without it. *)
Lemma tolerant_parse_loses_payload :
  (JSON.parse Sample.source_with_comma = None
   /\ includes Sample.payload_with_comma LF = true
   /\ includes Sample.payload_with_comma DQ = true
   /\ includes Sample.payload_with_comma BACKSLASH = false
   /\ option_map group2 (codeMatch Sample.source_with_comma)
      = Some (lit "return f(" ++ [DQ] ++ lit "a")
   /\ parseConfig Sample.host Sample.source_with_comma
      = Err (Error (lit "Failed to parse JSON: Unexpected token")))
  /\ (JSON.parse Sample.source_with_quotes_and_escape = None
      /\ includes Sample.payload_with_quotes_and_escape LF = true
      /\ includes Sample.payload_with_quotes_and_escape DQ = true
      /\ option_map group2 (codeMatch Sample.source_with_quotes_and_escape)
         = Some Sample.payload_with_quotes_and_escape
      /\ (exists config,
             parseConfig Sample.host Sample.source_with_quotes_and_escape
             = Ok config
             /\ config_get Sample.host config P_code
                = Ok (VString
                        (lit "const t = " ++ quoted "a"
                           ++ lit ".replace(/d/g, 'x');" ++ [LF]
                           ++ lit "return {title: t};" ++ [LF])))
      /\ lit "const t = " ++ quoted "a" ++ lit ".replace(/d/g, 'x');" ++ [LF]
           ++ lit "return {title: t};" ++ [LF]
         <> Sample.payload_with_quotes_and_escape).
Proof.
  split.
  - vm_compute. repeat split; reflexivity.
  - repeat split; try (vm_compute; reflexivity).
    + eexists. split; vm_compute; reflexivity.
    + vm_compute. discriminate.
Qed.

(** C9. Whatever the tolerant path recovers, its [code] field is the
    captured text after the three substitutions, and holds no backslash:
    what is left of a regular-expression escape is its letter. *)
Theorem tolerant_code_has_no_backslash
  (h : Host) (source : jstring) (config : PlotConfig) :
  JSON.parse source = None ->
  parseConfig h source = Ok config ->
  exists m code,
    codeMatch source = Some m
    /\ code = strip_backslashes
                (replace_pairs BACKSLASH DQ [DQ]
                   (replace_pairs BACKSLASH 110 [LF] (group2 m)))
    /\ config_get h config P_code = Ok (VString code)
    /\ includes code BACKSLASH = false.
Proof.
  intros Hbad Hok. unfold parseConfig in Hok. rewrite Hbad in Hok.
  destruct (codeMatch source) as [m|]; [|discriminate].
  destruct (JSON.parse (replace_first (whole m) code_placeholder source))
    as [v|]; [|discriminate].
  destruct (is_object v); [|discriminate].
  injection Hok as <-.
  exists m, (unescape_code (group2 m)).
  repeat split. apply unescape_code_clean.
Qed.

(** The sample with a regular-expression escape: the escape loses its
    backslash. *)
Lemma tolerant_code_has_no_backslash_witness :
  JSON.parse Sample.source_with_escape = None
  /\ exists m code,
       codeMatch Sample.source_with_escape = Some m
       /\ code = strip_backslashes
                   (replace_pairs BACKSLASH DQ [DQ]
                      (replace_pairs BACKSLASH 110 [LF] (group2 m)))
       /\ config_get Sample.host
            {| parsed := VObject [(lit "data", VArray [num_of_N 1]);
                                  (lit "code", VString placeholder)];
               assigned_code := Some (lit "return /d+/;") |} P_code
          = Ok (VString code)
       /\ includes code BACKSLASH = false.
Proof.
  split; [vm_compute; reflexivity|].
  apply (tolerant_code_has_no_backslash Sample.host Sample.source_with_escape);
    vm_compute; reflexivity.
Defined.

(** ** Running the callback *)

Ltac run :=
  unfold report, default_plot, plot_into_container, call_user, logMessage,
    container_empty, container_appendChild, container_setText, on_container,
    createDiv, el_setText, emit, try_catch, bind, lift, ret, throw;
  cbn [trace el_nodes container option_map negb].

Lemma quiet_ret {A} (a : A) : quiet (ret a).
Proof. intro w; reflexivity. Qed.

Lemma quiet_throw {A} (e : error) : quiet (@throw A e).
Proof. intro w; reflexivity. Qed.

Lemma quiet_lift {A} (r : result A) : quiet (lift r).
Proof. destruct r; [apply quiet_ret | apply quiet_throw]. Qed.

Lemma quiet_bind {A B} (m : M A) (k : A -> M B) :
  quiet m -> (forall a, quiet (k a)) -> quiet (bind m k).
Proof.
  intros Hm Hk w. unfold bind. specialize (Hm w).
  destruct (m w) as [[a|e| |] w']; cbn [snd] in *; try exact Hm.
  now rewrite (Hk a w').
Qed.

Lemma quiet_try_catch {A} (m : M A) (k : error -> M A) :
  quiet m -> (forall e, quiet (k e)) -> quiet (try_catch m k).
Proof.
  intros Hm Hk w. unfold try_catch. specialize (Hm w).
  destruct (m w) as [[a|e| |] w']; cbn [snd] in *; try exact Hm.
  now rewrite (Hk e w').
Qed.

Lemma fetched_app (t1 t2 : list event) :
  fetched (t1 ++ t2) = fetched t1 ++ fetched t2.
Proof. apply flat_map_app. Qed.

Lemma quiet_log (msg : jstring) (isError : bool) : quiet (logMessage msg isError).
Proof.
  intro w. cbn. rewrite fetched_app. cbn. apply app_nil_r.
Qed.

Create HintDb quiet.
#[local] Hint Resolve quiet_ret quiet_throw quiet_lift quiet_log : quiet.

Ltac quiet_step :=
  match goal with
  | |- quiet (bind _ _) => apply quiet_bind; [|intro]
  | |- quiet (try_catch _ _) => apply quiet_try_catch; [|intro]
  | |- quiet (if ?b then _ else _) => destruct b
  | |- quiet (match ?x with _ => _ end) => destruct x
  | |- quiet _ => solve [auto with quiet]
  end.

Lemma quiet_parse_json_family (h : Host) (text : jstring) :
  quiet (Part000.parse_json_family h text).
Proof. unfold Part000.parse_json_family. repeat quiet_step. Qed.

Lemma quiet_parse_body (h : Host) (ext text : jstring) :
  quiet (Part000.parse_body h ext text).
Proof.
  unfold Part000.parse_body.
  repeat first [apply quiet_parse_json_family | quiet_step].
Qed.

(** ** Data resolution *)

Section Resolution.

Variable h : Host.

(** The resolution of a configuration object whose [dataUrl] is not
    truthy, in both programs: the inline data when truthy, the error
    otherwise; the world stays as it is. *)
Lemma resolve_inline (ms : list (jstring * value)) (code : option jstring)
  (dataUrl : value) (w : world) :
  get_prop h (VObject ms) P_dataUrl = Ok dataUrl ->
  truthy dataUrl = false ->
  let config := {| parsed := VObject ms; assigned_code := code |} in
  let data := match lookup (lit "data") ms with Some d => d | None => VUndefined end in
  Main.resolveData h config w
  = (if truthy data then Ret data else Throw missing_source, w)
  /\ Part000.resolveData h config w
     = (if truthy data then Ret data else Throw missing_source, w).
Proof.
  intros Hurl Hfalsy config data.
  unfold Main.resolveData, Part000.resolveData, config_get.
  cbn [parsed assigned_code config]. rewrite Hurl. run. rewrite Hfalsy.
  cbn [get_prop prop_name]. fold data. run.
  split; destruct (truthy data); reflexivity.
Qed.

(** With a truthy [dataUrl] the resolution is the fetch block. *)
Lemma resolve_fetches (config : PlotConfig) (dataUrl : value) (w : world) :
  config_get h config P_dataUrl = Ok dataUrl ->
  truthy dataUrl = true ->
  Main.resolveData h config w = Main.fetchData h dataUrl w
  /\ Part000.resolveData h config w = Part000.fetchData h dataUrl w.
Proof.
  intros Hurl Htruthy. unfold Main.resolveData, Part000.resolveData.
  rewrite Hurl. run. now rewrite Htruthy.
Qed.

Lemma fetched_requested (u : jstring) (w : world) :
  fetched (trace (requested u w)) = fetched (trace w) ++ [u].
Proof.
  unfold requested; cbn [trace]. rewrite !fetched_app. cbn.
  now rewrite app_nil_r.
Qed.

(** One request is made, whatever comes of it. *)
Lemma fetchData_requests_once (dataUrl : value) (u : jstring) (w : world) :
  to_js_string h dataUrl = Ok u ->
  fetched (trace (snd (Main.fetchData h dataUrl w))) = fetched (trace w) ++ [u]
  /\ fetched (trace (snd (Part000.fetchData h dataUrl w))) = fetched (trace w) ++ [u].
Proof.
  intros Hu. rewrite <- fetched_requested. split.
  - assert (Hq : quiet (try_catch (Main.receive h (fetch h u))
                                    (fun e => throw (fetch_failure e)))).
    { unfold Main.receive. repeat quiet_step. }
    specialize (Hq (requested u w)).
    unfold Main.fetchData. rewrite Hu. unfold try_catch in *. run. exact Hq.
  - assert (Hq : quiet (try_catch (Part000.receive h u (fetch h u))
                                    (fun e => throw (fetch_failure e)))).
    { unfold Part000.receive. repeat first [apply quiet_parse_body | quiet_step]. }
    specialize (Hq (requested u w)).
    unfold Part000.fetchData. rewrite Hu. unfold try_catch in *. run. exact Hq.
Qed.

(** Whatever the fetch block throws is an error of the fetch. *)
Lemma fetchData_throws_fetch_failure (dataUrl : value) (w : world) (e : error) :
  (fst (Main.fetchData h dataUrl w) = Throw e ->
   exists cause, e = fetch_failure cause)
  /\ (fst (Part000.fetchData h dataUrl w) = Throw e ->
      exists cause, e = fetch_failure cause).
Proof.
  unfold Main.fetchData, Part000.fetchData, try_catch. split.
  - destruct (bind _ _ w) as [[v|cause| |] w']; cbn; try discriminate.
    intros [= <-]. now exists cause.
  - destruct (bind _ _ w) as [[v|cause| |] w']; cbn; try discriminate.
    intros [= <-]. now exists cause.
Qed.

(** A failed fetch is rethrown by the fetch block. *)
Lemma fetchData_rejected (dataUrl : value) (u : jstring) (e : error) (w : world) :
  to_js_string h dataUrl = Ok u ->
  fetch h u = FetchRejected e ->
  Main.fetchData h dataUrl w = (Throw (fetch_failure e), requested u w)
  /\ Part000.fetchData h dataUrl w = (Throw (fetch_failure e), requested u w).
Proof.
  intros Hu Hf. unfold Main.fetchData, Part000.fetchData.
  rewrite Hu. run. rewrite Hf. split; reflexivity.
Qed.

Lemma fetchData_not_ok (dataUrl : value) (u : jstring) (st : N)
  (body : result jstring) (w : world) :
  to_js_string h dataUrl = Ok u ->
  fetch h u = FetchResponded st body ->
  response_ok st = false ->
  Main.fetchData h dataUrl w
  = (Throw (fetch_failure (http_error st)), requested u w)
  /\ Part000.fetchData h dataUrl w
     = (Throw (fetch_failure (http_error st)), requested u w).
Proof.
  intros Hu Hf Hok. unfold Main.fetchData, Part000.fetchData.
  rewrite Hu. run. rewrite Hf. cbn [Main.receive Part000.receive]. rewrite Hok. split; reflexivity.
Qed.

End Resolution.

(** A run of the callback that stops at data resolution. *)
Lemma processor_resolution_fails (h : Host) (source : jstring)
  (config : PlotConfig) (e : error) (w w' : world) :
  parseConfig h source = Ok config ->
  (Main.resolveData h config w = (Throw e, w') ->
   Main.processor h source w = (Ret tt, reported e w'))
  /\ (Part000.resolveData h config w = (Throw e, w') ->
      Part000.processor h source w = (Ret tt, reported e w')).
Proof.
  intros Hparse. split; intros Hres.
  - unfold Main.processor. rewrite Hparse. run. now rewrite Hres.
  - unfold Part000.processor. rewrite Hparse. run. now rewrite Hres.
Qed.

(** C3. A configuration object with neither [data] nor [dataUrl] fails in
    resolution with the error that says one of them is required; the
    world is left as it was, so nothing is fetched, and a run of the
    callback on such a configuration ends with the error text in the
    block and no request made. *)
Theorem missing_source_is_an_error
  (h : Host) (ms : list (jstring * value)) (code : option jstring) (w : world) :
  lookup (lit "data") ms = None ->
  lookup (lit "dataUrl") ms = None ->
  let config := {| parsed := VObject ms; assigned_code := code |} in
  (Main.resolveData h config w = (Throw missing_source, w)
   /\ Part000.resolveData h config w = (Throw missing_source, w))
  /\ message missing_source = lit "Either data or dataUrl must be provided"
  /\ forall source,
       parseConfig h source = Ok config ->
       (Main.processor h source fresh_world
        = (Ret tt, reported missing_source fresh_world)
        /\ Part000.processor h source fresh_world
           = (Ret tt, reported missing_source fresh_world))
       /\ fetched (trace (reported missing_source fresh_world)) = [].
Proof.
  intros Hdata Hurl config.
  assert (Hres : forall w0,
             Main.resolveData h config w0 = (Throw missing_source, w0)
             /\ Part000.resolveData h config w0 = (Throw missing_source, w0)).
  { intro w0.
    destruct (resolve_inline h ms code VUndefined w0) as [Hm Hp].
    - cbn [get_prop prop_name]. now rewrite Hurl.
    - reflexivity.
    - rewrite Hdata in Hm, Hp. split; assumption. }
  split; [apply Hres|]. split; [reflexivity|].
  intros source Hparse. split; [|reflexivity].
  destruct (processor_resolution_fails h source config missing_source
              fresh_world fresh_world Hparse) as [Hm Hp].
  split; [apply Hm | apply Hp]; apply Hres.
Qed.

(** C10. A [dataUrl] that is the empty string counts as absent: the
    inline array is the dataset when there is one, the error that a
    source is required is raised when there is no [data]; in both cases
    the world is left as it was, so no request is made. *)
Theorem empty_dataUrl_counts_as_absent
  (h : Host) (ms : list (jstring * value)) (code : option jstring) (w : world) :
  lookup (lit "dataUrl") ms = Some (VString []) ->
  let config := {| parsed := VObject ms; assigned_code := code |} in
  (forall rows,
      lookup (lit "data") ms = Some (VArray rows) ->
      Main.resolveData h config w = (Ret (VArray rows), w)
      /\ Part000.resolveData h config w = (Ret (VArray rows), w))
  /\ (lookup (lit "data") ms = None ->
      Main.resolveData h config w = (Throw missing_source, w)
      /\ Part000.resolveData h config w = (Throw missing_source, w))
  /\ fetched (trace (snd (Main.resolveData h config w))) = fetched (trace w)
  /\ fetched (trace (snd (Part000.resolveData h config w))) = fetched (trace w).
Proof.
  intros Hurl config.
  destruct (resolve_inline h ms code (VString []) w) as [Hm Hp].
  { cbn [get_prop prop_name]. now rewrite Hurl. }
  { reflexivity. }
  fold config in Hm, Hp.
  split; [|split; [|split]].
  - intros rows Hdata. rewrite Hdata in Hm, Hp. split; assumption.
  - intros Hdata. rewrite Hdata in Hm, Hp. split; assumption.
  - now rewrite Hm.
  - now rewrite Hp.
Qed.

(** C6. With a [dataUrl] that is a non-empty string, resolution is the
    fetch of that URL and nothing else of the configuration matters: two
    configurations with the same [dataUrl] resolve alike, whatever their
    [data]. One request is made. A rejected fetch and a response without
    a success status end resolution with the error of the fetch, never
    with the inline data; and every error of the resolution is an error
    of the fetch. *)
Theorem dataUrl_takes_precedence
  (h : Host) (ms ms' : list (jstring * value)) (code code' : option jstring)
  (u : jstring) (w : world) :
  u <> [] ->
  lookup (lit "dataUrl") ms = Some (VString u) ->
  lookup (lit "dataUrl") ms' = Some (VString u) ->
  let config := {| parsed := VObject ms; assigned_code := code |} in
  let config' := {| parsed := VObject ms'; assigned_code := code' |} in
  (Main.resolveData h config w = Main.resolveData h config' w
   /\ Part000.resolveData h config w = Part000.resolveData h config' w)
  /\ (fetched (trace (snd (Main.resolveData h config w))) = fetched (trace w) ++ [u]
      /\ fetched (trace (snd (Part000.resolveData h config w)))
         = fetched (trace w) ++ [u])
  /\ (forall e,
        fetch h u = FetchRejected e ->
        fst (Main.resolveData h config w) = Throw (fetch_failure e)
        /\ fst (Part000.resolveData h config w) = Throw (fetch_failure e))
  /\ (forall status body,
        fetch h u = FetchResponded status body ->
        response_ok status = false ->
        fst (Main.resolveData h config w)
        = Throw (fetch_failure (http_error status))
        /\ fst (Part000.resolveData h config w)
           = Throw (fetch_failure (http_error status)))
  /\ (forall e,
        fst (Main.resolveData h config w) = Throw e
        \/ fst (Part000.resolveData h config w) = Throw e ->
        exists cause, e = fetch_failure cause).
Proof.
  intros Hne Hurl Hurl' config config'.
  assert (Htruthy : truthy (VString u) = true) by (destruct u; [contradiction|reflexivity]).
  destruct (resolve_fetches h config (VString u) w) as [Hm Hp];
    [cbn; now rewrite Hurl | exact Htruthy |].
  destruct (resolve_fetches h config' (VString u) w) as [Hm' Hp'];
    [cbn; now rewrite Hurl' | exact Htruthy |].
  rewrite Hm, Hp, Hm', Hp'.
  split; [split; reflexivity|].
  split; [apply fetchData_requests_once; reflexivity|].
  split; [|split].
  - intros e Hf.
    destruct (fetchData_rejected h (VString u) u e w eq_refl Hf) as [-> ->].
    split; reflexivity.
  - intros st body Hf Hok.
    destruct (fetchData_not_ok h (VString u) u st body w eq_refl Hf Hok) as [-> ->].
    split; reflexivity.
  - intros e [He|He];
      [ apply (proj1 (fetchData_throws_fetch_failure h (VString u) w e))
      | apply (proj2 (fetchData_throws_fetch_failure h (VString u) w e)) ];
      exact He.
Qed.

(** C8. A response without a success status ends resolution with the
    error of the fetch, whose message ends with the status in decimal;
    the run of the callback ends with the block holding one text node,
    the prefix followed by that message, and no plot container. *)
Theorem http_error_is_reported
  (h : Host) (source : jstring) (config : PlotConfig) (dataUrl : value)
  (u : jstring) (status : N) (body : result jstring) :
  parseConfig h source = Ok config ->
  config_get h config P_dataUrl = Ok dataUrl ->
  truthy dataUrl = true ->
  to_js_string h dataUrl = Ok u ->
  fetch h u = FetchResponded status body ->
  response_ok status = false ->
  let e := Error (lit "Failed to fetch data from URL: "
                    ++ lit "HTTP error! status: " ++ decimal status) in
  (forall w,
      Part000.resolveData h config w = (Throw e, requested u w)
      /\ Main.resolveData h config w = (Throw e, requested u w))
  /\ (Part000.processor h source fresh_world
      = (Ret tt, reported e (requested u fresh_world))
      /\ Main.processor h source fresh_world
         = (Ret tt, reported e (requested u fresh_world)))
  /\ el_children (reported e (requested u fresh_world))
     = [NText (lit "Error rendering plot: " ++ message e)].
Proof.
  intros Hparse Hurl Htruthy Hu Hf Hok e.
  assert (Hres : forall w,
             Part000.resolveData h config w = (Throw e, requested u w)
             /\ Main.resolveData h config w = (Throw e, requested u w)).
  { intro w.
    destruct (resolve_fetches h config dataUrl w Hurl Htruthy) as [-> ->].
    destruct (fetchData_not_ok h dataUrl u status body w Hu Hf Hok) as [-> ->].
    split; reflexivity. }
  split; [exact Hres|]. split; [|reflexivity].
  destruct (processor_resolution_fails h source config e fresh_world
              (requested u fresh_world) Hparse) as [Hm Hp].
  split; [apply Hp | apply Hm]; apply Hres.
Qed.

(** The empty object. *)
Lemma missing_source_is_an_error_witness :
  parseConfig Sample.host (lit "{}") = Ok (plain_config [])
  /\ Main.processor Sample.host (lit "{}") fresh_world
     = (Ret tt, reported missing_source fresh_world)
  /\ Part000.processor Sample.host (lit "{}") fresh_world
     = (Ret tt, reported missing_source fresh_world).
Proof.
  split; [vm_compute; reflexivity|].
  destruct (missing_source_is_an_error Sample.host [] None fresh_world
              eq_refl eq_refl) as (_ & _ & H).
  apply (H (lit "{}")). vm_compute; reflexivity.
Defined.

(** An empty [dataUrl] beside inline data. *)
Lemma empty_dataUrl_counts_as_absent_witness :
  parseConfig Sample.host Sample.empty_url_source
  = Ok (plain_config [(lit "dataUrl", VString []); (lit "data", VArray [num_of_N 7])])
  /\ Main.resolveData Sample.host
       (plain_config [(lit "dataUrl", VString []); (lit "data", VArray [num_of_N 7])])
       fresh_world
     = (Ret (VArray [num_of_N 7]), fresh_world)
  /\ Part000.resolveData Sample.host
       (plain_config [(lit "dataUrl", VString []); (lit "data", VArray [num_of_N 7])])
       fresh_world
     = (Ret (VArray [num_of_N 7]), fresh_world).
Proof.
  split; [vm_compute; reflexivity|].
  destruct (empty_dataUrl_counts_as_absent Sample.host
              [(lit "dataUrl", VString []); (lit "data", VArray [num_of_N 7])]
              None fresh_world eq_refl) as (H & _).
  apply (H [num_of_N 7] eq_refl).
Defined.

(** A [dataUrl] beside inline data resolves as the same [dataUrl] alone. *)
Lemma dataUrl_takes_precedence_witness :
  parseConfig Sample.host Sample.both_source
  = Ok (plain_config [(lit "dataUrl", VString Sample.url);
                      (lit "data", VArray [num_of_N 7])])
  /\ Main.resolveData Sample.host
       (plain_config [(lit "dataUrl", VString Sample.url);
                      (lit "data", VArray [num_of_N 7])]) fresh_world
     = Main.resolveData Sample.host
         (plain_config [(lit "dataUrl", VString Sample.url)]) fresh_world
  /\ Part000.resolveData Sample.host
       (plain_config [(lit "dataUrl", VString Sample.url);
                      (lit "data", VArray [num_of_N 7])]) fresh_world
     = Part000.resolveData Sample.host
         (plain_config [(lit "dataUrl", VString Sample.url)]) fresh_world.
Proof.
  split; [vm_compute; reflexivity|].
  refine (proj1 (dataUrl_takes_precedence Sample.host
           [(lit "dataUrl", VString Sample.url); (lit "data", VArray [num_of_N 7])]
           [(lit "dataUrl", VString Sample.url)]
           None None Sample.url fresh_world _ eq_refl eq_refl)).
  discriminate.
Defined.

(** A server that answers 404. *)
Lemma http_error_is_reported_witness :
  el_children (snd (Part000.processor Sample.not_found_host Sample.url_source
                      fresh_world))
  = [NText (lit "Error rendering plot: Failed to fetch data from URL: HTTP error! status: 404")]
  /\ Part000.processor Sample.not_found_host Sample.url_source fresh_world
     = (Ret tt,
        reported (Error (lit "Failed to fetch data from URL: "
                           ++ lit "HTTP error! status: " ++ decimal 404))
          (requested Sample.url fresh_world))
  /\ Main.processor Sample.not_found_host Sample.url_source fresh_world
     = (Ret tt,
        reported (Error (lit "Failed to fetch data from URL: "
                           ++ lit "HTTP error! status: " ++ decimal 404))
          (requested Sample.url fresh_world)).
Proof.
  split; [vm_compute; reflexivity|].
  refine (proj1 (proj2 (http_error_is_reported Sample.not_found_host
           Sample.url_source
           (plain_config [(lit "dataUrl", VString Sample.url)])
           (VString Sample.url) Sample.url 404 (Ok (lit "Not Found"))
           _ eq_refl eq_refl eq_refl eq_refl eq_refl))).
  vm_compute; reflexivity.
Defined.

(** ** The format of a fetched body *)

Lemma split_not_nil (sep : cu) (s : jstring) : Part000.split sep s <> [].
Proof.
  destruct s as [|c r]; simpl; [discriminate|].
  destruct (c =? sep); [discriminate|].
  destruct (Part000.split sep r); discriminate.
Qed.

Lemma split_plain (sep : cu) (s : jstring) :
  includes s sep = false -> Part000.split sep s = [s].
Proof.
  unfold includes. induction s as [|c r IH]; [reflexivity|]; intros H.
  cbn [existsb] in H. apply orb_false_iff in H as [Hc Hr].
  cbn [Part000.split]. rewrite N.eqb_sym, Hc. now rewrite (IH Hr).
Qed.

(** The segments of a text with a separator: those before it, then those
    of what follows it. *)
Lemma split_at_sep (sep : cu) (p s : jstring) :
  exists l, l <> [] /\ Part000.split sep (p ++ sep :: s) = l ++ Part000.split sep s.
Proof.
  induction p as [|c p (l & Hl & IH)].
  - exists [[]]. split; [discriminate|]. simpl. now rewrite N.eqb_refl.
  - change ((c :: p) ++ sep :: s) with (c :: (p ++ sep :: s)).
    cbn [Part000.split]. rewrite IH.
    destruct (c =? sep).
    + exists ([] :: l). split; [discriminate|reflexivity].
    + destruct l as [|x l]; [contradiction|].
      exists ((c :: x) :: l). split; [discriminate|reflexivity].
Qed.

Lemma last_app_right {A} (l l' : list A) (d : A) :
  l' <> [] -> last (l ++ l') d = last l' d.
Proof.
  intros Hne. induction l as [|x l IH]; [reflexivity|].
  cbn [app last]. rewrite IH.
  destruct (l ++ l') eqn:E; [|reflexivity].
  apply app_eq_nil in E as [_ ->]. contradiction.
Qed.

(** The extension of a path that ends with a dot and a lower-case word
    without dots is that word. *)
Lemma extension_of_suffix (p word : jstring) :
  includes word DOT = false ->
  Part000.toLowerCase word = word ->
  Part000.extension (p ++ DOT :: word) = word.
Proof.
  intros Hplain Hlower. unfold Part000.extension, Part000.pop.
  destruct (split_at_sep DOT p word) as (l & _ & ->).
  rewrite last_app_right by apply split_not_nil.
  now rewrite (split_plain _ _ Hplain).
Qed.

(** C5. A successful fetch from a URL whose path ends in [.csv] resolves
    to the rows that [d3.csvParse] with [d3.autoType] reads from the body;
    and the library, as modelled, reads the body of the example as two
    records whose fields are the numbers 1, 2 and 3, 4. *)
Theorem csv_body_is_parsed_with_type_inference
  (h : Host) (config : PlotConfig) (dataUrl : value) (u p text : jstring)
  (status : N) (w : world) :
  config_get h config P_dataUrl = Ok dataUrl ->
  truthy dataUrl = true ->
  to_js_string h dataUrl = Ok u ->
  fetch h u = FetchResponded status (Ok text) ->
  response_ok status = true ->
  URL_pathname h u = Ok (p ++ lit ".csv") ->
  Part000.resolveData h config w
  = (Ret (VArray (d3_csvParse h text)),
     logged false (lit "Successfully fetched data: " ++ lit "GeoJSON/TopoJSON")
       (requested u w))
  /\ D3.parse COMMA Sample.csv_body = Sample.csv_records.
Proof.
  intros Hurl Htruthy Hu Hf Hok Hpath. split; [|vm_compute; reflexivity].
  destruct (resolve_fetches h config dataUrl w Hurl Htruthy) as [_ ->].
  unfold Part000.fetchData. rewrite Hu. run. rewrite Hf.
  cbn [Part000.receive]. rewrite Hok, Hpath. run.
  change (lit ".csv") with (DOT :: lit "csv").
  rewrite (extension_of_suffix p (lit "csv") eq_refl eq_refl).
  reflexivity.
Qed.

(** The body of the example, served under a path that ends in [.csv]. *)
Lemma csv_body_is_parsed_with_type_inference_witness :
  parseConfig Sample.csv_host Sample.url_source
  = Ok (plain_config [(lit "dataUrl", VString Sample.url)])
  /\ Part000.resolveData Sample.csv_host
       (plain_config [(lit "dataUrl", VString Sample.url)]) fresh_world
     = (Ret (VArray Sample.csv_records),
        logged false (lit "Successfully fetched data: " ++ lit "GeoJSON/TopoJSON")
          (requested Sample.url fresh_world)).
Proof.
  split; [vm_compute; reflexivity|].
  refine (proj1 (csv_body_is_parsed_with_type_inference Sample.csv_host
           (plain_config [(lit "dataUrl", VString Sample.url)])
           (VString Sample.url) Sample.url (lit "/data") Sample.csv_body 200
           fresh_world eq_refl eq_refl eq_refl eq_refl eq_refl _)).
  vm_compute; reflexivity.
Defined.

(** ** Rendering *)

Lemma functions_built_app (t1 t2 : list event) :
  functions_built (t1 ++ t2) = functions_built t1 ++ functions_built t2.
Proof. apply flat_map_app. Qed.

Lemma calls_made_app (t1 t2 : list event) :
  calls_made (t1 ++ t2) = calls_made t1 ++ calls_made t2.
Proof. apply flat_map_app. Qed.

Lemma specs_plotted_app (t1 t2 : list event) :
  specs_plotted (t1 ++ t2) = specs_plotted t1 ++ specs_plotted t2.
Proof. apply flat_map_app. Qed.


(** C7. Without a truthy [code], and with the dot mark that [Plot.dot]
    makes of the dataset, the specification passed to [Plot.plot] is the
    default one: width 640, height 400, margin 40 and that one mark; when
    [Plot.plot] returns an element, it is the only child of the
    container. *)
Theorem default_plot_is_synthesized
  (h : Host) (config : PlotConfig) (code plotData mark : value) (w : world) :
  config_get h config P_code = Ok code ->
  truthy code = false ->
  Plot_dot h plotData = Ok mark ->
  let spec := VObject [ (lit "width", num_of_N 640);
                        (lit "height", num_of_N 400);
                        (lit "margin", num_of_N 40);
                        (lit "marks", VArray [mark]) ] in
  (specs_plotted (trace (snd (Part000.render h config plotData w)))
   = specs_plotted (trace w) ++ [spec]
   /\ specs_plotted (trace (snd (Main.render h config plotData w)))
      = specs_plotted (trace w) ++ [spec])
  /\ forall g,
       Plot_plot h spec = Ok (Some g) ->
       Part000.render h config plotData w
       = (Ret tt, {| trace := (trace w ++ [PlotDot plotData]) ++ [PlotPlot spec];
                     el_nodes := el_nodes w;
                     container := Some [NGraphic g] |})
       /\ Main.render h config plotData w
          = (Ret tt, {| trace := (trace w ++ [PlotDot plotData]) ++ [PlotPlot spec];
                        el_nodes := el_nodes w;
                        container := Some [NGraphic g] |}).
Proof.
  intros Hcode Hfalsy Hdot spec.
  unfold Part000.render, Main.render. run. rewrite Hcode, Hfalsy. run.
  rewrite Hdot. fold spec. change (default_spec mark) with spec.
  split.
  - destruct (Plot_plot h spec) as [[g|]|e]; cbn [snd trace];
      rewrite !specs_plotted_app; cbn [specs_plotted flat_map app];
      rewrite app_nil_r; split; reflexivity.
  - intros g Hplot. rewrite Hplot. split; reflexivity.
Qed.

(** Three inline records and no code. *)
Lemma default_plot_is_synthesized_witness :
  parseConfig Sample.host Sample.three_source
  = Ok (plain_config [(lit "data", Sample.three_records)])
  /\ Part000.render Sample.host (plain_config [(lit "data", Sample.three_records)])
       Sample.three_records fresh_world
     = (Ret tt,
        {| trace := [PlotDot Sample.three_records;
                     PlotPlot (VObject [ (lit "width", num_of_N 640);
                                         (lit "height", num_of_N 400);
                                         (lit "margin", num_of_N 40);
                                         (lit "marks", VArray [VHost 1]) ])];
           el_nodes := [];
           container := Some [NGraphic 2] |}).
Proof.
  split; [vm_compute; reflexivity|].
  refine (proj1 (proj2 (default_plot_is_synthesized Sample.host
           (plain_config [(lit "data", Sample.three_records)])
           VUndefined Sample.three_records (VHost 1) fresh_world
           eq_refl eq_refl eq_refl) 2 eq_refl)).
Defined.






(** ** Runs on sample inputs *)

Example json_accepts_an_object :
  JSON.parse (lit "{ " ++ quoted "a" ++ lit " : [1, -2.50e1, true, null, {}] }")
  = Some (VObject [(lit "a",
                    VArray [ VNumber (Num false 1 0); VNumber (Num true 250 (-1));
                             VBool true; VNull; VObject [] ])]).
Proof. vm_compute. reflexivity. Qed.

Example json_rejects_a_raw_line_feed :
  JSON.parse ([DQ] ++ lit "a" ++ [LF] ++ lit "b" ++ [DQ]) = None.
Proof. vm_compute. reflexivity. Qed.

Example json_reads_a_line_feed_escape :
  JSON.parse (quoted "a\nb") = Some (VString (lit "a" ++ [LF] ++ lit "b")).
Proof. vm_compute. reflexivity. Qed.

Example json_rejects_a_trailing_comma : JSON.parse (lit "[1,]") = None.
Proof. vm_compute. reflexivity. Qed.

Example json_last_duplicate_wins :
  JSON.parse (lit "{" ++ quoted "a" ++ lit ":1," ++ quoted "a" ++ lit ":2}")
  = Some (VObject [(lit "a", num_of_N 2)]).
Proof. vm_compute. reflexivity. Qed.

Example tiny_number_is_falsy :
  option_map truthy (JSON.parse (lit "1e-400")) = Some false
  /\ option_map truthy (JSON.parse (lit "1e-300")) = Some true.
Proof. vm_compute. split; reflexivity. Qed.

Example readme_is_not_json : JSON.parse Sample.readme_source = None.
Proof. vm_compute. reflexivity. Qed.

Example readme_is_recovered :
  parseConfig Sample.host Sample.readme_source
  = Ok {| parsed := VObject [(lit "data", Sample.readme_records);
                             (lit "code", VString placeholder)];
          assigned_code := Some Sample.readme_payload |}.
Proof. vm_compute. reflexivity. Qed.

Example readme_is_plotted :
  Part000.processor Sample.plotting_host Sample.readme_source fresh_world
  = (Ret tt,
     {| trace :=
          [ NewFunction Part000.plot_params (Part000.plot_body Sample.readme_payload);
            NewFunction Part000.user_params (Part000.user_body Sample.readme_payload);
            Call [VLib LibPlot; VLib LibD3; Sample.readme_records; VLib LibTopojson];
            PlotPlot (VObject [(lit "marks", VArray [])]) ];
        el_nodes := [];
        container := Some [NGraphic 2] |}).
Proof. vm_compute. reflexivity. Qed.

Example escaped_quote_before_comma_still_closes :
  option_map group2
    (codeMatch (lit "{" ++ quoted "code" ++ lit ":" ++ [DQ]
                  ++ lit "f(" ++ [BACKSLASH; DQ] ++ lit "a" ++ [BACKSLASH; DQ]
                  ++ lit ", 1)" ++ [DQ] ++ lit "}"))
  = Some (lit "f(" ++ [BACKSLASH; DQ] ++ lit "a" ++ [BACKSLASH]).
Proof. vm_compute. reflexivity. Qed.

Example escapes_are_reversed_in_order :
  unescape_code (lit "a\nb" ++ [BACKSLASH; DQ] ++ lit "c\d\te")
  = lit "a" ++ [LF] ++ lit "b" ++ [DQ] ++ lit "cdte".
Proof. vm_compute. reflexivity. Qed.

Example extension_ignores_case_and_directories :
  Part000.extension (lit "/a.b/data.CSV") = lit "csv"
  /\ Part000.extension (lit "/data") = lit "/data"
  /\ Part000.format_of (lit "/data") = Part000.Unknown.
Proof. vm_compute. repeat split; reflexivity. Qed.

Example autotype_infers_per_field :
  List.map D3.infer [lit "1"; lit " 2.5 "; lit "-1e3"; lit "0x1F"; lit "";
                     lit "true"; lit "NaN"; lit "2020-01-02"; lit "abc"]
  = [ VNumber (Num false 1 0); VNumber (Num false 25 (-1));
      VNumber (Num true 1 3); VNumber (Num false 31 0); VNull;
      VBool true; VNumber NaN; VDate (lit "2020-01-02"); VString (lit "abc") ].
Proof. vm_compute. reflexivity. Qed.

Example backtick_leaves_the_template :
  fst (Part000.render Sample.host
         (plain_config [(lit "code", VString (lit "return `x`"))])
         VNull fresh_world)
  = Escapes.
Proof. vm_compute. reflexivity. Qed.

Example null_configuration_is_a_type_error :
  el_children (snd (Main.processor Sample.host (lit "null") fresh_world))
  = [NText (lit "Error rendering plot: Cannot read properties of null")].
Proof. vm_compute. reflexivity. Qed.

(** * Further properties of the programs *)

(** ** The match of the tolerant path *)

Lemma close_free_skipn (g tail : jstring) :
  close_free g tail = true ->
  forall n, (n < List.length g)%nat -> closes (skipn n (g ++ tail)) = false.
Proof.
  induction g as [|c g IH]; intros H n Hn; [simpl in Hn; lia|].
  cbn [close_free] in H. apply andb_true_iff in H as [Hc Hg].
  destruct n as [|n].
  - now apply negb_true_iff in Hc.
  - apply IH; [exact Hg|simpl in Hn; lia].
Qed.

Lemma match_here_before (s : jstring) (m : RegExpMatch) :
  match_here s = Some m -> before m = [].
Proof.
  unfold match_here. destruct (key_at s) as [[g1 r]|]; [|discriminate].
  destruct (lazy_group r) as [[g2 rest]|]; [|discriminate].
  now intros [= <-].
Qed.

Lemma codeMatch_leftmost (s : jstring) (m : RegExpMatch) :
  codeMatch s = Some m ->
  forall n, (n < List.length (before m))%nat -> match_here (skipn n s) = None.
Proof.
  revert m. induction s as [|c s IH]; intros m H n Hn;
    rewrite codeMatch_unfold in H.
  - discriminate.
  - destruct (match_here (c :: s)) as [m0|] eqn:Ehere.
    + injection H as <-. rewrite (match_here_before _ _ Ehere) in Hn.
      simpl in Hn. lia.
    + destruct (codeMatch s) as [m'|]; [|discriminate].
      injection H as <-. cbn [before] in Hn.
      destruct n as [|n]; [exact Ehere|].
      apply (IH m' eq_refl). simpl in Hn. lia.
Qed.

Lemma codeMatch_none (s : jstring) :
  (forall n, match_here (skipn n s) = None) -> codeMatch s = None.
Proof.
  induction s as [|c s IH]; intros H; rewrite codeMatch_unfold;
    pose proof (H 0%nat) as H0; cbn [skipn] in H0; rewrite H0.
  - reflexivity.
  - rewrite IH; [reflexivity|]. intro n. exact (H (S n)).
Qed.

(** X1. The match the regular expression of the tolerant path returns is
    the leftmost one and its capture the shortest one: the source is the
    text before the match, the match and the text after it; group 1 is a
    code key with whitespace only around its colon; group 3 is one quote
    and what follows it passes the lookahead; no quote inside the capture
    passes the lookahead; the expression matches at no earlier position. *)
Theorem code_match_is_leftmost_and_lazy (s : jstring) (m : RegExpMatch) :
  codeMatch s = Some m ->
  s = before m ++ whole m ++ after m
  /\ (exists ws1 ws2,
         group1 m = code_key ws1 ws2
         /\ forallb is_space ws1 = true /\ forallb is_space ws2 = true)
  /\ group3 m = [DQ]
  /\ lookahead (after m) = true
  /\ (forall n, (n < List.length (group2 m))%nat ->
                closes (skipn n (group2 m ++ DQ :: after m)) = false)
  /\ (forall n, (n < List.length (before m))%nat ->
                match_here (skipn n s) = None).
Proof.
  intros H.
  destruct (codeMatch_spec _ _ H) as (Hkey & H3 & Hs & Hla & Hfree).
  split.
  { unfold whole. rewrite H3, <- !app_assoc. exact Hs. }
  split; [exact Hkey|]. split; [exact H3|]. split; [exact Hla|].
  split; [now apply close_free_skipn | now apply codeMatch_leftmost].
Qed.

Lemma code_match_is_leftmost_and_lazy_witness :
  codeMatch Sample.source
  = Some {| before := Sample.data_prefix; group1 := code_key [] [SP];
            group2 := Sample.payload; group3 := [DQ]; after := lit "}" |}
  /\ match_here (skipn 3 Sample.source) = None
  /\ closes (skipn 11 (Sample.payload ++ DQ :: lit "}")) = false.
Proof.
  assert (E : codeMatch Sample.source
              = Some {| before := Sample.data_prefix; group1 := code_key [] [SP];
                        group2 := Sample.payload; group3 := [DQ];
                        after := lit "}" |}) by (vm_compute; reflexivity).
  destruct (code_match_is_leftmost_and_lazy _ _ E) as (_ & _ & _ & _ & Hl & Hb).
  split; [exact E|]. split.
  - apply Hb. vm_compute. lia.
  - apply (Hl 11%nat). vm_compute. lia.
Defined.

(** X2. The second parse of the tolerant path reads the source with the
    placeholder member in the place of the match, whatever stands before
    it: [source.replace] with the matched text finds it at the match and
    no earlier. What the tolerant path comes to is decided by that text
    alone. *)
Theorem second_parse_reads_the_spliced_text
  (h : Host) (source : jstring) (m : RegExpMatch) :
  JSON.parse source = None ->
  codeMatch source = Some m ->
  let withoutCode := before m ++ code_placeholder ++ after m in
  parseConfig h source =
  match JSON.parse withoutCode with
  | Some v =>
      if is_object v then
        Ok {| parsed := v; assigned_code := Some (unescape_code (group2 m)) |}
      else Err (Error (lit "Failed to parse JSON: " ++ TypeError_assign h v P_code))
  | None =>
      Err (Error (lit "Failed to parse JSON: " ++ SyntaxError_message h withoutCode))
  end.
Proof.
  intros Hp Hm. unfold parseConfig. cbv zeta.
  rewrite Hp, Hm, (replace_first_codeMatch _ code_placeholder _ Hm).
  reflexivity.
Qed.

Lemma second_parse_reads_the_spliced_text_witness :
  parseConfig Sample.host Sample.source = Ok Sample.config
  /\ parseConfig Sample.host More.broken_source
     = Err (Error (lit "Failed to parse JSON: "
                     ++ SyntaxError_message Sample.host
                          (lit "{data:[1]," ++ code_placeholder ++ lit "}"))).
Proof.
  split.
  - rewrite (second_parse_reads_the_spliced_text Sample.host Sample.source
               {| before := Sample.data_prefix; group1 := code_key [] [SP];
                  group2 := Sample.payload; group3 := [DQ]; after := lit "}" |});
      vm_compute; reflexivity.
  - rewrite (second_parse_reads_the_spliced_text Sample.host More.broken_source
               {| before := lit "{data:[1],"; group1 := code_key [] [SP];
                  group2 := Sample.payload; group3 := [DQ]; after := lit "}" |});
      vm_compute; reflexivity.
Defined.

Lemma key_at_starts_with_key (s : jstring) :
  strip_prefix (quoted "code") s = None -> key_at s = None.
Proof. unfold key_at. now intros ->. Qed.

Lemma occurs_skipn (needle s : jstring) :
  occurs needle s = false ->
  forall n, strip_prefix needle (skipn n s) = None.
Proof.
  induction s as [|c s IH]; intros H n.
  - cbn [occurs] in H. destruct n; cbn [skipn];
      destruct (strip_prefix needle []); congruence.
  - cbn [occurs] in H.
    destruct (strip_prefix needle (c :: s)) eqn:E; [discriminate|].
    destruct n as [|n]; [exact E|]. now apply IH.
Qed.

Lemma lazy_group_closes (s g rest : jstring) :
  lazy_group s = Some (g, rest) -> closes (skipn (List.length g) s) = true.
Proof.
  revert g rest. induction s as [|c s IH]; intros g rest H; [discriminate|].
  cbn [lazy_group] in H. destruct (closes (c :: s)) eqn:Hc.
  - injection H as <- <-. exact Hc.
  - destruct (lazy_group s) as [[g' rest']|] eqn:E; [|discriminate].
    injection H as <- <-. exact (IH _ _ eq_refl).
Qed.

Lemma match_here_needs_both (s : jstring) :
  (forall n, strip_prefix (quoted "code") (skipn n s) = None)
  \/ (forall n, closes (skipn n s) = false) ->
  forall n, match_here (skipn n s) = None.
Proof.
  intros [Hk|Hc] n; unfold match_here.
  - now rewrite (key_at_starts_with_key _ (Hk n)).
  - destruct (key_at (skipn n s)) as [[g1 r]|] eqn:Ek; [|reflexivity].
    destruct (lazy_group r) as [[g2 rest]|] eqn:El; [|reflexivity].
    exfalso. apply key_at_spec in Ek as (_ & _ & _ & _ & _ & Es).
    apply lazy_group_closes in El.
    assert (Er : r = skipn (List.length g1) (skipn n s)).
    { rewrite Es. rewrite <- (Nat.add_0_r (List.length g1)).
      now rewrite skipn_past. }
    rewrite Er, !skipn_skipn, Hc in El. discriminate.
Qed.

(** X3. A block that is not JSON and in which the text of the code key
    between quotes does not occur, or in which no quote stands before a
    comma, a closing bracket or a closing brace, has no code section: the
    parser fails with that message and the block shows it. *)
Theorem missing_code_section_is_reported (h : Host) (source : jstring) (w : world) :
  JSON.parse source = None ->
  occurs (quoted "code") source = false
  \/ (forall n, closes (skipn n source) = false) ->
  let e := Error (lit "Failed to parse JSON and couldn't find code section") in
  parseConfig h source = Err e
  /\ Main.processor h source w = (Ret tt, reported e w)
  /\ Part000.processor h source w = (Ret tt, reported e w).
Proof.
  intros Hp Hno e.
  assert (Hm : codeMatch source = None).
  { apply codeMatch_none, match_here_needs_both.
    destruct Hno as [Ho|Hc]; [left; now apply occurs_skipn | now right]. }
  assert (E : parseConfig h source = Err e).
  { unfold parseConfig. now rewrite Hp, Hm. }
  split; [exact E|].
  unfold Main.processor, Part000.processor. rewrite E. now run.
Qed.

Lemma missing_code_section_is_reported_witness :
  Main.processor Sample.host More.keyless_source fresh_world
  = (Ret tt,
     reported (Error (lit "Failed to parse JSON and couldn't find code section"))
       fresh_world)
  /\ Part000.processor Sample.host More.unclosed_source fresh_world
     = (Ret tt,
        reported (Error (lit "Failed to parse JSON and couldn't find code section"))
          fresh_world).
Proof.
  split.
  - refine (proj1 (proj2 (missing_code_section_is_reported Sample.host
                            More.keyless_source fresh_world _ _))).
    + vm_compute; reflexivity.
    + left. vm_compute; reflexivity.
  - refine (proj2 (proj2 (missing_code_section_is_reported Sample.host
                            More.unclosed_source fresh_world _ _))).
    + vm_compute; reflexivity.
    + right. intro n.
      do 40 (destruct n as [|n]; [vm_compute; reflexivity|]).
      destruct n; vm_compute; reflexivity.
Defined.

(** X4. A configuration that cannot be parsed ends the callback at once:
    the error is logged, its message becomes the only content of the
    block, and nothing is requested, built, called or plotted. The message
    is the one of the missing code section or starts with the words of the
    second parse. *)
Theorem parse_failure_ends_the_callback
  (h : Host) (source : jstring) (e : error) (w : world) :
  parseConfig h source = Err e ->
  (Main.processor h source w = (Ret tt, reported e w)
   /\ Part000.processor h source w = (Ret tt, reported e w))
  /\ el_children (reported e w)
     = [NText (lit "Error rendering plot: " ++ message e)]
  /\ trace (reported e w)
     = trace w ++ [Console true [lit "[Observable Plot]"; message e]]
  /\ (message e = lit "Failed to parse JSON and couldn't find code section"
      \/ exists cause, message e = lit "Failed to parse JSON: " ++ cause).
Proof.
  intros E. split; [|split; [reflexivity|split; [reflexivity|]]].
  - unfold Main.processor, Part000.processor. rewrite E. now run.
  - unfold parseConfig in E.
    destruct (JSON.parse source); [discriminate|].
    destruct (codeMatch source) as [m|].
    + right.
      destruct (JSON.parse (replace_first (whole m) code_placeholder source))
        as [v|].
      * destruct (is_object v); [discriminate|].
        injection E as <-. now eexists.
      * injection E as <-. now eexists.
    + left. now injection E as <-.
Qed.

Lemma parse_failure_ends_the_callback_witness :
  Main.processor Sample.host More.broken_source fresh_world
  = (Ret tt,
     reported (Error (lit "Failed to parse JSON: Unexpected token")) fresh_world)
  /\ Part000.processor Sample.host More.broken_source fresh_world
     = (Ret tt,
        reported (Error (lit "Failed to parse JSON: Unexpected token")) fresh_world).
Proof.
  refine (proj1 (parse_failure_ends_the_callback Sample.host More.broken_source
                   (Error (lit "Failed to parse JSON: Unexpected token"))
                   fresh_world _)).
  vm_compute; reflexivity.
Defined.

Lemma codeMatch_at_key (pre ws1 ws2 r g rest : jstring) :
  forallb is_space ws1 = true -> forallb is_space ws2 = true ->
  key_free pre (code_key ws1 ws2 ++ r) = true ->
  lazy_group r = Some (g, rest) ->
  codeMatch (pre ++ code_key ws1 ws2 ++ r) =
  Some {| before := pre; group1 := code_key ws1 ws2; group2 := g;
          group3 := [DQ]; after := rest |}.
Proof.
  intros H1 H2 Hkey Hl.
  induction pre as [|c p IH]; rewrite codeMatch_unfold; unfold match_here.
  - rewrite !app_nil_l, (key_at_code_key _ _ _ H1 H2). now rewrite Hl.
  - cbn [key_free] in Hkey.
    change ((c :: p) ++ code_key ws1 ws2 ++ r)
      with (c :: (p ++ code_key ws1 ws2 ++ r)) in *.
    destruct (key_at (c :: p ++ code_key ws1 ws2 ++ r)); [discriminate|].
    now rewrite (IH Hkey).
Qed.

Lemma lazy_group_reaches (g post : jstring) :
  lookahead post = true ->
  exists g' rest,
    lazy_group (g ++ DQ :: post) = Some (g', rest)
    /\ (List.length g' <= List.length g)%nat.
Proof.
  intros Hla. induction g as [|c g (g' & rest & E & Hlen)].
  - exists [], post. split; [|reflexivity].
    cbn [app lazy_group closes]. now rewrite N.eqb_refl, Hla.
  - change ((c :: g) ++ DQ :: post) with (c :: g ++ DQ :: post).
    cbn [lazy_group]. destruct (closes (c :: g ++ DQ :: post)).
    + exists [], (g ++ DQ :: post). split; [reflexivity|simpl; lia].
    + rewrite E. exists (c :: g'), rest. split; [reflexivity|simpl; lia].
Qed.

(** X5. The capture ends at the first quote that stands before a comma,
    a closing bracket or a closing brace, escaped or not. When such a
    quote ends the value of the code key, the expression matches, the
    capture is never longer than the value, and it is the value exactly
    when no quote inside the value stands before one of those. *)
Theorem capture_ends_at_first_closing_quote
  (pre ws1 ws2 payload post : jstring) :
  forallb is_space ws1 = true ->
  forallb is_space ws2 = true ->
  key_free pre (code_key ws1 ws2 ++ payload ++ DQ :: post) = true ->
  lookahead post = true ->
  exists m,
    codeMatch (tolerant_source pre ws1 ws2 payload post) = Some m
    /\ before m = pre
    /\ group1 m = code_key ws1 ws2
    /\ group2 m ++ DQ :: after m = payload ++ DQ :: post
    /\ (List.length (group2 m) <= List.length payload)%nat
    /\ (group2 m = payload <-> close_free payload (DQ :: post) = true).
Proof.
  intros H1 H2 Hkey Hla.
  destruct (lazy_group_reaches payload post Hla) as (g & rest & El & Hlen).
  pose proof (lazy_group_spec _ _ _ El) as (Es & _ & Hfree).
  eexists. split; [exact (codeMatch_at_key _ _ _ _ _ _ H1 H2 Hkey El)|].
  cbn [before group1 group2 after].
  repeat split; [now symmetry | exact Hlen | |].
  - intros ->. apply app_inv_head in Es. now injection Es as ->.
  - intros Hc. rewrite (lazy_group_payload _ _ Hc Hla) in El.
    now injection El as <- _.
Qed.

Lemma capture_ends_at_first_closing_quote_witness :
  exists m,
    codeMatch Sample.source_with_comma = Some m
    /\ group2 m = lit "return f(" ++ [DQ] ++ lit "a"
    /\ after m = lit ", 1);" ++ [LF; DQ] ++ lit "}"
    /\ close_free Sample.payload_with_comma (DQ :: lit "}") = false.
Proof.
  destruct (capture_ends_at_first_closing_quote Sample.data_prefix [] [SP]
              Sample.payload_with_comma (lit "}") eq_refl eq_refl eq_refl eq_refl)
    as (m & Hm & _).
  exists m. split; [exact Hm|].
  assert (E : codeMatch Sample.source_with_comma
              = Some {| before := Sample.data_prefix; group1 := code_key [] [SP];
                        group2 := lit "return f(" ++ [DQ] ++ lit "a";
                        group3 := [DQ];
                        after := lit ", 1);" ++ [LF; DQ] ++ lit "}" |})
    by (vm_compute; reflexivity).
  unfold Sample.source_with_comma in E. rewrite E in Hm.
  injection Hm as <-. repeat split.
Defined.

(** ** The escape reversal, again *)

Lemma replace_pairs_cons_other (a b : cu) (r : jstring) (x : cu) (s : jstring) :
  x <> a -> replace_pairs a b r (x :: s) = x :: replace_pairs a b r s.
Proof.
  intros Hx. destruct s as [|y t]; [reflexivity|].
  rewrite replace_pairs_step.
  now destruct (N.eqb_spec x a) as [->|_].
Qed.

Lemma replace_pairs_length (a b : cu) (r : jstring) (n : nat) :
  (List.length r <= 2)%nat ->
  forall s, (List.length s <= n)%nat ->
            (List.length (replace_pairs a b r s) <= List.length s)%nat.
Proof.
  intros Hr. induction n as [|n IH]; intros s Hs.
  - destruct s; [reflexivity|simpl in Hs; lia].
  - destruct s as [|x [|y t]]; [reflexivity|reflexivity|].
    rewrite replace_pairs_step.
    destruct ((x =? a) && (y =? b)).
    + rewrite length_app. cbn [List.length] in *.
      specialize (IH t ltac:(lia)). lia.
    + cbn [List.length] in *. specialize (IH (y :: t) ltac:(simpl; lia)).
      cbn [List.length] in IH. lia.
Qed.

Lemma includes_cons (c x : cu) (s : jstring) :
  includes (x :: s) c = false -> x <> c /\ includes s c = false.
Proof.
  unfold includes. cbn [existsb]. intros H.
  apply orb_false_iff in H as [Hx Hs]. split; [|exact Hs].
  intros ->. now rewrite N.eqb_refl in Hx.
Qed.

(** X6. The three substitutions read back a text in which line feeds and
    quotes were escaped, when the text holds no backslash of its own. *)
Theorem escaped_text_is_read_back (p : jstring) :
  includes p BACKSLASH = false ->
  unescape_code (json_escape p) = p.
Proof.
  intros Hp. unfold unescape_code.
  assert (H1 : replace_pairs BACKSLASH 110 [LF] (json_escape p)
               = flat_map (fun c => if c =? DQ then [BACKSLASH; DQ] else [c]) p).
  { induction p as [|c p IH]; [reflexivity|].
    apply includes_cons in Hp as [Hc Hp]. specialize (IH Hp).
    unfold json_escape in *. cbn [flat_map].
    destruct (N.eqb_spec c LF) as [->|Hlf].
    - cbn [app]. rewrite replace_pairs_step, !N.eqb_refl. cbn [andb].
      now rewrite IH.
    - destruct (N.eqb_spec c DQ) as [->|Hdq]; cbn [app].
      + rewrite replace_pairs_step, N.eqb_refl.
        change (DQ =? 110) with false. cbn [andb].
        rewrite replace_pairs_cons_other by discriminate. now rewrite IH.
      + rewrite replace_pairs_cons_other by exact Hc. now rewrite IH. }
  rewrite H1. clear H1.
  assert (H2 : replace_pairs BACKSLASH DQ [DQ]
                 (flat_map (fun c => if c =? DQ then [BACKSLASH; DQ] else [c]) p)
               = p).
  { induction p as [|c p IH]; [reflexivity|].
    apply includes_cons in Hp as [Hc Hp]. specialize (IH Hp).
    cbn [flat_map]. destruct (N.eqb_spec c DQ) as [->|Hdq]; cbn [app].
    - rewrite replace_pairs_step, !N.eqb_refl. cbn [andb app]. now rewrite IH.
    - rewrite replace_pairs_cons_other by exact Hc. now rewrite IH. }
  rewrite H2. now apply strip_backslashes_absent.
Qed.

Lemma escaped_text_is_read_back_witness :
  includes (json_escape Sample.payload) LF = false
  /\ unescape_code (json_escape Sample.payload) = Sample.payload.
Proof.
  split; [vm_compute; reflexivity|].
  apply escaped_text_is_read_back. vm_compute; reflexivity.
Defined.

(** X7. What the tolerant path assigns to the code field is the capture
    itself exactly when the capture holds no backslash; it is never
    longer than the capture, and reversing it again changes nothing. *)
Theorem reversal_changes_only_backslashed_text (g : jstring) :
  (unescape_code g = g <-> includes g BACKSLASH = false)
  /\ (List.length (unescape_code g) <= List.length g)%nat
  /\ unescape_code (unescape_code g) = unescape_code g.
Proof.
  split; [split|split].
  - intros E. rewrite <- E. apply unescape_code_clean.
  - apply unescape_code_plain.
  - unfold unescape_code, strip_backslashes.
    etransitivity; [apply filter_length_le|].
    etransitivity; [eapply replace_pairs_length; [simpl; lia|reflexivity]|].
    eapply replace_pairs_length; [simpl; lia|reflexivity].
  - apply unescape_code_plain, unescape_code_clean.
Qed.

(** ** What a fetched body resolves to *)

(** The fetch block of [part_000] once the response is there and the URL
    has a path. *)
Lemma part000_fetch_ok (h : Host) (dataUrl : value) (u text pathname : jstring)
  (status : N) (w : world) :
  to_js_string h dataUrl = Ok u ->
  fetch h u = FetchResponded status (Ok text) ->
  response_ok status = true ->
  URL_pathname h u = Ok pathname ->
  Part000.fetchData h dataUrl w =
  try_catch
    (plotData <- Part000.parse_body h (Part000.extension pathname) text ;;
     msg <- lift (Part000.fetched_message h plotData) ;;
     logMessage msg false ;;
     ret plotData)
    (fun e => throw (fetch_failure e)) (requested u w).
Proof.
  intros Hu Hf Hok Hpath. unfold Part000.fetchData. rewrite Hu. run.
  rewrite Hf. cbn [Part000.receive]. rewrite Hok, Hpath. reflexivity.
Qed.

(** Classifying a body touches nothing, and what it returns is an object
    for [typeof]. *)
Lemma parse_json_family_returns (h : Host) (text : jstring) (v : value)
  (w w' : world) :
  Part000.parse_json_family h text w = (Ret v, w') ->
  w' = w /\ typeof_is_object v = true.
Proof.
  unfold Part000.parse_json_family.
  destruct (JSON.parse text) as [data|]; [|discriminate].
  destruct data; unfold bind, lift, ret, throw;
    cbn [get_prop truthy Part000.is_string Part000.is_array orb];
    try discriminate;
    repeat match goal with
           | |- context [if ?b then _ else _] => destruct b
           end;
    intros [= <- <-]; split; reflexivity.
Qed.

Lemma parse_body_returns (h : Host) (ext text : jstring) (v : value)
  (w w' : world) :
  Part000.parse_body h ext text w = (Ret v, w') ->
  w' = w /\ typeof_is_object v = true.
Proof.
  unfold Part000.parse_body.
  destruct (Part000.format_of ext);
    try (intros [= <- <-]; split; reflexivity);
    try apply parse_json_family_returns.
  destruct (_ || _); [apply parse_json_family_returns|].
  destruct (includes text TAB); intros [= <- <-]; split; reflexivity.
Qed.

(** X8. Whatever the fetch block of [part_000] returns is an object for
    [typeof]: the message of line 123 is always the one that names
    GeoJSON/TopoJSON, also for the rows of a CSV file, and the count of
    items is never logged. *)
Theorem fetched_message_never_counts
  (h : Host) (dataUrl v : value) (w w' : world) :
  Part000.fetchData h dataUrl w = (Ret v, w') ->
  exists u,
    to_js_string h dataUrl = Ok u
    /\ typeof_is_object v = true
    /\ Part000.fetched_message h v
       = Ok fetched_log
    /\ w' = logged false fetched_log
              (requested u w).
Proof.
  unfold Part000.fetchData. destruct (to_js_string h dataUrl) as [u|e] eqn:Hu;
    run; [|discriminate].
  destruct (fetch h u) as [e|status body]; cbn [Part000.receive];
    [discriminate|].
  destruct (response_ok status); cbn [negb]; [|discriminate].
  run. destruct (URL_pathname h u) as [pathname|e]; [|discriminate].
  destruct body as [text|e]; [|discriminate].
  destruct (Part000.parse_body h (Part000.extension pathname) text _)
    as [[v0|e| |] w0] eqn:Hb; try discriminate.
  apply parse_body_returns in Hb as [-> Hobj].
  unfold Part000.fetched_message. rewrite Hobj.
  intros [= <- <-]. exists u. rewrite Hobj. repeat split.
Qed.

Lemma fetched_message_never_counts_witness :
  exists u,
    to_js_string Sample.csv_host (VString Sample.url) = Ok u
    /\ typeof_is_object (VArray Sample.csv_records) = true
    /\ Part000.fetched_message Sample.csv_host (VArray Sample.csv_records)
       = Ok fetched_log
    /\ logged false (lit "Successfully fetched data: " ++ lit "GeoJSON/TopoJSON")
         (requested Sample.url fresh_world)
       = logged false fetched_log
           (requested u fresh_world).
Proof.
  apply (fetched_message_never_counts Sample.csv_host (VString Sample.url)
           (VArray Sample.csv_records) fresh_world).
  vm_compute; reflexivity.
Defined.

Lemma part000_fetch_returns (h : Host) (dataUrl v : value)
  (u text pathname : jstring) (status : N) (w : world) :
  to_js_string h dataUrl = Ok u ->
  fetch h u = FetchResponded status (Ok text) ->
  response_ok status = true ->
  URL_pathname h u = Ok pathname ->
  (forall w0, Part000.parse_body h (Part000.extension pathname) text w0
              = (Ret v, w0)) ->
  Part000.fetchData h dataUrl w
  = (Ret v, logged false fetched_log (requested u w)).
Proof.
  intros Hu Hf Hok Hpath Hb.
  rewrite (part000_fetch_ok _ _ _ _ _ _ _ Hu Hf Hok Hpath).
  unfold try_catch, bind at 1. rewrite Hb.
  destruct (parse_body_returns _ _ _ _ _ _ (Hb w)) as [_ Hobj].
  unfold Part000.fetched_message. rewrite Hobj. reflexivity.
Qed.

Lemma part000_fetch_throws (h : Host) (dataUrl : value) (e : error)
  (u text pathname : jstring) (status : N) (w : world) :
  to_js_string h dataUrl = Ok u ->
  fetch h u = FetchResponded status (Ok text) ->
  response_ok status = true ->
  URL_pathname h u = Ok pathname ->
  (forall w0, Part000.parse_body h (Part000.extension pathname) text w0
              = (Throw e, w0)) ->
  Part000.fetchData h dataUrl w = (Throw (fetch_failure e), requested u w).
Proof.
  intros Hu Hf Hok Hpath Hb.
  rewrite (part000_fetch_ok _ _ _ _ _ _ _ Hu Hf Hok Hpath).
  unfold try_catch, bind at 1. rewrite Hb. reflexivity.
Qed.

Lemma parse_body_as_json (h : Host) (pathname text : jstring) :
  read_as_json pathname text = true ->
  Part000.parse_body h (Part000.extension pathname) text
  = Part000.parse_json_family h text.
Proof.
  unfold read_as_json, Part000.parse_body.
  destruct (Part000.format_of (Part000.extension pathname));
    try discriminate; [reflexivity|].
  now intros ->.
Qed.

(** X9. A body that [part_000] reads as JSON resolves by what it holds:
    an array is passed on as it is; an object is passed on as it is when
    its member [objects] is truthy or its member [type] is the string
    FeatureCollection or Feature, and otherwise as the only element of a
    new array; a string, a number or a boolean is wrapped the same way;
    [null] is a TypeError on reading [objects], rethrown as a failed
    fetch. *)
Theorem json_body_is_classified
  (h : Host) (dataUrl data : value) (u text pathname : jstring) (status : N)
  (w : world) :
  to_js_string h dataUrl = Ok u ->
  fetch h u = FetchResponded status (Ok text) ->
  response_ok status = true ->
  URL_pathname h u = Ok pathname ->
  read_as_json pathname text = true ->
  JSON.parse text = Some data ->
  Part000.fetchData h dataUrl w =
  match data with
  | VNull | VUndefined =>
      (Throw (fetch_failure (Error (TypeError_read h data P_objects))),
       requested u w)
  | VArray _ => (Ret data, logged false fetched_log (requested u w))
  | VObject ms =>
      let objects := match lookup (lit "objects") ms with
                     | Some x => x | None => VUndefined end in
      let type := match lookup (lit "type") ms with
                  | Some x => x | None => VUndefined end in
      if truthy objects
         || Part000.is_string type (lit "FeatureCollection")
         || Part000.is_string type (lit "Feature")
      then (Ret data, logged false fetched_log (requested u w))
      else (Ret (VArray [data]), logged false fetched_log (requested u w))
  | _ => (Ret (VArray [data]), logged false fetched_log (requested u w))
  end.
Proof.
  intros Hu Hf Hok Hpath Hjson Hdata.
  pose proof (parse_body_as_json h _ _ Hjson) as Hb.
  assert (Hfam : Part000.parse_json_family h text
                 = (objects <- lift (get_prop h data P_objects) ;;
                    if truthy objects then ret data
                    else
                      type <- lift (get_prop h data P_type) ;;
                      if Part000.is_string type (lit "FeatureCollection")
                         || Part000.is_string type (lit "Feature")
                      then ret data
                      else if Part000.is_array data then ret data
                      else ret (VArray [data])))
    by (unfold Part000.parse_json_family; now rewrite Hdata).
  destruct data;
    try (apply (part000_fetch_returns _ _ _ _ _ _ _ _ Hu Hf Hok Hpath);
         intro w0; rewrite Hb, Hfam; reflexivity);
    try (apply (part000_fetch_throws _ _ _ _ _ _ _ _ Hu Hf Hok Hpath);
         intro w0; rewrite Hb, Hfam; reflexivity).
  cbv zeta.
  destruct (truthy match lookup (lit "objects") ms with
                   | Some x => x | None => VUndefined end) eqn:Ho;
    cbn [orb].
  - apply (part000_fetch_returns _ _ _ _ _ _ _ _ Hu Hf Hok Hpath).
    intro w0. rewrite Hb, Hfam. unfold bind, lift, ret.
    cbn [get_prop prop_name]. now rewrite Ho.
  - destruct (Part000.is_string _ (lit "FeatureCollection")
              || Part000.is_string _ (lit "Feature")) eqn:Ht;
      apply (part000_fetch_returns _ _ _ _ _ _ _ _ Hu Hf Hok Hpath);
      intro w0; rewrite Hb, Hfam; unfold bind, lift, ret;
      cbn [get_prop prop_name]; rewrite Ho, Ht; reflexivity.
Qed.

Lemma json_body_is_classified_witness :
  Part000.fetchData (More.serving More.record_body) (VString More.json_url)
    fresh_world
  = (Ret (VArray [More.record]),
     logged false fetched_log (requested More.json_url fresh_world))
  /\ Part000.fetchData (More.serving (lit "null")) (VString More.json_url)
       fresh_world
     = (Throw (fetch_failure (Error (lit "Cannot read properties of null"))),
        requested More.json_url fresh_world).
Proof.
  split.
  - exact (json_body_is_classified (More.serving More.record_body)
             (VString More.json_url) More.record More.json_url More.record_body
             (lit "/data.json") 200 fresh_world
             eq_refl eq_refl eq_refl eq_refl eq_refl eq_refl).
  - exact (json_body_is_classified (More.serving (lit "null"))
             (VString More.json_url) VNull More.json_url (lit "null")
             (lit "/data.json") 200 fresh_world
             eq_refl eq_refl eq_refl eq_refl eq_refl eq_refl).
Defined.

(** The extension is what follows the last dot of the path, in lower
    case. *)
Lemma extension_after_last_dot (p word : jstring) :
  includes word DOT = false ->
  Part000.extension (p ++ DOT :: word) = Part000.toLowerCase word.
Proof.
  intros Hplain. unfold Part000.extension, Part000.pop.
  destruct (split_at_sep DOT p word) as (l & _ & ->).
  rewrite last_app_right by apply split_not_nil.
  now rewrite (split_plain _ _ Hplain).
Qed.

(** X10. The format of a fetched body follows the text after the last dot
    of the path of the URL, whatever its case and whatever dots the
    directories hold: [csv] and [tsv] select the two readers of delimited
    text, [json], [geojson] and [topojson] the JSON reader. *)
Theorem format_follows_the_extension_in_any_case
  (h : Host) (dataUrl : value) (u text p word : jstring) (status : N) (w : world) :
  to_js_string h dataUrl = Ok u ->
  fetch h u = FetchResponded status (Ok text) ->
  response_ok status = true ->
  URL_pathname h u = Ok (p ++ DOT :: word) ->
  includes word DOT = false ->
  (Part000.toLowerCase word = lit "csv" ->
   Part000.fetchData h dataUrl w
   = (Ret (VArray (d3_csvParse h text)),
      logged false fetched_log (requested u w)))
  /\ (Part000.toLowerCase word = lit "tsv" ->
      Part000.fetchData h dataUrl w
      = (Ret (VArray (d3_tsvParse h text)),
         logged false fetched_log (requested u w)))
  /\ (In (Part000.toLowerCase word) [lit "json"; lit "geojson"; lit "topojson"] ->
      read_as_json (p ++ DOT :: word) text = true).
Proof.
  intros Hu Hf Hok Hpath Hword.
  pose proof (extension_after_last_dot p word Hword) as Hext.
  split; [|split]; intros Hlow.
  - apply (part000_fetch_returns _ _ _ _ _ _ _ _ Hu Hf Hok Hpath).
    intro w0. now rewrite Hext, Hlow.
  - apply (part000_fetch_returns _ _ _ _ _ _ _ _ Hu Hf Hok Hpath).
    intro w0. now rewrite Hext, Hlow.
  - unfold read_as_json. rewrite Hext.
    destruct Hlow as [<-|[<-|[<-|[]]]]; reflexivity.
Qed.

Lemma format_follows_the_extension_in_any_case_witness :
  Part000.toLowerCase (lit "TSV") = lit "tsv"
  /\ Part000.fetchData (More.serving More.tsv_body) (VString More.upper_url)
       fresh_world
     = (Ret (VArray More.tsv_records),
        logged false fetched_log (requested More.upper_url fresh_world)).
Proof.
  split; [reflexivity|].
  refine (proj1 (proj2 (format_follows_the_extension_in_any_case
                          (More.serving More.tsv_body) (VString More.upper_url)
                          More.upper_url More.tsv_body (lit "/v1.2/DATA")
                          (lit "TSV") 200 fresh_world
                          eq_refl eq_refl eq_refl _ eq_refl)) eq_refl).
  vm_compute; reflexivity.
Defined.

(** X11. A path without a dot has no extension the fetch block knows, and
    the body decides: it is read as JSON when, trimmed, it starts with a
    brace or a bracket; otherwise as tab-separated text when it holds a
    tab, and as comma-separated text when it holds none. *)
Theorem body_without_extension_is_sniffed
  (h : Host) (dataUrl : value) (u text rest : jstring) (status : N) (w : world) :
  to_js_string h dataUrl = Ok u ->
  fetch h u = FetchResponded status (Ok text) ->
  response_ok status = true ->
  URL_pathname h u = Ok (lit "/" ++ rest) ->
  includes rest DOT = false ->
  read_as_json (lit "/" ++ rest) text
  = (startsWith (trim text) [LBRACE] || startsWith (trim text) [LBRACKET])
  /\ (read_as_json (lit "/" ++ rest) text = false ->
      Part000.fetchData h dataUrl w
      = (Ret (VArray (if includes text TAB then d3_tsvParse h text
                      else d3_csvParse h text)),
         logged false fetched_log (requested u w))).
Proof.
  intros Hu Hf Hok Hpath Hrest.
  assert (Hext : Part000.format_of (Part000.extension (lit "/" ++ rest))
                 = Part000.Unknown).
  { unfold Part000.extension, Part000.pop.
    rewrite split_plain by exact Hrest. reflexivity. }
  unfold read_as_json. rewrite Hext. split; [reflexivity|]. intros Hno.
  apply (part000_fetch_returns _ _ _ _ _ _ _ _ Hu Hf Hok Hpath).
  intro w0. unfold Part000.parse_body. rewrite Hext, Hno.
  now destruct (includes text TAB).
Qed.

Lemma body_without_extension_is_sniffed_witness :
  Part000.fetchData (More.serving More.tsv_body) (VString More.bare_url)
    fresh_world
  = (Ret (VArray More.tsv_records),
     logged false fetched_log (requested More.bare_url fresh_world))
  /\ Part000.fetchData (More.serving Sample.csv_body) (VString More.bare_url)
       fresh_world
     = (Ret (VArray Sample.csv_records),
        logged false fetched_log (requested More.bare_url fresh_world)).
Proof.
  split.
  - refine (proj2 (body_without_extension_is_sniffed
                     (More.serving More.tsv_body) (VString More.bare_url)
                     More.bare_url More.tsv_body (lit "api/rows") 200 fresh_world
                     eq_refl eq_refl eq_refl eq_refl eq_refl) _);
      vm_compute; reflexivity.
  - refine (eq_trans
              (proj2 (body_without_extension_is_sniffed
                        (More.serving Sample.csv_body) (VString More.bare_url)
                        More.bare_url Sample.csv_body (lit "api/rows") 200
                        fresh_world eq_refl eq_refl eq_refl eq_refl eq_refl) _) _);
      vm_compute; reflexivity.
Defined.

(** X12. In [part_000] the URL is parsed only after the response has
    arrived and its status is checked: a [dataUrl] that [new URL] rejects
    still costs one request, its body is read by no parser, and the error
    of [new URL] is rethrown as a failed fetch. *)
Theorem url_is_parsed_after_the_request
  (h : Host) (dataUrl : value) (u : jstring) (status : N) (body : result jstring)
  (e : error) (w : world) :
  to_js_string h dataUrl = Ok u ->
  fetch h u = FetchResponded status body ->
  response_ok status = true ->
  URL_pathname h u = Err e ->
  Part000.fetchData h dataUrl w = (Throw (fetch_failure e), requested u w)
  /\ fetched (trace (requested u w)) = fetched (trace w) ++ [u].
Proof.
  intros Hu Hf Hok Hpath. split; [|apply fetched_requested].
  unfold Part000.fetchData. rewrite Hu. run. rewrite Hf.
  cbn [Part000.receive]. rewrite Hok, Hpath. reflexivity.
Qed.

Lemma url_is_parsed_after_the_request_witness :
  Part000.fetchData (More.serving_relative More.record_body)
    (VString (lit "data.json")) fresh_world
  = (Throw (Error (lit "Failed to fetch data from URL: Invalid URL")),
     requested (lit "data.json") fresh_world)
  /\ fetched (trace (requested (lit "data.json") fresh_world))
     = [lit "data.json"].
Proof.
  exact (url_is_parsed_after_the_request (More.serving_relative More.record_body)
           (VString (lit "data.json")) (lit "data.json") 200
           (Ok More.record_body) (Error (lit "Invalid URL")) fresh_world
           eq_refl eq_refl eq_refl eq_refl).
Defined.

Lemma main_fetch_ok (h : Host) (dataUrl : value) (u text : jstring)
  (status : N) (w : world) :
  to_js_string h dataUrl = Ok u ->
  fetch h u = FetchResponded status (Ok text) ->
  response_ok status = true ->
  Main.fetchData h dataUrl w =
  try_catch
    match JSON.parse text with
    | None => throw (Error (SyntaxError_message h text))
    | Some plotData =>
        len <- lift (get_prop h plotData P_length) ;;
        n <- lift (to_js_string h len) ;;
        logMessage (lit "Successfully fetched data: " ++ n ++ lit " items") false ;;
        ret plotData
    end
    (fun e => throw (fetch_failure e)) (requested u w).
Proof.
  intros Hu Hf Hok. unfold Main.fetchData. rewrite Hu. run.
  rewrite Hf. cbn [Main.receive]. rewrite Hok. reflexivity.
Qed.

(** X13. The program of [src/src/main.ts] reads every body as JSON,
    whatever the URL: a body that is not JSON is a failed fetch with the
    message of the SyntaxError, also when it is the CSV text that
    [part_000] reads; [null] is a failed fetch with the TypeError of
    reading [length]; an array is passed on and the log counts its
    elements; an object is passed on as it is, not wrapped. *)
Theorem main_reads_every_body_as_json
  (h : Host) (dataUrl : value) (u text : jstring) (status : N) (w : world) :
  to_js_string h dataUrl = Ok u ->
  fetch h u = FetchResponded status (Ok text) ->
  response_ok status = true ->
  (JSON.parse text = None ->
   Main.fetchData h dataUrl w
   = (Throw (fetch_failure (Error (SyntaxError_message h text))),
      requested u w))
  /\ (JSON.parse text = Some VNull ->
      Main.fetchData h dataUrl w
      = (Throw (fetch_failure (Error (TypeError_read h VNull P_length))),
         requested u w))
  /\ (forall rows,
        JSON.parse text = Some (VArray rows) ->
        N.of_nat (List.length rows) < 2 ^ 53 ->
        Main.fetchData h dataUrl w
        = (Ret (VArray rows),
           logged false
             (lit "Successfully fetched data: "
                ++ decimal (N.of_nat (List.length rows)) ++ lit " items")
             (requested u w)))
  /\ (forall ms n,
        JSON.parse text = Some (VObject ms) ->
        lookup (lit "length") ms = None ->
        ToString h VUndefined = Ok n ->
        Main.fetchData h dataUrl w
        = (Ret (VObject ms),
           logged false (lit "Successfully fetched data: " ++ n ++ lit " items")
             (requested u w))).
Proof.
  intros Hu Hf Hok. rewrite (main_fetch_ok _ _ _ _ _ _ Hu Hf Hok).
  split; [|split; [|split]].
  - intros ->. reflexivity.
  - intros ->. reflexivity.
  - intros rows -> Hlen. apply N.ltb_lt in Hlen.
    unfold try_catch, bind, lift, ret. cbn [get_prop]. unfold num_of_N.
    cbn [to_js_string]. rewrite Hlen. reflexivity.
  - intros ms n -> Hnone Hn.
    unfold try_catch, bind, lift, ret. cbn [get_prop prop_name]. rewrite Hnone.
    cbn [to_js_string]. rewrite Hn. reflexivity.
Qed.

Lemma main_reads_every_body_as_json_witness :
  Main.fetchData Sample.csv_host (VString Sample.url) fresh_world
  = (Throw (Error (lit "Failed to fetch data from URL: Unexpected token")),
     requested Sample.url fresh_world)
  /\ Main.fetchData (More.serving (lit "[1,2,3]")) (VString More.json_url)
       fresh_world
     = (Ret (VArray [num_of_N 1; num_of_N 2; num_of_N 3]),
        logged false (lit "Successfully fetched data: 3 items")
          (requested More.json_url fresh_world)).
Proof.
  split.
  - exact (proj1 (main_reads_every_body_as_json Sample.csv_host
                    (VString Sample.url) Sample.url Sample.csv_body 200
                    fresh_world eq_refl eq_refl eq_refl) eq_refl).
  - exact (proj1 (proj2 (proj2 (main_reads_every_body_as_json
                                  (More.serving (lit "[1,2,3]"))
                                  (VString More.json_url) More.json_url
                                  (lit "[1,2,3]") 200 fresh_world
                                  eq_refl eq_refl eq_refl)))
             [num_of_N 1; num_of_N 2; num_of_N 3] eq_refl eq_refl).
Defined.

(** ** What a render leaves behind *)

Section Keeps.

Variable R : world -> world -> Prop.
Hypothesis R_refl : forall w, R w w.
Hypothesis R_trans : forall a b c, R a b -> R b c -> R a c.

Lemma keeps_ret {A} (a : A) : keeps R (ret a).
Proof. intro w. apply R_refl. Qed.

Lemma keeps_throw {A} (e : error) : keeps R (@throw A e).
Proof. intro w. apply R_refl. Qed.

Lemma keeps_lift {A} (r : result A) : keeps R (lift r).
Proof. destruct r; [apply keeps_ret|apply keeps_throw]. Qed.

Lemma keeps_bind {A B} (m : M A) (k : A -> M B) :
  keeps R m -> (forall a, keeps R (k a)) -> keeps R (bind m k).
Proof.
  intros Hm Hk w. unfold bind. specialize (Hm w).
  destruct (m w) as [[a|e| |] w1]; cbn [snd] in *; try exact Hm.
  exact (R_trans _ _ _ Hm (Hk a w1)).
Qed.

Lemma keeps_try_catch {A} (m : M A) (k : error -> M A) :
  keeps R m -> (forall e, keeps R (k e)) -> keeps R (try_catch m k).
Proof.
  intros Hm Hk w. unfold try_catch. specialize (Hm w).
  destruct (m w) as [[a|e| |] w1]; cbn [snd] in *; try exact Hm.
  exact (R_trans _ _ _ Hm (Hk e w1)).
Qed.

End Keeps.

Lemma only_logs_and_requests_refl (w : world) : only_logs_and_requests w w.
Proof. repeat split. Qed.

Lemma only_logs_and_requests_trans (a b c : world) :
  only_logs_and_requests a b -> only_logs_and_requests b c ->
  only_logs_and_requests a c.
Proof.
  intros (H1 & H2 & H3 & H4 & H5) (K1 & K2 & K3 & K4 & K5).
  repeat split; etransitivity; eassumption.
Qed.

Lemma keeps_log (msg : jstring) (isError : bool) :
  keeps only_logs_and_requests (logMessage msg isError).
Proof.
  intro w. unfold logMessage, emit. cbn [snd].
  unfold only_logs_and_requests. cbn [trace el_nodes container].
  rewrite functions_built_app, calls_made_app, specs_plotted_app.
  cbn. rewrite !app_nil_r. repeat split.
Qed.

Lemma keeps_fetch (u : jstring) : keeps only_logs_and_requests (emit (Fetch u)).
Proof.
  intro w. unfold emit. cbn [snd].
  unfold only_logs_and_requests. cbn [trace el_nodes container].
  rewrite functions_built_app, calls_made_app, specs_plotted_app.
  cbn. rewrite !app_nil_r. repeat split.
Qed.

Ltac keeps_step :=
  match goal with
  | |- keeps _ (bind _ _) =>
      apply (keeps_bind _ only_logs_and_requests_trans); [|intro]
  | |- keeps _ (try_catch _ _) =>
      apply (keeps_try_catch _ only_logs_and_requests_trans); [|intro]
  | |- keeps _ (ret _) => apply (keeps_ret _ only_logs_and_requests_refl)
  | |- keeps _ (throw _) => apply (keeps_throw _ only_logs_and_requests_refl)
  | |- keeps _ (lift _) => apply (keeps_lift _ only_logs_and_requests_refl)
  | |- keeps _ (logMessage _ _) => apply keeps_log
  | |- keeps _ (emit (Fetch _)) => apply keeps_fetch
  | |- keeps _ (if ?b then _ else _) => destruct b
  | |- keeps _ (match ?x with _ => _ end) => destruct x
  end.

Lemma keeps_parse_body (h : Host) (ext text : jstring) :
  keeps only_logs_and_requests (Part000.parse_body h ext text).
Proof.
  unfold Part000.parse_body, Part000.parse_json_family. repeat keeps_step.
Qed.

(** Resolving the data only logs and requests. *)
Lemma keeps_resolveData (h : Host) (config : PlotConfig) :
  keeps only_logs_and_requests (Main.resolveData h config)
  /\ keeps only_logs_and_requests (Part000.resolveData h config).
Proof.
  split.
  - unfold Main.resolveData, Main.fetchData, Main.receive. repeat keeps_step.
  - unfold Part000.resolveData, Part000.fetchData, Part000.receive.
    repeat first [apply keeps_parse_body | keeps_step].
Qed.


























(** X17. Without data there is no plot: when the data resolution throws,
    the callback ends with the error as the only content of the block,
    and up to then no function was built, none called and nothing
    plotted, and no container was created. What is thrown is the error of
    the missing source, a failed fetch, or the TypeError of reading a
    property of a configuration that is [null]. *)
Theorem data_failure_ends_the_callback
  (h : Host) (source : jstring) (config : PlotConfig) (e : error) (w w' : world) :
  parseConfig h source = Ok config ->
  Main.resolveData h config w = (Throw e, w')
  \/ Part000.resolveData h config w = (Throw e, w') ->
  (Main.resolveData h config w = (Throw e, w') ->
   Main.processor h source w = (Ret tt, reported e w'))
  /\ (Part000.resolveData h config w = (Throw e, w') ->
      Part000.processor h source w = (Ret tt, reported e w'))
  /\ el_children (reported e w')
     = [NText (lit "Error rendering plot: " ++ message e)]
  /\ functions_built (trace (reported e w')) = functions_built (trace w)
  /\ calls_made (trace (reported e w')) = calls_made (trace w)
  /\ specs_plotted (trace (reported e w')) = specs_plotted (trace w)
  /\ container w' = container w
  /\ (e = missing_source
      \/ (exists cause, e = fetch_failure cause)
      \/ config_get h config P_dataUrl = Err e
      \/ config_get h config P_data = Err e).
Proof.
  intros Hcfg Hthrow.
  destruct (processor_resolution_fails h source config e w w' Hcfg) as [HM HP].
  split; [exact HM|]. split; [exact HP|]. split; [reflexivity|].
  assert (Hk : only_logs_and_requests w w').
  { destruct Hthrow as [E|E].
    - pose proof (proj1 (keeps_resolveData h config) w) as K.
      now rewrite E in K.
    - pose proof (proj2 (keeps_resolveData h config) w) as K.
      now rewrite E in K. }
  destruct Hk as (_ & Hc & Hf & Hcalls & Hs).
  unfold reported. cbn [trace].
  rewrite functions_built_app, calls_made_app, specs_plotted_app. cbn.
  rewrite !app_nil_r. repeat (split; [assumption|]).
  assert (Hcause : forall r : outcome value * world,
             (r = Main.resolveData h config w \/ r = Part000.resolveData h config w) ->
             fst r = Throw e ->
             e = missing_source
             \/ (exists cause, e = fetch_failure cause)
             \/ config_get h config P_dataUrl = Err e
             \/ config_get h config P_data = Err e).
  { intros r Hr. unfold Main.resolveData, Part000.resolveData in Hr.
    destruct (config_get h config P_dataUrl) as [dataUrl|e0].
    - revert Hr. run. destruct (truthy dataUrl).
      + intros [->| ->] Hfst.
        * right; left.
          exact (proj1 (fetchData_throws_fetch_failure h dataUrl w e) Hfst).
        * right; left.
          exact (proj2 (fetchData_throws_fetch_failure h dataUrl w e) Hfst).
      + destruct (config_get h config P_data) as [data|e1].
        * destruct (truthy data); intros [->| ->]; cbn [fst];
            try discriminate; intros [= <-]; now left.
        * intros [->| ->]; cbn [fst]; intros [= <-]; now do 3 right.
    - revert Hr. run. intros [->| ->]; cbn [fst]; intros [= <-];
        right; right; now left. }
  destruct Hthrow as [E|E].
  - apply (Hcause _ (or_introl eq_refl)). now rewrite E.
  - apply (Hcause _ (or_intror eq_refl)). now rewrite E.
Qed.

Lemma data_failure_ends_the_callback_witness :
  Main.processor Sample.host Sample.url_source fresh_world
  = (Ret tt,
     reported (Error (lit "Failed to fetch data from URL: Failed to fetch"))
       (requested Sample.url fresh_world))
  /\ functions_built
       (trace (reported (Error (lit "Failed to fetch data from URL: Failed to fetch"))
                 (requested Sample.url fresh_world)))
     = [].
Proof.
  destruct (data_failure_ends_the_callback Sample.host Sample.url_source
              (plain_config [(lit "dataUrl", VString Sample.url)])
              (Error (lit "Failed to fetch data from URL: Failed to fetch"))
              fresh_world (requested Sample.url fresh_world)
              eq_refl (or_introl eq_refl))
    as (HM & _ & _ & Hf & _).
  split; [exact (HM eq_refl)|exact Hf].
Defined.

(** ** The code path *)

(** The code path of a render once the code is known to be a text that
    stays what it is between the backticks. *)
Lemma code_path (h : Host) (config : PlotConfig) (code : jstring)
  (plotData : value) (w : world) :
  config_get h config P_code = Ok (VString code) ->
  code <> [] ->
  template_safe code = true ->
  Main.render h config plotData w
  = (emit (NewFunction Main.user_params (Main.user_body code)) ;;
     userFunction <- lift (Function_new h Main.user_params (Main.user_body code)) ;;
     spec <- call_user userFunction [VLib LibPlot; VLib LibD3; plotData] ;;
     if negb (truthy spec) then throw no_specification
     else plot_into_container h spec)
      {| trace := trace w ++ [NewFunction Main.plot_params (Main.plot_body code)];
         el_nodes := el_nodes w; container := Some [] |}
  /\ Part000.render h config plotData w
     = try_catch
         (emit (NewFunction Part000.user_params (Part000.user_body code)) ;;
          userFunction <- lift (Function_new h Part000.user_params
                                  (Part000.user_body code)) ;;
          spec <- call_user userFunction
                    [VLib LibPlot; VLib LibD3; plotData; VLib LibTopojson] ;;
          if negb (truthy spec) then throw no_specification
          else plot_into_container h spec)
         Part000.generation_failed
         {| trace := trace w
                     ++ [NewFunction Part000.plot_params (Part000.plot_body code)];
            el_nodes := el_nodes w; container := Some [] |}.
Proof.
  intros Hcode Hne Hsafe.
  assert (Htruthy : truthy (VString code) = true)
    by (destruct code; [contradiction|reflexivity]).
  unfold Main.render, Part000.render, Main.plotFunction, Part000.plotFunction.
  run. rewrite Hcode, Htruthy. cbn [to_js_string]. rewrite Hsafe. cbn [negb].
  split; reflexivity.
Qed.

(** X18. A truthy value that the user code returns is handed to
    [Plot.plot] as it is, and the graphic that comes back becomes the
    only child of the plot container: the calls made are the two
    constructions, the call of the user function and the call of
    [Plot.plot], in that order, and nothing is logged. *)
Theorem returned_specification_is_plotted
  (h : Host) (config : PlotConfig) (code : jstring) (plotData spec : value)
  (g : N) (w : world) :
  config_get h config P_code = Ok (VString code) ->
  code <> [] ->
  template_safe code = true ->
  truthy spec = true ->
  Plot_plot h spec = Ok (Some g) ->
  (forall user,
      Function_new h Part000.user_params (Part000.user_body code) = Ok user ->
      user [VLib LibPlot; VLib LibD3; plotData; VLib LibTopojson] = Returned spec ->
      Part000.render h config plotData w
      = (Ret tt,
         {| trace := trace w
                     ++ [ NewFunction Part000.plot_params (Part000.plot_body code);
                          NewFunction Part000.user_params (Part000.user_body code);
                          Call [VLib LibPlot; VLib LibD3; plotData; VLib LibTopojson];
                          PlotPlot spec ];
            el_nodes := el_nodes w;
            container := Some [NGraphic g] |}))
  /\ (forall user,
         Function_new h Main.user_params (Main.user_body code) = Ok user ->
         user [VLib LibPlot; VLib LibD3; plotData] = Returned spec ->
         Main.render h config plotData w
         = (Ret tt,
            {| trace := trace w
                        ++ [ NewFunction Main.plot_params (Main.plot_body code);
                             NewFunction Main.user_params (Main.user_body code);
                             Call [VLib LibPlot; VLib LibD3; plotData];
                             PlotPlot spec ];
               el_nodes := el_nodes w;
               container := Some [NGraphic g] |})).
Proof.
  intros Hcode Hne Hsafe Hspec Hplot.
  destruct (code_path h config code plotData w Hcode Hne Hsafe) as [-> ->].
  split; intros user Hnew Hcall; run; rewrite Hnew, Hcall, Hspec; cbn [negb];
    rewrite Hplot; cbn [trace el_nodes container option_map app];
    rewrite <- !app_assoc; reflexivity.
Qed.

Lemma returned_specification_is_plotted_witness :
  Main.render Sample.plotting_host Sample.config (VArray [num_of_N 1]) fresh_world
  = (Ret tt,
     {| trace := [ NewFunction Main.plot_params (Main.plot_body Sample.payload);
                   NewFunction Main.user_params (Main.user_body Sample.payload);
                   Call [VLib LibPlot; VLib LibD3; VArray [num_of_N 1]];
                   PlotPlot (VObject [(lit "marks", VArray [])]) ];
        el_nodes := [];
        container := Some [NGraphic 2] |}).
Proof.
  refine (proj2 (returned_specification_is_plotted Sample.plotting_host
                   Sample.config Sample.payload (VArray [num_of_N 1])
                   (VObject [(lit "marks", VArray [])]) 2 fresh_world
                   eq_refl _ eq_refl eq_refl eq_refl) _ eq_refl eq_refl).
  discriminate.
Defined.







(** ** The text of the user function *)





(** ** The third program *)

Ltac lrun :=
  unfold Legacy.report, Legacy.default_plot, Legacy.call_user, Legacy.log,
    Legacy.logMessage, Legacy.createDiv_with_svg, Legacy.el_setText,
    Legacy.emit, Legacy.try_catch, Legacy.bind, Legacy.lift, Legacy.ret,
    Legacy.throw;
  cbn [Legacy.trace Legacy.el_nodes Legacy.svg option_map negb].

Lemma jstring_eqb_eq (a b : jstring) : jstring_eqb a b = true <-> a = b.
Proof.
  revert b. induction a as [|x a IH]; intros [|y b]; cbn [jstring_eqb];
    try (split; [discriminate|discriminate]); [split; reflexivity|].
  rewrite andb_true_iff, N.eqb_eq, IH. split.
  - now intros [-> ->].
  - now intros [= -> ->].
Qed.

Lemma setAttribute_new (name value : jstring) (attrs : list (jstring * jstring)) :
  ~ In name (List.map fst attrs) ->
  Legacy.setAttribute name value attrs = attrs ++ [(name, value)].
Proof.
  induction attrs as [|[n v] r IH]; intros Hnew; [reflexivity|].
  cbn [Legacy.setAttribute]. cbn [List.map fst In] in Hnew.
  destruct (jstring_eqb n name) eqn:E.
  - apply jstring_eqb_eq in E. tauto.
  - cbn [app]. rewrite IH; [reflexivity|tauto].
Qed.

(** Setting attributes of distinct names on an element that has none of
    them appends them in order. *)
Lemma copy_attributes (attrs acc : list (jstring * jstring)) :
  NoDup (List.map fst (acc ++ attrs)) ->
  fold_left (fun a attr => Legacy.setAttribute (fst attr) (snd attr) a) attrs acc
  = acc ++ attrs.
Proof.
  revert acc. induction attrs as [|[n v] r IH]; intros acc Hnd.
  - now rewrite app_nil_r.
  - cbn [fold_left fst snd].
    rewrite setAttribute_new.
    + rewrite IH; rewrite <- app_assoc; [reflexivity|exact Hnd].
    + rewrite map_app in Hnd. cbn [List.map fst] in Hnd.
      apply NoDup_remove_2 in Hnd. intro Hin. apply Hnd.
      apply in_or_app. now left.
Qed.

(** X23. In the third program a truthy specification from the user code
    is plotted and the plot copied into the [svg] element of the
    container when [Plot.plot] returns an SVG element: the element gets
    the attributes of the plot in order and its content. On the way five
    lines are logged: the code, the start of the call, the result of the
    call as JSON, the specification as indented JSON, and the first
    hundred code units of the markup of the plot followed by three
    dots. The user function is called with [Plot], [d3] and the [data]
    member of the configuration, whatever that is. *)
Theorem legacy_plot_is_copied_into_the_svg
  (h : Legacy.Runtime) (config : PlotConfig) (code : jstring)
  (data spec : value) (user : list value -> call_outcome)
  (shown indented : option jstring) (p : Legacy.element) (w : Legacy.world) :
  config_get (Legacy.engine h) config P_code = Ok (VString code) ->
  code <> [] ->
  template_safe code = true ->
  config_get (Legacy.engine h) config P_data = Ok data ->
  Function_new (Legacy.engine h) Legacy.user_params (Legacy.user_body code)
  = Ok user ->
  user [VLib LibPlot; VLib LibD3; data] = Returned spec ->
  truthy spec = true ->
  Legacy.JSON_stringify h spec = Ok shown ->
  Legacy.JSON_stringify_indented h spec = Ok indented ->
  Legacy.Plot_plot h spec = Ok (Some p) ->
  Legacy.is_svg p = true ->
  NoDup (List.map fst (Legacy.attributes p)) ->
  Legacy.render h config w
  = (Ret tt,
     {| Legacy.trace :=
          Legacy.trace w
          ++ [ NewFunction Legacy.plot_params (Legacy.plot_body code);
               Console false [lit "[Observable Plot]";
                              lit "Creating user function with code:" ++ [LF]
                                ++ template_value code];
               NewFunction Legacy.user_params (Legacy.user_body code);
               Console false [lit "[Observable Plot]";
                              lit "Executing user function..."];
               Call [VLib LibPlot; VLib LibD3; data];
               Console false [lit "[Observable Plot]";
                              lit "User function result: " ++ Legacy.text_of shown];
               Console false [lit "[Observable Plot]";
                              lit "Plot spec: " ++ Legacy.text_of indented];
               PlotPlot spec;
               Console false [lit "[Observable Plot]";
                              lit "Created plot: "
                                ++ firstn 100 (Legacy.outerHTML p) ++ lit "..."] ];
        Legacy.el_nodes := Legacy.el_nodes w;
        Legacy.svg := Some {| Legacy.svg_attributes := Legacy.attributes p;
                              Legacy.svg_innerHTML := Legacy.innerHTML p |} |}).
Proof.
  intros Hcode Hne Hsafe Hdata Hnew Hcall Hspec Hshown Hind Hplot Hsvg Hnd.
  assert (Htruthy : truthy (VString code) = true)
    by (destruct code; [contradiction|reflexivity]).
  unfold Legacy.render, Legacy.plotFunction. lrun.
  rewrite Hcode, Htruthy. cbn [to_js_string]. rewrite Hsafe. cbn [negb].
  rewrite Hdata, Hnew, Hcall, Hshown, Hspec. cbn [negb].
  rewrite Hind, Hplot. unfold Legacy.adopt. rewrite Hsvg.
  cbn [Legacy.trace Legacy.el_nodes Legacy.svg option_map].
  unfold Legacy.copy_plot, Legacy.createElementNS_svg.
  cbn [Legacy.svg_attributes].
  rewrite (copy_attributes _ [] Hnd). cbn [app].
  rewrite <- !app_assoc. reflexivity.
Qed.

Lemma legacy_plot_is_copied_into_the_svg_witness :
  exists t,
    Legacy.render (More.runtime (Some More.svg_plot) (More.returning More.marks))
      Sample.config Legacy.fresh_world
    = (Ret tt,
       {| Legacy.trace := t;
          Legacy.el_nodes := [];
          Legacy.svg :=
            Some {| Legacy.svg_attributes := [(lit "class", lit "plot");
                                              (lit "width", lit "640")];
                    Legacy.svg_innerHTML := lit "<g></g>" |} |}).
Proof.
  eexists.
  refine (legacy_plot_is_copied_into_the_svg
            (More.runtime (Some More.svg_plot) (More.returning More.marks))
            Sample.config Sample.payload (VArray [num_of_N 1]) More.marks
            (More.returning More.marks) (Some (lit "{}")) (Some (lit "{}"))
            More.svg_plot Legacy.fresh_world
            eq_refl _ eq_refl eq_refl eq_refl eq_refl eq_refl eq_refl eq_refl
            eq_refl eq_refl _).
  - discriminate.
  - repeat constructor; cbn [In]; intuition discriminate.
Defined.

(** X24. The third program asks for no data: without code it makes the
    mark from the [data] member of the configuration whatever that is,
    [undefined] when the member is absent, and plots the specification
    that holds that mark and nothing else. Other members of the
    configuration, a [dataUrl] among them, change nothing. *)
Theorem legacy_default_plot_takes_any_data
  (h : Legacy.Runtime) (ms ms' : list (jstring * value)) (mark : value)
  (p : Legacy.element) (w : Legacy.world) :
  let data := match lookup (lit "data") ms with
              | Some d => d | None => VUndefined end in
  let spec := VObject [(lit "marks", VArray [mark])] in
  lookup (lit "code") ms = None ->
  Plot_dot (Legacy.engine h) data = Ok mark ->
  Legacy.Plot_plot h spec = Ok (Some p) ->
  Legacy.is_svg p = true ->
  lookup (lit "data") ms' = lookup (lit "data") ms ->
  lookup (lit "code") ms' = lookup (lit "code") ms ->
  Legacy.render h (plain_config ms) w
  = (Ret tt,
     {| Legacy.trace := Legacy.trace w ++ [PlotDot data; PlotPlot spec];
        Legacy.el_nodes := Legacy.el_nodes w;
        Legacy.svg := Some (Legacy.copy_plot p Legacy.createElementNS_svg) |})
  /\ Legacy.render h (plain_config ms') w = Legacy.render h (plain_config ms) w.
Proof.
  intros data spec Hcode Hdot Hplot Hsvg Hdata' Hcode'.
  split.
  - unfold Legacy.render, plain_config, config_get.
    cbn [parsed assigned_code get_prop prop_name]. lrun.
    rewrite Hcode. cbn [truthy]. unfold config_get.
    cbn [parsed assigned_code get_prop prop_name]. fold data. rewrite Hdot.
    unfold Legacy.default_spec. fold spec. rewrite Hplot.
    unfold Legacy.adopt. rewrite Hsvg.
    cbn [Legacy.trace Legacy.el_nodes Legacy.svg option_map].
    rewrite <- !app_assoc. reflexivity.
  - unfold Legacy.render, Legacy.plotFunction, Legacy.default_plot,
      plain_config, config_get.
    cbn [parsed assigned_code get_prop prop_name].
    now rewrite Hdata', Hcode'.
Qed.

Lemma legacy_default_plot_takes_any_data_witness :
  parseConfig (Legacy.engine (More.runtime (Some More.svg_plot)
                                (More.returning VNull)))
    (lit "{}") = Ok (plain_config [])
  /\ Legacy.render (More.runtime (Some More.svg_plot) (More.returning VNull))
       (plain_config []) Legacy.fresh_world
     = (Ret tt,
        {| Legacy.trace := [PlotDot VUndefined;
                            PlotPlot (VObject [(lit "marks", VArray [VHost 1])])];
           Legacy.el_nodes := [];
           Legacy.svg :=
             Some (Legacy.copy_plot More.svg_plot Legacy.createElementNS_svg) |})
  /\ Legacy.render (More.runtime (Some More.svg_plot) (More.returning VNull))
       (plain_config [(lit "dataUrl", VString Sample.url)]) Legacy.fresh_world
     = Legacy.render (More.runtime (Some More.svg_plot) (More.returning VNull))
         (plain_config []) Legacy.fresh_world.
Proof.
  split; [vm_compute; reflexivity|].
  exact (legacy_default_plot_takes_any_data
           (More.runtime (Some More.svg_plot) (More.returning VNull))
           [] [(lit "dataUrl", VString Sample.url)] (VHost 1) More.svg_plot
           Legacy.fresh_world eq_refl eq_refl eq_refl eq_refl eq_refl eq_refl).
Defined.

(** X25. The third program shows only what is an SVG element. A plot
    that is another element, as the figure the library returns for a
    plot with a title, ends in the error that says [Plot.plot()] did not
    return an SVG element, with and without code, and the [svg] element
    keeps no attribute and no content. When the library returns nothing
    the same error is thrown without code, but with code the TypeError
    of reading [outerHTML] for the log line comes first. *)
Theorem legacy_rejects_what_is_not_an_svg
  (h : Legacy.Runtime) (config : PlotConfig) (code data : value)
  (plot : option Legacy.element) (w : Legacy.world) :
  config_get (Legacy.engine h) config P_code = Ok code ->
  config_get (Legacy.engine h) config P_data = Ok data ->
  match plot with Some p => Legacy.is_svg p = false | None => True end ->
  (truthy code = false ->
   forall mark,
     Plot_dot (Legacy.engine h) data = Ok mark ->
     Legacy.Plot_plot h (Legacy.default_spec mark) = Ok plot ->
     Legacy.render h config w
     = (Throw (Error (lit "Plot.plot() did not return an SVG element")),
        {| Legacy.trace := Legacy.trace w
                           ++ [PlotDot data; PlotPlot (Legacy.default_spec mark)];
           Legacy.el_nodes := Legacy.el_nodes w;
           Legacy.svg := Some Legacy.createElementNS_svg |}))
  /\ (forall text user spec shown indented,
         code = VString text ->
         text <> [] ->
         template_safe text = true ->
         Function_new (Legacy.engine h) Legacy.user_params (Legacy.user_body text)
         = Ok user ->
         user [VLib LibPlot; VLib LibD3; data] = Returned spec ->
         truthy spec = true ->
         Legacy.JSON_stringify h spec = Ok shown ->
         Legacy.JSON_stringify_indented h spec = Ok indented ->
         Legacy.Plot_plot h spec = Ok plot ->
         exists t,
           Legacy.render h config w
           = (Throw match plot with
                    | Some _ => Error (lit "Plot.plot() did not return an SVG element")
                    | None => Error (Legacy.TypeError_outerHTML h)
                    end,
              {| Legacy.trace := t;
                 Legacy.el_nodes := Legacy.el_nodes w;
                 Legacy.svg := Some Legacy.createElementNS_svg |})
           /\ specs_plotted t = specs_plotted (Legacy.trace w) ++ [spec]).
Proof.
  intros Hcode Hdata Hplot. split.
  - intros Hfalsy mark Hdot Hp.
    unfold Legacy.render. lrun. rewrite Hcode, Hfalsy, Hdata, Hdot, Hp.
    unfold Legacy.adopt.
    destruct plot as [p|]; [rewrite Hplot|];
      cbn [Legacy.trace Legacy.el_nodes Legacy.svg];
      rewrite <- !app_assoc; reflexivity.
  - intros text user spec shown indented -> Hne Hsafe Hnew Hcall Hspec Hshown
      Hind Hp.
    assert (Htruthy : truthy (VString text) = true)
      by (destruct text; [contradiction|reflexivity]).
    unfold Legacy.render, Legacy.plotFunction. lrun.
    rewrite Hcode, Htruthy. cbn [to_js_string]. rewrite Hsafe. cbn [negb].
    rewrite Hdata, Hnew, Hcall, Hshown, Hspec. cbn [negb].
    rewrite Hind, Hp. unfold Legacy.adopt.
    destruct plot as [p|]; [rewrite Hplot|];
      cbn [Legacy.trace Legacy.el_nodes Legacy.svg];
      (eexists; split; [reflexivity|]);
      rewrite !specs_plotted_app; cbn [specs_plotted flat_map app];
      now rewrite !app_nil_r.
Qed.

Lemma legacy_rejects_what_is_not_an_svg_witness :
  Legacy.render (More.runtime (Some More.figure_plot) (More.returning VNull))
    (plain_config [(lit "data", Sample.three_records)]) Legacy.fresh_world
  = (Throw (Error (lit "Plot.plot() did not return an SVG element")),
     {| Legacy.trace := [PlotDot Sample.three_records;
                         PlotPlot (Legacy.default_spec (VHost 1))];
        Legacy.el_nodes := [];
        Legacy.svg := Some Legacy.createElementNS_svg |})
  /\ exists t,
       Legacy.render (More.runtime None (More.returning More.marks))
         Sample.config Legacy.fresh_world
       = (Throw (Error (lit "Cannot read properties of null")),
          {| Legacy.trace := t;
             Legacy.el_nodes := [];
             Legacy.svg := Some Legacy.createElementNS_svg |})
       /\ specs_plotted t = [More.marks].
Proof.
  split.
  - exact (proj1 (legacy_rejects_what_is_not_an_svg
                    (More.runtime (Some More.figure_plot) (More.returning VNull))
                    (plain_config [(lit "data", Sample.three_records)])
                    VUndefined Sample.three_records (Some More.figure_plot)
                    Legacy.fresh_world eq_refl eq_refl eq_refl)
             eq_refl (VHost 1) eq_refl eq_refl).
  - refine (proj2 (legacy_rejects_what_is_not_an_svg
                     (More.runtime None (More.returning More.marks))
                     Sample.config (VString Sample.payload) (VArray [num_of_N 1])
                     None Legacy.fresh_world eq_refl eq_refl I)
              Sample.payload (More.returning More.marks) More.marks
              (Some (lit "{}")) (Some (lit "{}"))
              eq_refl _ eq_refl eq_refl eq_refl eq_refl eq_refl eq_refl eq_refl).
    discriminate.
Defined.



(** X27. In the third program the lines written to the log can end the
    render before anything is plotted: a result of the user code that
    [JSON.stringify] refuses is thrown on as that error although the
    result is truthy, and so is a specification the indented
    [JSON.stringify] refuses. A falsy result ends the render with the
    error that asks for a plot specification object, after the result
    was logged. In each case [Plot.plot] is not called and the [svg]
    element stays as it was created. *)
Theorem legacy_log_lines_come_before_the_plot
  (h : Legacy.Runtime) (config : PlotConfig) (code : jstring)
  (data spec : value) (user : list value -> call_outcome) (e : error)
  (w : Legacy.world) :
  config_get (Legacy.engine h) config P_code = Ok (VString code) ->
  code <> [] ->
  template_safe code = true ->
  config_get (Legacy.engine h) config P_data = Ok data ->
  Function_new (Legacy.engine h) Legacy.user_params (Legacy.user_body code)
  = Ok user ->
  user [VLib LibPlot; VLib LibD3; data] = Returned spec ->
  match Legacy.JSON_stringify h spec with
  | Err e' => e' = e
  | Ok _ =>
      if truthy spec then Legacy.JSON_stringify_indented h spec = Err e
      else e = Error (lit "No plot specification returned. Make sure your code returns a plot specification object.")
  end ->
  exists t,
    Legacy.render h config w
    = (Throw e,
       {| Legacy.trace := t;
          Legacy.el_nodes := Legacy.el_nodes w;
          Legacy.svg := Some Legacy.createElementNS_svg |})
    /\ specs_plotted t = specs_plotted (Legacy.trace w)
    /\ calls_made t = calls_made (Legacy.trace w) ++ [[VLib LibPlot; VLib LibD3; data]].
Proof.
  intros Hcode Hne Hsafe Hdata Hnew Hcall Hstop.
  assert (Htruthy : truthy (VString code) = true)
    by (destruct code; [contradiction|reflexivity]).
  unfold Legacy.render, Legacy.plotFunction. lrun.
  rewrite Hcode, Htruthy. cbn [to_js_string]. rewrite Hsafe. cbn [negb].
  rewrite Hdata, Hnew, Hcall.
  destruct (Legacy.JSON_stringify h spec) as [shown|e'].
  - destruct (truthy spec); cbn [negb].
    + rewrite Hstop. cbn [Legacy.trace Legacy.el_nodes Legacy.svg].
      eexists; split; [reflexivity|].
      rewrite !specs_plotted_app, !calls_made_app.
      cbn [specs_plotted calls_made flat_map app].
      now rewrite !app_nil_r.
    + subst e. cbn [Legacy.trace Legacy.el_nodes Legacy.svg].
      eexists; split; [reflexivity|].
      rewrite !specs_plotted_app, !calls_made_app.
      cbn [specs_plotted calls_made flat_map app].
      now rewrite !app_nil_r.
  - subst e'. cbn [Legacy.trace Legacy.el_nodes Legacy.svg].
    eexists; split; [reflexivity|].
    rewrite !specs_plotted_app, !calls_made_app.
    cbn [specs_plotted calls_made flat_map app].
    now rewrite !app_nil_r.
Qed.

Lemma legacy_log_lines_come_before_the_plot_witness :
  (exists t,
      Legacy.render More.circular_runtime Sample.config Legacy.fresh_world
      = (Throw (Error (lit "Converting circular structure to JSON")),
         {| Legacy.trace := t;
            Legacy.el_nodes := [];
            Legacy.svg := Some Legacy.createElementNS_svg |})
      /\ specs_plotted t = []
      /\ calls_made t = [[VLib LibPlot; VLib LibD3; VArray [num_of_N 1]]])
  /\ (exists t,
         Legacy.render (More.runtime (Some More.svg_plot) (More.returning VNull))
           Sample.null_config Legacy.fresh_world
         = (Throw (Error (lit "No plot specification returned. Make sure your code returns a plot specification object.")),
            {| Legacy.trace := t;
               Legacy.el_nodes := [];
               Legacy.svg := Some Legacy.createElementNS_svg |})
         /\ specs_plotted t = []
         /\ calls_made t = [[VLib LibPlot; VLib LibD3; VArray [num_of_N 1]]]).
Proof.
  split.
  - refine (legacy_log_lines_come_before_the_plot More.circular_runtime
              Sample.config Sample.payload (VArray [num_of_N 1]) More.marks
              (fun _ => Returned More.marks)
              (Error (lit "Converting circular structure to JSON"))
              Legacy.fresh_world eq_refl _ eq_refl eq_refl eq_refl eq_refl eq_refl).
    discriminate.
  - refine (legacy_log_lines_come_before_the_plot
              (More.runtime (Some More.svg_plot) (More.returning VNull))
              Sample.null_config (lit "return null") (VArray [num_of_N 1]) VNull
              (More.returning VNull)
              (Error (lit "No plot specification returned. Make sure your code returns a plot specification object."))
              Legacy.fresh_world eq_refl _ eq_refl eq_refl eq_refl eq_refl eq_refl).
    discriminate.
Defined.
